(** * Group-chat resolvers: a shallow embedding

    The GraphQL resolver module of the group-chat feature (queries
    [getGroupMessages], [searchGroups]; mutations [createGroup],
    [sendGroupMessage], [addGroupMembers], [removeGroupMember],
    [leaveGroup], [updateGroup], [deleteGroup], [makeGroupAdmin],
    [markGroupMessageAsRead]) is embedded as functions over an explicit
    document store.  A resolver is a computation in a state-and-exception
    monad: the state is the pair of collections, an exception is the message
    of a thrown [Error].  Every [try { ... } catch (error) { ... }] of the
    source is a [try_catch].

    Identifiers (ObjectIds and their canonical strings) are strings.  The
    socket notifier only reads the store and is left out.  Values produced
    outside the resolver (the clock, the identifier the store allocates, the
    outcome of the image upload) are explicit arguments; the readings of the
    clock within one request are taken to be the same instant.  Services
    outside the repository (the validity test of
    ObjectIds, regular expressions, [String.prototype.trim], the texts of
    cast errors) are the fields of the class [Externals]; the theorems hold
    for every instance.  The GroupMessage schema and the chat panel of
    GroupChat.js are embedded as well. *)

From Stdlib Require Import List String Ascii ZArith Lia Bool Arith.
From Stdlib Require Import Permutation Sorted DecimalString.
Import ListNotations.
Open Scope string_scope.

(** ** JavaScript helpers *)

Definition Id := string.

(** [Array.prototype.includes] on an array of identifiers. *)
Definition includes (l : list Id) (x : Id) : bool :=
  existsb (String.eqb x) l.

(** [[...new Set(l)]]: first occurrences, in insertion order. *)
Fixpoint set_of (l : list Id) : list Id :=
  match l with
  | [] => []
  | x :: r => x :: filter (fun y => negb (String.eqb y x)) (set_of r)
  end.

(** Truthiness of a possibly absent string: [undefined], [null] and the
    empty string are falsy. *)
Definition truthy (s : option string) : bool :=
  match s with
  | Some (String _ _) => true
  | _ => false
  end.

(** [a || b] on a possibly absent string. *)
Definition or_else (a : option string) (b : string) : string :=
  match a with
  | Some (String c r) => String c r
  | _ => b
  end.

(** Template-literal rendering of a number. *)
Definition string_of_Z (z : Z) : string := NilZero.string_of_int (Z.to_int z).
Definition string_of_nat (n : nat) : string := string_of_Z (Z.of_nat n).

(** ** Documents *)

(** Modelled from the spec: the schema [Models/Group] is not among the
    sources.  The documents below carry the fields the resolvers read and
    write, with the types the data model of the specification gives them;
    for messages these are also the fields of the GroupMessage schema, whose
    setters and validators are [groupMessageSchema_cast] further down. *)
Record LastMessage := {
  lm_content : string;
  lm_sender : Id;
  lm_timestamp : Z
}.

Module Group.
Record t := {
  _id : Id;
  name : string;
  description : string;
  groupImage : string;
  members : list Id;
  admins : list Id;
  createdBy : Id;
  isPrivate : bool;
  maxMembers : Z;
  lastMessage : option LastMessage;
  updatedAt : Z
}.

Definition with_members (g : t) (ms : list Id) : t :=
  {| _id := _id g; name := name g; description := description g;
     groupImage := groupImage g; members := ms; admins := admins g;
     createdBy := createdBy g; isPrivate := isPrivate g;
     maxMembers := maxMembers g; lastMessage := lastMessage g;
     updatedAt := updatedAt g |}.

Definition with_admins (g : t) (ads : list Id) : t :=
  {| _id := _id g; name := name g; description := description g;
     groupImage := groupImage g; members := members g; admins := ads;
     createdBy := createdBy g; isPrivate := isPrivate g;
     maxMembers := maxMembers g; lastMessage := lastMessage g;
     updatedAt := updatedAt g |}.

Definition with_lastMessage (g : t) (lm : LastMessage) (now : Z) : t :=
  {| _id := _id g; name := name g; description := description g;
     groupImage := groupImage g; members := members g; admins := admins g;
     createdBy := createdBy g; isPrivate := isPrivate g;
     maxMembers := maxMembers g; lastMessage := Some lm;
     updatedAt := now |}.

(** A partial update: only the supplied fields change. *)
Definition with_fields (g : t) (n d i : option string) : t :=
  {| _id := _id g;
     name := match n with Some v => v | None => name g end;
     description := match d with Some v => v | None => description g end;
     groupImage := match i with Some v => v | None => groupImage g end;
     members := members g; admins := admins g;
     createdBy := createdBy g; isPrivate := isPrivate g;
     maxMembers := maxMembers g; lastMessage := lastMessage g;
     updatedAt := updatedAt g |}.
End Group.

Record ReadReceipt := {
  rr_user : Id;
  readAt : Z
}.

(** The media descriptor a client passes to sendGroupMessage. *)
Record Media := {
  media_url : string;
  media_type : string;
  media_filename : string;
  media_size : Z
}.

(** A stored message: the paths of the GroupMessage schema (GroupChat.js
    l.247-276).  The schema declares [media] with a [type] key, which makes
    it a String path. *)
Module GroupMessage.
Record t := {
  _id : Id;
  group : Id;
  sender : Id;
  content : option string;
  messageType : string;
  media : option string;
  replyTo : option Id;
  isEdited : bool;
  editedAt : option Z;
  isDeleted : bool;
  deletedAt : option Z;
  readBy : list ReadReceipt;
  createdAt : Z;
  updatedAt : Z
}.

Definition with_readBy (m : t) (rs : list ReadReceipt) : t :=
  {| _id := _id m; group := group m; sender := sender m;
     content := content m; messageType := messageType m; media := media m;
     replyTo := replyTo m; isEdited := isEdited m; editedAt := editedAt m;
     isDeleted := isDeleted m; deletedAt := deletedAt m; readBy := rs;
     createdAt := createdAt m; updatedAt := updatedAt m |}.

Definition with_updatedAt (m : t) (now : Z) : t :=
  {| _id := _id m; group := group m; sender := sender m;
     content := content m; messageType := messageType m; media := media m;
     replyTo := replyTo m; isEdited := isEdited m; editedAt := editedAt m;
     isDeleted := isDeleted m; deletedAt := deletedAt m; readBy := readBy m;
     createdAt := createdAt m; updatedAt := now |}.
End GroupMessage.

(** The document sendGroupMessage hands to [GroupMessage.create] (l.219-226). *)
Record NewGroupMessage := {
  new_group : Id;
  new_sender : Id;
  new_content : option string;
  new_messageType : string;
  new_media : option Media;
  new_replyTo : option Id
}.

(** Services outside the repository.
    [ObjectId_isValid] is the validity test of the identifier library.
    [regex_compile_i q] is the store's case-insensitive test of the pattern
    [q] ([{ $regex: q, $options: 'i' }]), or [None] when [q] is not a valid
    pattern.  [js_trim] is [String.prototype.trim].
    [cast_to_string_failed v] is the text of the library's CastError for the
    object [v] given to a String path, [cast_to_ObjectId_failed r path] the
    one for the string [r] given to the ObjectId path [path]. *)
Class Externals := {
  ObjectId_isValid : Id -> bool;
  regex_compile_i : string -> option (string -> bool);
  js_trim : string -> string;
  cast_to_string_failed : Media -> string;
  cast_to_ObjectId_failed : Id -> string -> string
}.

(** The two collections, each in insertion order. *)
Record Store := {
  groups : list Group.t;
  groupMessages : list GroupMessage.t
}.

Definition empty_store : Store := {| groups := []; groupMessages := [] |}.

(** ** Resolver computations *)

Inductive completion (A : Type) : Type :=
| Returned (a : A)
| Thrown (msg : string).
Arguments Returned {A} a.
Arguments Thrown {A} msg.

Definition M (A : Type) : Type := Store -> completion A * Store.

Definition ret {A} (a : A) : M A := fun st => (Returned a, st).
Definition throw {A} (msg : string) : M A := fun st => (Thrown msg, st).
Definition bind {A B} (m : M A) (k : A -> M B) : M B :=
  fun st =>
    match m st with
    | (Returned a, st') => k a st'
    | (Thrown msg, st') => (Thrown msg, st')
    end.
Definition try_catch {A} (m : M A) (handler : string -> M A) : M A :=
  fun st =>
    match m st with
    | (Returned a, st') => (Returned a, st')
    | (Thrown msg, st') => handler msg st'
    end.

Notation "x <- c ;; k" := (bind c (fun x => k))
  (at level 61, c at next level, right associativity).
Notation "c ;;; k" := (bind c (fun _ => k))
  (at level 61, right associativity).

(** [if (cond) throw new Error(msg)]. *)
Definition throw_if (cond : bool) (msg : string) : M unit :=
  if cond then throw msg else ret tt.

(** ** Document store adapter *)

Definition Group_findById (gid : Id) : M (option Group.t) :=
  fun st => (Returned (find (fun g => String.eqb (Group._id g) gid) (groups st)), st).

Definition GroupMessage_findById (mid : Id) : M (option GroupMessage.t) :=
  fun st =>
    (Returned (find (fun m => String.eqb (GroupMessage._id m) mid) (groupMessages st)), st).

(** [doc.save()]: the stored document with the same [_id] is replaced. *)
Definition Group_save (g : Group.t) : M unit :=
  fun st =>
    (Returned tt,
     {| groups := map (fun x => if String.eqb (Group._id x) (Group._id g) then g else x)
                      (groups st);
        groupMessages := groupMessages st |}).

(** The schema has [timestamps: true]: saving a message stamps its
    [updatedAt]. *)
Definition GroupMessage_save (m : GroupMessage.t) (now : Z) : M unit :=
  fun st =>
    (Returned tt,
     {| groups := groups st;
        groupMessages :=
          map (fun x => if String.eqb (GroupMessage._id x) (GroupMessage._id m)
                        then GroupMessage.with_updatedAt m now else x)
              (groupMessages st) |}).

(** [Model.create]: the document is appended; [_id] is a unique key, so an
    identifier already in the collection is refused. *)
Definition Group_create (g : Group.t) : M Group.t :=
  fun st =>
    if existsb (fun x => String.eqb (Group._id x) (Group._id g)) (groups st)
    then (Thrown "E11000 duplicate key error", st)
    else (Returned g, {| groups := groups st ++ [g]; groupMessages := groupMessages st |}).

(** The values of [messageType] the schema admits. *)
Definition messageType_enum : list string :=
  ["text"; "image"; "video"; "audio"; "file"; "system"].

(** The cast of a string given to an ObjectId path. *)
Definition cast_ObjectId `{Externals} (path : string) (v : Id) : list string :=
  if ObjectId_isValid v then [] else [path ++ ": " ++ cast_to_ObjectId_failed v path].

(** The validation errors of a new message, in the order the library
    records them: the failed casts when the document is built from the keys
    of l.220-225 ([group] and [sender], strings where the path is an
    ObjectId; [media], an object where the path is a String; [replyTo]), then
    the [enum] validator of [messageType].  The required paths [group] and
    [sender] are always given by the resolver, so [required] fails only
    through their cast. *)
Definition groupMessageSchema_errors `{Externals} (doc : NewGroupMessage) : list string :=
  let group_errors := cast_ObjectId "group" (new_group doc) in
  let sender_errors := cast_ObjectId "sender" (new_sender doc) in
  let media_errors :=
    match new_media doc with
    | Some v => ["media: " ++ cast_to_string_failed v]
    | None => []
    end in
  let replyTo_errors :=
    match new_replyTo doc with
    | Some r => cast_ObjectId "replyTo" r
    | None => []
    end in
  let messageType_errors :=
    if existsb (String.eqb (new_messageType doc)) messageType_enum
    then []
    else ["messageType: `" ++ new_messageType doc
            ++ "` is not a valid enum value for path `messageType`."] in
  app group_errors
    (app sender_errors (app media_errors (app replyTo_errors messageType_errors))).

(** What the schema makes of an accepted document: the [trim] setter of
    [content], the defaults of the flags and of [readBy], and both
    timestamps. *)
Definition groupMessageSchema_document `{Externals} (doc : NewGroupMessage)
    (newId : Id) (now : Z) : GroupMessage.t :=
  {| GroupMessage._id := newId;
     GroupMessage.group := new_group doc;
     GroupMessage.sender := new_sender doc;
     GroupMessage.content := option_map js_trim (new_content doc);
     GroupMessage.messageType := new_messageType doc;
     GroupMessage.media := None;
     GroupMessage.replyTo := new_replyTo doc;
     GroupMessage.isEdited := false;
     GroupMessage.editedAt := None;
     GroupMessage.isDeleted := false;
     GroupMessage.deletedAt := None;
     GroupMessage.readBy := [];
     GroupMessage.createdAt := now;
     GroupMessage.updatedAt := now |}.

Definition groupMessageSchema_cast `{Externals} (doc : NewGroupMessage)
    (newId : Id) (now : Z) : completion GroupMessage.t :=
  match groupMessageSchema_errors doc with
  | [] => Returned (groupMessageSchema_document doc newId now)
  | errors => Thrown ("GroupMessage validation failed: " ++ String.concat ", " errors)
  end.

(** [GroupMessage.create(doc)]: the document goes through the schema, then
    is appended under the identifier the store allocates. *)
Definition GroupMessage_create `{Externals} (doc : NewGroupMessage) (newId : Id) (now : Z)
  : M GroupMessage.t :=
  fun st =>
    match groupMessageSchema_cast doc newId now with
    | Thrown msg => (Thrown msg, st)
    | Returned m =>
        if existsb (fun x => String.eqb (GroupMessage._id x) (GroupMessage._id m))
                   (groupMessages st)
        then (Thrown "E11000 duplicate key error", st)
        else (Returned m,
              {| groups := groups st; groupMessages := groupMessages st ++ [m] |})
    end.

(** [Group.findByIdAndUpdate(gid, update)]: [update] is applied to the document
    with that [_id], if any. *)
Definition Group_findByIdAndUpdate (gid : Id) (update : Group.t -> Group.t)
  : M (option Group.t) :=
  fun st =>
    let groups' := map (fun x => if String.eqb (Group._id x) gid then update x else x)
                       (groups st) in
    (Returned (find (fun g => String.eqb (Group._id g) gid) groups'),
     {| groups := groups'; groupMessages := groupMessages st |}).

Definition Group_findByIdAndDelete (gid : Id) : M unit :=
  fun st =>
    (Returned tt,
     {| groups := filter (fun x => negb (String.eqb (Group._id x) gid)) (groups st);
        groupMessages := groupMessages st |}).

Definition GroupMessage_deleteMany_group (gid : Id) : M unit :=
  fun st =>
    (Returned tt,
     {| groups := groups st;
        groupMessages :=
          filter (fun m => negb (String.eqb (GroupMessage.group m) gid)) (groupMessages st) |}).

(** Cursor modifiers.  [skip n] drops the first [n] documents; [limit n]
    keeps the first [n], and a limit of [0] is the store's "no limit". *)
Definition cursor_skip {A} (n : nat) (l : list A) : list A := skipn n l.
Definition cursor_limit {A} (n : nat) (l : list A) : list A :=
  match n with
  | O => l
  | _ => firstn n l
  end.

(** [sort({ createdAt: -1 })]: newest first; documents with equal keys keep
    their stored order. *)
Fixpoint insert_desc (m : GroupMessage.t) (l : list GroupMessage.t) : list GroupMessage.t :=
  match l with
  | [] => [m]
  | x :: r =>
      if (GroupMessage.createdAt x <=? GroupMessage.createdAt m)%Z
      then m :: x :: r
      else x :: insert_desc m r
  end.

Fixpoint sort_createdAt_desc (l : list GroupMessage.t) : list GroupMessage.t :=
  match l with
  | [] => []
  | m :: r => insert_desc m (sort_createdAt_desc r)
  end.

(** The filter [{ group: gid, isDeleted: false }]. *)
Definition group_query (gid : Id) (m : GroupMessage.t) : bool :=
  String.eqb (GroupMessage.group m) gid && negb (GroupMessage.isDeleted m).

(** [GroupMessage.find({ group, isDeleted: false }).sort({ createdAt: -1 })
    .limit(limit).skip(offset)]: the store applies the skip before the limit
    whatever the order of the two calls. *)
Definition GroupMessage_find_page (gid : Id) (limit offset : nat)
  : M (list GroupMessage.t) :=
  fun st =>
    (Returned
       (cursor_limit limit
          (cursor_skip offset
             (sort_createdAt_desc
                (filter (group_query gid) (groupMessages st))))),
     st).

(** [Group.find({ $and: [{ isPrivate: false }, { $or: [name ~ q, description ~ q] }] })
    .limit(limit)]; the store refuses a query whose pattern is invalid. *)
Definition Group_find_public `{Externals} (q : string) (limit : nat) : M (list Group.t) :=
  fun st =>
    match regex_compile_i q with
    | None => (Thrown "Regular expression is invalid", st)
    | Some test =>
        (Returned
           (cursor_limit limit
              (filter (fun g => negb (Group.isPrivate g)
                                && (test (Group.name g) || test (Group.description g)))
                      (groups st))),
         st)
    end.

(** ** Request context and arguments *)

Module User.
Record t := { id : Id; name : string }.
End User.

Record Context := { user : option User.t }.

(** Outcome of the image pipeline (resize, re-encode, upload). *)
Inductive upload_outcome :=
| Uploaded (secure_url : string)
| UploadFailed.

Record CreateGroupInput := {
  in_name : option string;
  in_description : option string;
  in_groupImage : option upload_outcome;
  in_members : option (list Id);
  in_isPrivate : option bool;
  in_maxMembers : option Z
}.

(** The uniform result of the membership mutations. *)
Record GroupResponse := {
  success : bool;
  message : string;
  group : option Group.t
}.

Definition failure (msg : string) : GroupResponse :=
  {| success := false; message := msg; group := None |}.

Definition default {A} (d : A) (o : option A) : A :=
  match o with Some v => v | None => d end.

(** ** Query resolvers

    [limit] and [offset] are counts, modelled as natural numbers; an omitted
    argument takes the default written in the resolver's signature. *)

Definition getGroupMessages (groupId : Id) (limit offset : option nat) (ctx : Context)
  : M (list GroupMessage.t) :=
  try_catch
    (messages <- GroupMessage_find_page groupId (default 50 limit) (default 0 offset) ;;
     ret (rev messages))
    (fun msg => throw ("Error fetching group messages: " ++ msg)).

Definition getGroupDetails (groupId : Id) (ctx : Context) : M Group.t :=
  try_catch
    (group <- Group_findById groupId ;;
     match group with
     | None => throw "Group not found"
     | Some g => ret g
     end)
    (fun msg => throw ("Error fetching group details: " ++ msg)).

Definition searchGroups `{Externals} (query : string) (limit : option nat) (ctx : Context)
  : M (list Group.t) :=
  try_catch
    (Group_find_public query (default 10 limit))
    (fun msg => throw ("Error searching groups: " ++ msg)).

(** ** Mutation resolvers *)

Definition createGroup `{Externals} (input : CreateGroupInput) (ctx : Context)
    (newId : Id) (now : Z) : M (option Group.t) :=
  try_catch
    (match user ctx with
     | None => throw "Authentication required"
     | Some user =>
         throw_if (negb (truthy (Some (User.id user)))) "Authentication required" ;;;
         (* Validate input *)
         throw_if (negb (truthy (in_name input))
                   || (String.length (js_trim (default "" (in_name input))) =? 0)%nat)
                  "Group name is required" ;;;
         match in_members input with
         | None | Some [] => throw "At least one member is required"
         | Some input_members =>
             (* Validate member IDs *)
             let invalidMembers :=
               filter (fun id => negb (ObjectId_isValid id)) input_members in
             throw_if (0 <? List.length invalidMembers)%nat "Invalid member IDs provided" ;;;
             (* Ensure creator is in members list *)
             let members := set_of (User.id user :: input_members) in
             (* Handle group image upload *)
             groupImageUrl <- match in_groupImage input with
                              | None => ret ""
                              | Some (Uploaded url) => ret url
                              | Some UploadFailed => throw "Failed to upload group image"
                              end ;;
             let groupData :=
               {| Group._id := newId;
                  Group.name := default "" (in_name input);
                  Group.description := or_else (in_description input) "";
                  Group.groupImage := groupImageUrl;
                  Group.members := members;
                  Group.admins := [User.id user];
                  Group.createdBy := User.id user;
                  Group.isPrivate := default false (in_isPrivate input);
                  Group.maxMembers :=
                    match in_maxMembers input with
                    | Some n => if (n =? 0)%Z then 256%Z else n
                    | None => 256%Z
                    end;
                  (* filled in by the schema: no last message yet,
                     stamped with the clock *)
                  Group.lastMessage := None;
                  Group.updatedAt := now |} in
             group <- Group_create groupData ;;
             Group_findById (Group._id group)
         end
     end)
    (fun msg => throw ("Error creating group: " ++ msg)).

Definition sendGroupMessage `{Externals} (groupId : Id) (content : option string)
    (messageType : option string) (media : option Media) (replyTo : option Id)
    (ctx : Context) (newId : Id) (now : Z) : M (option GroupMessage.t) :=
  let messageType := default "text" messageType in
  try_catch
    (match user ctx with
     | None => throw "Authentication required"
     | Some user =>
         (* Check if user is a member of the group *)
         group <- Group_findById groupId ;;
         throw_if (match group with
                   | None => true
                   | Some g => negb (includes (Group.members g) (User.id user))
                   end)
                  "You are not a member of this group" ;;;
         message <- GroupMessage_create
                      {| new_group := groupId;
                         new_sender := User.id user;
                         new_content := content;
                         new_messageType := messageType;
                         new_media := media;
                         new_replyTo := replyTo |}
                      newId now ;;
         (* Update group's last message *)
         Group_findByIdAndUpdate groupId
           (fun g => Group.with_lastMessage g
                       {| lm_content := or_else content ("Sent a " ++ messageType);
                          lm_sender := User.id user;
                          lm_timestamp := now |}
                       now) ;;;
         GroupMessage_findById (GroupMessage._id message)
     end)
    (fun msg => throw ("Error sending group message: " ++ msg)).

Definition addGroupMembers (groupId : Id) (memberIds : list Id) (ctx : Context)
  : M GroupResponse :=
  try_catch
    (match user ctx with
     | None => throw "Authentication required"
     | Some user =>
         group <- Group_findById groupId ;;
         match group with
         | None => throw "Group not found"
         | Some group =>
             (* Check if user is admin *)
             throw_if (negb (includes (Group.admins group) (User.id user)))
                      "Only admins can add members" ;;;
             (* Check max members limit *)
             let newMemberCount :=
               (List.length (Group.members group) + List.length memberIds)%nat in
             throw_if (Group.maxMembers group <? Z.of_nat newMemberCount)%Z
                      ("Cannot exceed maximum members limit of "
                         ++ string_of_Z (Group.maxMembers group)) ;;;
             (* Add new members (avoid duplicates) *)
             let uniqueNewMembers :=
               filter (fun id => negb (includes (Group.members group) id)) memberIds in
             let group := Group.with_members group (Group.members group ++ uniqueNewMembers) in
             Group_save group ;;;
             updatedGroup <- Group_findById groupId ;;
             ret {| success := true;
                    message := string_of_nat (List.length uniqueNewMembers)
                                 ++ " members added successfully";
                    group := updatedGroup |}
         end
     end)
    (fun msg => ret (failure msg)).

Definition removeGroupMember (groupId : Id) (memberId : Id) (ctx : Context)
  : M GroupResponse :=
  try_catch
    (match user ctx with
     | None => throw "Authentication required"
     | Some user =>
         group <- Group_findById groupId ;;
         match group with
         | None => throw "Group not found"
         | Some group =>
             (* Check if user is admin or removing themselves *)
             throw_if (negb (includes (Group.admins group) (User.id user))
                       && negb (String.eqb (User.id user) memberId))
                      "Only admins can remove members" ;;;
             (* Cannot remove the creator *)
             throw_if (String.eqb (Group.createdBy group) memberId)
                      "Cannot remove group creator" ;;;
             (* Remove member *)
             let group := Group.with_members group
                            (filter (fun id => negb (String.eqb id memberId))
                                    (Group.members group)) in
             let group := Group.with_admins group
                            (filter (fun id => negb (String.eqb id memberId))
                                    (Group.admins group)) in
             Group_save group ;;;
             updatedGroup <- Group_findById groupId ;;
             ret {| success := true;
                    message := "Member removed successfully";
                    group := updatedGroup |}
         end
     end)
    (fun msg => ret (failure msg)).

Definition leaveGroup (groupId : Id) (ctx : Context) : M GroupResponse :=
  try_catch
    (match user ctx with
     | None => throw "Authentication required"
     | Some user =>
         group <- Group_findById groupId ;;
         match group with
         | None => throw "Group not found"
         | Some group =>
             (* Creator cannot leave, must transfer ownership first *)
             throw_if (String.eqb (Group.createdBy group) (User.id user))
                      "Group creator cannot leave. Transfer ownership first or delete the group." ;;;
             (* Remove user from members and admins *)
             let group := Group.with_members group
                            (filter (fun id => negb (String.eqb id (User.id user)))
                                    (Group.members group)) in
             let group := Group.with_admins group
                            (filter (fun id => negb (String.eqb id (User.id user)))
                                    (Group.admins group)) in
             Group_save group ;;;
             updatedGroup <- Group_findById groupId ;;
             ret {| success := true;
                    message := "Left group successfully";
                    group := updatedGroup |}
         end
     end)
    (fun msg => ret (failure msg)).

Definition updateGroup (groupId : Id) (name description groupImage : option string)
    (ctx : Context) : M (option Group.t) :=
  try_catch
    (match user ctx with
     | None => throw "Authentication required"
     | Some user =>
         group <- Group_findById groupId ;;
         match group with
         | None => throw "Group not found"
         | Some group =>
             (* Check if user is admin *)
             throw_if (negb (includes (Group.admins group) (User.id user)))
                      "Only admins can update group" ;;;
             Group_findByIdAndUpdate groupId
               (fun g => Group.with_fields g name description groupImage)
         end
     end)
    (fun msg => throw ("Error updating group: " ++ msg)).

Definition deleteGroup (groupId : Id) (ctx : Context) : M GroupResponse :=
  try_catch
    (match user ctx with
     | None => throw "Authentication required"
     | Some user =>
         group <- Group_findById groupId ;;
         match group with
         | None => throw "Group not found"
         | Some group =>
             (* Only creator can delete group *)
             throw_if (negb (String.eqb (Group.createdBy group) (User.id user)))
                      "Only group creator can delete the group" ;;;
             (* Delete all group messages *)
             GroupMessage_deleteMany_group groupId ;;;
             (* Delete the group *)
             Group_findByIdAndDelete groupId ;;;
             ret {| success := true;
                    message := "Group deleted successfully";
                    group := None |}
         end
     end)
    (fun msg => ret (failure msg)).

Definition makeGroupAdmin (groupId : Id) (memberId : Id) (ctx : Context)
  : M GroupResponse :=
  try_catch
    (match user ctx with
     | None => throw "Authentication required"
     | Some user =>
         group <- Group_findById groupId ;;
         match group with
         | None => throw "Group not found"
         | Some group =>
             (* Check if user is admin *)
             throw_if (negb (includes (Group.admins group) (User.id user)))
                      "Only admins can promote members" ;;;
             (* Check if member exists in group *)
             throw_if (negb (includes (Group.members group) memberId))
                      "User is not a member of this group" ;;;
             (* Add to admins if not already *)
             (if negb (includes (Group.admins group) memberId)
              then Group_save (Group.with_admins group (Group.admins group ++ [memberId]))
              else ret tt) ;;;
             updatedGroup <- Group_findById groupId ;;
             ret {| success := true;
                    message := "Member promoted to admin successfully";
                    group := updatedGroup |}
         end
     end)
    (fun msg => ret (failure msg)).

Definition markGroupMessageAsRead (messageId : Id) (ctx : Context) (now : Z)
  : M (option GroupMessage.t) :=
  try_catch
    (match user ctx with
     | None => throw "Authentication required"
     | Some user =>
         message <- GroupMessage_findById messageId ;;
         match message with
         | None => throw "Message not found"
         | Some message =>
             (* Check if already read by user *)
             let alreadyRead :=
               existsb (fun read => String.eqb (rr_user read) (User.id user))
                       (GroupMessage.readBy message) in
             (if negb alreadyRead
              then GroupMessage_save
                     (GroupMessage.with_readBy message
                        (GroupMessage.readBy message
                           ++ [{| rr_user := User.id user; readAt := now |}]))
                     now
              else ret tt) ;;;
             GroupMessage_findById messageId
         end
     end)
    (fun msg => throw ("Error marking message as read: " ++ msg)).

(** ** Remaining resolvers *)

(** [sort({ updatedAt: -1 })]: most recently updated first; documents with
    equal keys keep their stored order. *)
Fixpoint insert_updatedAt_desc (g : Group.t) (l : list Group.t) : list Group.t :=
  match l with
  | [] => [g]
  | x :: r =>
      if (Group.updatedAt x <=? Group.updatedAt g)%Z
      then g :: x :: r
      else x :: insert_updatedAt_desc g r
  end.

Fixpoint sort_updatedAt_desc (l : list Group.t) : list Group.t :=
  match l with
  | [] => []
  | g :: r => insert_updatedAt_desc g (sort_updatedAt_desc r)
  end.

(** [Group.find({ members: userId }).sort({ updatedAt: -1 })]: the groups
    whose member array contains [userId]. *)
Definition Group_find_member (userId : Id) : M (list Group.t) :=
  fun st =>
    (Returned
       (sort_updatedAt_desc
          (filter (fun g => includes (Group.members g) userId) (groups st))),
     st).

Definition getUserGroups (userId : Id) (ctx : Context) : M (list Group.t) :=
  try_catch
    (Group_find_member userId)
    (fun msg => throw ("Error fetching user groups: " ++ msg)).

(** Field resolver [Group.memberCount]. *)
Definition memberCount (group : Group.t) : nat := List.length (Group.members group).

(** ** The group chat panel (GroupChat.js) *)

(** Variables of the [sendGroupMessage] mutation. *)
Record SendVariables := {
  var_groupId : Id;
  var_content : string;
  var_messageType : string
}.

(** [handleSendMessage]: nothing is sent for a blank input; otherwise the
    trimmed text goes out as a text message. *)
Definition handleSendMessage `{Externals} (group_id : Id) (message : string)
  : option SendVariables :=
  if negb (truthy (Some (js_trim message))) then None
  else Some {| var_groupId := group_id;
               var_content := js_trim message;
               var_messageType := "text" |}.

Module TypingUser.
Record t := { userId : Id; userName : string; profileImage : string }.
End TypingUser.

(** The [groupUserTyping] listener: the update of [typingUsers] on an event
    of user [who]; [currentUserId] is absent until the [GET_ME] query has
    answered. *)
Definition onGroupUserTyping (currentUserId : option Id) (who : TypingUser.t)
    (userIsTyping : bool) (prev : list TypingUser.t) : list TypingUser.t :=
  let others :=
    filter (fun u => negb (String.eqb (TypingUser.userId u) (TypingUser.userId who))) prev in
  if match currentUserId with
     | Some me => negb (String.eqb (TypingUser.userId who) me)
     | None => true
     end
  then if userIsTyping then others ++ [who] else others
  else prev.

(** The [newGroupMessage] listener: a message is appended when it belongs to
    the open group. *)
Definition onNewGroupMessage (group_id : Id) (newMessage : GroupMessage.t)
    (prev : list GroupMessage.t) : list GroupMessage.t :=
  if String.eqb (GroupMessage.group newMessage) group_id
  then prev ++ [newMessage]
  else prev.

(** ** A concrete instance and sample documents *)

Definition isHexDigit (c : ascii) : bool :=
  let n := nat_of_ascii c in
  ((48 <=? n)%nat && (n <=? 57)%nat)
  || ((65 <=? n)%nat && (n <=? 70)%nat)
  || ((97 <=? n)%nat && (n <=? 102)%nat).

(** The 24-hex-digit form of an ObjectId. *)
Definition hex24 (s : Id) : bool :=
  (String.length s =? 24)%nat && forallb isHexDigit (list_ascii_of_string s).

Definition lower (c : ascii) : ascii :=
  let n := nat_of_ascii c in
  if ((65 <=? n)%nat && (n <=? 90)%nat) then ascii_of_nat (n + 32) else c.

Fixpoint lower_string (s : string) : string :=
  match s with
  | EmptyString => EmptyString
  | String c r => String (lower c) (lower_string r)
  end.

Fixpoint contains (fuel : nat) (q s : string) : bool :=
  if String.prefix q s then true
  else match fuel, s with
       | S fuel', String _ r => contains fuel' q r
       | _, _ => false
       end.

(** What the regular-expression test computes on a pattern without
    metacharacters: case-insensitive containment. *)
Definition contains_i (q s : string) : bool :=
  contains (String.length s) (lower_string q) (lower_string s).

(** [String.prototype.trim] on a string held as its UTF-8 encoding (what
    a string literal of this file is); a byte outside a well-formed sequence
    stands for the code point of its own value. *)
Definition bytes_of (s : string) : list N := map N_of_ascii (list_ascii_of_string s).
Definition string_of (l : list N) : string := string_of_list_ascii (map ascii_of_N l).

Definition continuation (b : N) : bool := ((128 <=? b) && (b <=? 191))%N.

(** The code points of a text, each as the bytes that encode it. *)
Fixpoint code_points (l : list N) : list (list N) :=
  match l with
  | [] => []
  | b :: r =>
      match r with
      | c1 :: r1 =>
          if ((194 <=? b) && (b <=? 223))%N && continuation c1
          then [b; c1] :: code_points r1
          else
            match r1 with
            | c2 :: r2 =>
                if ((224 <=? b) && (b <=? 239))%N && continuation c1 && continuation c2
                then [b; c1; c2] :: code_points r2
                else
                  match r2 with
                  | c3 :: r3 =>
                      if ((240 <=? b) && (b <=? 244))%N
                         && continuation c1 && continuation c2 && continuation c3
                      then [b; c1; c2; c3] :: code_points r3
                      else [b] :: code_points r
                  | [] => [b] :: code_points r
                  end
            | [] => [b] :: code_points r
            end
      | [] => [[b]]
      end
  end.

(** WhiteSpace and LineTerminator of ECMAScript: TAB, LF, VT, FF, CR, SP,
    U+00A0, U+1680, U+2000 to U+200A, U+2028, U+2029, U+202F, U+205F, U+3000
    and U+FEFF. *)
Definition isWhiteSpace (cp : list N) : bool :=
  match cp with
  | [b] => (((9 <=? b) && (b <=? 13)) || (b =? 32) || (b =? 160))%N
  | [194; 160]%N => true
  | [225; 154; 128]%N => true
  | [226; 128; c]%N => (((128 <=? c) && (c <=? 138)) || (c =? 168) || (c =? 169) || (c =? 175))%N
  | [226; 129; 159]%N => true
  | [227; 128; 128]%N => true
  | [239; 187; 191]%N => true
  | _ => false
  end.

Fixpoint dropWhile {A} (p : A -> bool) (l : list A) : list A :=
  match l with
  | [] => []
  | x :: r => if p x then dropWhile p r else l
  end.

Definition trim (s : string) : string :=
  string_of
    (List.concat
       (rev (dropWhile isWhiteSpace (rev (dropWhile isWhiteSpace (code_points (bytes_of s))))))).

(** The texts of the CastErrors, without the rendering of the value. *)
Definition cast_error (v : Media) : string :=
  "Cast to string failed for value of type Object at path media".

Definition cast_error_ObjectId (r : Id) (path : string) : string :=
  "Cast to ObjectId failed for value `" ++ r ++ "` (type string) at path " ++ path.

#[global] Instance sample_externals : Externals :=
  {| ObjectId_isValid := hex24;
     regex_compile_i := fun q => Some (contains_i q);
     js_trim := trim;
     cast_to_string_failed := cast_error;
     cast_to_ObjectId_failed := cast_error_ObjectId |}.

(** U+00A0, a no-break space, in UTF-8. *)
Definition nbsp : string := String (ascii_of_nat 194) (String (ascii_of_nat 160) "").

Definition u1 : Id := "64b7f0a1c2d3e4f5a6b7c801".
Definition u2 : Id := "64b7f0a1c2d3e4f5a6b7c802".
Definition u3 : Id := "64b7f0a1c2d3e4f5a6b7c803".
Definition gid1 : Id := "64b7f0a1c2d3e4f5a6b7c8a1".

Definition as_user (uid : Id) : Context :=
  {| user := Some {| User.id := uid; User.name := "" |} |}.
Definition anonymous : Context := {| user := None |}.

(** The group "Team" created by [u1] with [u2], capacity [cap]. *)
Definition team (cap : Z) : Group.t :=
  {| Group._id := gid1; Group.name := "Team"; Group.description := "";
     Group.groupImage := ""; Group.members := [u1; u2]; Group.admins := [u1];
     Group.createdBy := u1; Group.isPrivate := false; Group.maxMembers := cap;
     Group.lastMessage := None; Group.updatedAt := 0%Z |}.

Definition team_store (cap : Z) : Store :=
  {| groups := [team cap]; groupMessages := [] |}.

(** A text message of [gid] sent by [u1] at time [t]. *)
Definition text_message (mid gid : Id) (t : Z) (deleted : bool) : GroupMessage.t :=
  {| GroupMessage._id := mid; GroupMessage.group := gid; GroupMessage.sender := u1;
     GroupMessage.content := Some "hello"; GroupMessage.messageType := "text";
     GroupMessage.media := None; GroupMessage.replyTo := None;
     GroupMessage.isEdited := false; GroupMessage.editedAt := None;
     GroupMessage.isDeleted := deleted; GroupMessage.deletedAt := None;
     GroupMessage.readBy := []; GroupMessage.createdAt := t;
     GroupMessage.updatedAt := t |}.

Definition gid2 : Id := "64b7f0a1c2d3e4f5a6b7c8a2".

Definition M1 := text_message "m1" gid1 1 false.
Definition M2 := text_message "m2" gid1 2 false.
Definition M3 := text_message "m3" gid1 3 false.
Definition M4 := text_message "m4" gid1 4 false.
Definition M5 := text_message "m5" gid1 5 false.

(** The five messages of the group, stored out of order among a message of
    another group and a soft-deleted one, both more recent. *)
Definition five_messages : Store :=
  {| groups := [team 256];
     groupMessages :=
       [M3; text_message "x1" gid2 7 false; M1; M5;
        text_message "d1" gid1 6 true; M2; M4] |}.

(** Chronological order, oldest first, and its converse. *)
Definition not_newer (a b : GroupMessage.t) : Prop :=
  (GroupMessage.createdAt a <= GroupMessage.createdAt b)%Z.
Definition not_older (a b : GroupMessage.t) : Prop :=
  (GroupMessage.createdAt b <= GroupMessage.createdAt a)%Z.

Definition crew : Group.t :=
  {| Group._id := gid2; Group.name := "Crew"; Group.description := "the other team";
     Group.groupImage := ""; Group.members := [u3]; Group.admins := [u3];
     Group.createdBy := u3; Group.isPrivate := false; Group.maxMembers := 256%Z;
     Group.lastMessage := None; Group.updatedAt := 0%Z |}.

Definition team_input : CreateGroupInput :=
  {| in_name := Some "Team"; in_description := None; in_groupImage := None;
     in_members := Some [u1; u2]; in_isPrivate := None; in_maxMembers := None |}.

(** A private group of [u3] alone, with two messages. *)
Definition private_store : Store :=
  {| groups :=
       [{| Group._id := gid1; Group.name := "Private"; Group.description := "";
           Group.groupImage := ""; Group.members := [u3]; Group.admins := [u3];
           Group.createdBy := u3; Group.isPrivate := true; Group.maxMembers := 256%Z;
           Group.lastMessage := None; Group.updatedAt := 0%Z |}];
     groupMessages := [M1; M2] |}.

(** The store after [u1] created the team and [u2] sent a first message. *)
Definition chat_store : Store :=
  snd (sendGroupMessage gid1 (Some "hi") None None None (as_user u2) "m1" 7%Z
         (snd (createGroup team_input (as_user u1) gid1 0%Z empty_store))).

(** ** Invariants and reachable stores *)

(** Every admin of the group is one of its members. *)
Definition admins_subset (g : Group.t) : Prop :=
  forall x, In x (Group.admins g) -> In x (Group.members g).

(** Number of read receipts of [reader] on a message. *)
Definition receipts_of (reader : Id) (m : GroupMessage.t) : nat :=
  List.length (filter (fun read => String.eqb (rr_user read) reader)
                      (GroupMessage.readBy m)).

(** No user has two read receipts on the message. *)
Definition receipts_unique (m : GroupMessage.t) : Prop :=
  NoDup (map rr_user (GroupMessage.readBy m)).

(** The test of [readBy.some(...)]: the receipt belongs to [reader]. *)
Definition read_by (reader : Id) (read : ReadReceipt) : bool :=
  String.eqb (rr_user read) reader.

(** The validation failures of createGroup. *)
Definition validation_messages : list string :=
  ["Group name is required"; "At least one member is required";
   "Invalid member IDs provided"].

(** The answer of a successful makeGroupAdmin. *)
Definition promoted (g : option Group.t) : GroupResponse :=
  {| success := true; message := "Member promoted to admin successfully"; group := g |}.

(** Order of the group listing: [a] was updated no earlier than [b]. *)
Definition updated_not_before (a b : Group.t) : Prop :=
  (Group.updatedAt b <= Group.updatedAt a)%Z.

(** The group after [who] has been filtered out of members and admins, as
    removeGroupMember and leaveGroup save it. *)
Definition without (who : Id) (g : Group.t) : Group.t :=
  Group.with_admins
    (Group.with_members g
       (filter (fun id => negb (String.eqb id who)) (Group.members g)))
    (filter (fun id => negb (String.eqb id who)) (Group.admins g)).

(** The creator of the group is among its members and among its admins. *)
Definition creator_inside (g : Group.t) : Prop :=
  In (Group.createdBy g) (Group.members g) /\ In (Group.createdBy g) (Group.admins g).

(** Each collection holds at most one document per identifier. *)
Definition ids_unique (st : Store) : Prop :=
  NoDup (map Group._id (groups st)) /\ NoDup (map GroupMessage._id (groupMessages st)).

(** One mutation request, served to completion. *)
Inductive step `{Externals} : Store -> Store -> Prop :=
| step_createGroup input ctx newId now st :
    step st (snd (createGroup input ctx newId now st))
| step_sendGroupMessage gid content ty media replyTo ctx newId now st :
    step st (snd (sendGroupMessage gid content ty media replyTo ctx newId now st))
| step_addGroupMembers gid memberIds ctx st :
    step st (snd (addGroupMembers gid memberIds ctx st))
| step_removeGroupMember gid memberId ctx st :
    step st (snd (removeGroupMember gid memberId ctx st))
| step_leaveGroup gid ctx st :
    step st (snd (leaveGroup gid ctx st))
| step_updateGroup gid n d i ctx st :
    step st (snd (updateGroup gid n d i ctx st))
| step_deleteGroup gid ctx st :
    step st (snd (deleteGroup gid ctx st))
| step_makeGroupAdmin gid memberId ctx st :
    step st (snd (makeGroupAdmin gid memberId ctx st))
| step_markGroupMessageAsRead mid ctx now st :
    step st (snd (markGroupMessageAsRead mid ctx now st)).

(** Stores the resolvers can produce from the empty collections. *)
Inductive reachable `{Externals} : Store -> Prop :=
| reachable_empty : reachable empty_store
| reachable_step st st' : reachable st -> step st st' -> reachable st'.

(** ** Proof support *)

Ltac unfold_store_ops :=
  unfold Group_findById, GroupMessage_findById, Group_save, GroupMessage_save,
    Group_create, GroupMessage_create, Group_findByIdAndUpdate,
    Group_findByIdAndDelete, GroupMessage_deleteMany_group,
    GroupMessage_find_page, Group_find_public in *.

Ltac unfold_monad :=
  unfold throw_if in *; unfold try_catch, bind, ret, throw, failure in *.

Ltac run := unfold_monad; unfold_store_ops; cbn beta iota.

Lemma includes_In (l : list Id) (x : Id) : includes l x = true <-> In x l.
Proof.
  unfold includes. rewrite existsb_exists. split.
  - intros [y [Hy Heq]]. apply String.eqb_eq in Heq. now subst.
  - intros Hin. exists x. split; [assumption | apply String.eqb_refl].
Qed.

Lemma cast_ObjectId_ok `{Externals} (path : string) (v : Id) :
  cast_ObjectId path v = [] <-> ObjectId_isValid v = true.
Proof.
  unfold cast_ObjectId. destruct (ObjectId_isValid v); split; congruence.
Qed.

Lemma app_nil_both {A} (l l' : list A) : app l l' = [] <-> l = [] /\ l' = [].
Proof.
  split; [apply app_eq_nil | intros [-> ->]; reflexivity].
Qed.

Lemma schema_errors_none `{Externals} (doc : NewGroupMessage) :
  groupMessageSchema_errors doc = [] <->
  ObjectId_isValid (new_group doc) = true
  /\ ObjectId_isValid (new_sender doc) = true
  /\ new_media doc = None
  /\ (forall r, new_replyTo doc = Some r -> ObjectId_isValid r = true)
  /\ In (new_messageType doc) messageType_enum.
Proof.
  unfold groupMessageSchema_errors. cbv zeta.
  rewrite !app_nil_both, !cast_ObjectId_ok.
  assert (Hmedia : match new_media doc with
                   | Some v => ["media: " ++ cast_to_string_failed v]
                   | None => []
                   end = [] <-> new_media doc = None)
    by (destruct (new_media doc); split; congruence).
  assert (Hreply : match new_replyTo doc with
                   | Some r => cast_ObjectId "replyTo" r
                   | None => []
                   end = []
                   <-> forall r, new_replyTo doc = Some r -> ObjectId_isValid r = true).
  { destruct (new_replyTo doc) as [r|].
    - rewrite cast_ObjectId_ok. split.
      + intros Hr x Hx. now inversion Hx; subst.
      + intros Hr. now apply Hr.
    - split; [discriminate | reflexivity]. }
  assert (Htype : (if existsb (String.eqb (new_messageType doc)) messageType_enum
                   then []
                   else ["messageType: `" ++ new_messageType doc
                           ++ "` is not a valid enum value for path `messageType`."])
                  = (@nil string)
                  <-> In (new_messageType doc) messageType_enum).
  { destruct (existsb (String.eqb (new_messageType doc)) messageType_enum) eqn:Henum.
    - apply existsb_exists in Henum. destruct Henum as [x [Hx Heq]].
      apply String.eqb_eq in Heq. subst x. split; [now intros _ | reflexivity].
    - split; [discriminate|]. intros Hin.
      assert (Hex : existsb (String.eqb (new_messageType doc)) messageType_enum = true)
        by (apply existsb_exists; exists (new_messageType doc);
            split; [assumption | apply String.eqb_refl]).
      congruence. }
  rewrite Hmedia, Hreply, Htype. reflexivity.
Qed.

Lemma schema_accepts `{Externals} (doc : NewGroupMessage) (newId : Id) (now : Z)
    (m : GroupMessage.t) :
  groupMessageSchema_cast doc newId now = Returned m <->
  m = groupMessageSchema_document doc newId now
  /\ ObjectId_isValid (new_group doc) = true
  /\ ObjectId_isValid (new_sender doc) = true
  /\ new_media doc = None
  /\ (forall r, new_replyTo doc = Some r -> ObjectId_isValid r = true)
  /\ In (new_messageType doc) messageType_enum.
Proof.
  rewrite <- schema_errors_none. unfold groupMessageSchema_cast.
  destruct (groupMessageSchema_errors doc) as [|e errors].
  - split; [intros Hm; inversion Hm; now split | intros (-> & _); reflexivity].
  - split; [discriminate | intros (_ & Hnil); discriminate].
Qed.

Lemma schema_refuses `{Externals} (doc : NewGroupMessage) (newId : Id) (now : Z) :
  ObjectId_isValid (new_group doc) = false
  \/ ObjectId_isValid (new_sender doc) = false
  \/ new_media doc <> None
  \/ (exists r, new_replyTo doc = Some r /\ ObjectId_isValid r = false)
  \/ ~ In (new_messageType doc) messageType_enum ->
  exists msg,
    groupMessageSchema_cast doc newId now
    = Thrown ("GroupMessage validation failed: " ++ msg).
Proof.
  intros Hbad.
  destruct (groupMessageSchema_cast doc newId now) as [m|msg] eqn:Hcast.
  - apply schema_accepts in Hcast.
    destruct Hcast as (_ & Hgroup & Hsender & Hmedia & Hreply & Htype).
    destruct Hbad as [Hbad | [Hbad | [Hbad | [(r & Hr & Hinvalid) | Hbad]]]];
      try congruence; try contradiction.
    apply Hreply in Hr. congruence.
  - unfold groupMessageSchema_cast in Hcast.
    destruct (groupMessageSchema_errors doc); [discriminate|].
    inversion Hcast; subst. eexists. reflexivity.
Qed.

(** The store after sendGroupMessage: untouched, or with the accepted
    message appended and the summary of the group rewritten. *)
Lemma sendGroupMessage_store `{Externals}
    (gid : Id) (content ty : option string) (media : option Media) (replyTo : option Id)
    (ctx : Context) (newId : Id) (now : Z) (st : Store) :
  snd (sendGroupMessage gid content ty media replyTo ctx newId now st) = st
  \/ exists u m,
      user ctx = Some u
      /\ groupMessageSchema_cast
           {| new_group := gid; new_sender := User.id u; new_content := content;
              new_messageType := default "text" ty; new_media := media;
              new_replyTo := replyTo |} newId now = Returned m
      /\ existsb (fun x => String.eqb (GroupMessage._id x) newId) (groupMessages st) = false
      /\ snd (sendGroupMessage gid content ty media replyTo ctx newId now st)
         = {| groups :=
                map (fun x => if String.eqb (Group._id x) gid
                              then Group.with_lastMessage x
                                     {| lm_content :=
                                          or_else content ("Sent a " ++ default "text" ty);
                                        lm_sender := User.id u;
                                        lm_timestamp := now |} now
                              else x) (groups st);
              groupMessages := groupMessages st ++ [m] |}.
Proof.
  unfold sendGroupMessage. run.
  destruct (user ctx) as [u|]; [|now left].
  destruct (find _ (groups st)) as [g|]; [|now left].
  destruct (negb (includes (Group.members g) (User.id u))); [now left|].
  cbv beta match zeta. unfold GroupMessage_create.
  destruct (groupMessageSchema_cast _ newId now) as [m|msg] eqn:Hcast; [|now left].
  pose proof (proj1 (schema_accepts _ _ _ _) Hcast) as (Hm & _).
  assert (Hid : GroupMessage._id m = newId) by (now subst m).
  rewrite Hid.
  destruct (existsb _ (groupMessages st)) eqn:Hfresh; [now left|].
  right. exists u, m. repeat split; assumption.
Qed.

Lemma find_In_groups (gid : Id) (l : list Group.t) (g : Group.t) :
  find (fun x => String.eqb (Group._id x) gid) l = Some g ->
  In g l /\ Group._id g = gid.
Proof.
  intros Hf. apply find_some in Hf. destruct Hf as [Hin Heq].
  apply String.eqb_eq in Heq. now split.
Qed.

Lemma Forall_map_replace {A} (P : A -> Prop) (sel : A -> bool) (f : A -> A) (l : list A) :
  Forall P l ->
  (forall x, In x l -> sel x = true -> P (f x)) ->
  Forall P (map (fun x => if sel x then f x else x) l).
Proof.
  intros Hall Hf. apply Forall_forall. intros y Hy.
  apply in_map_iff in Hy. destruct Hy as [x [Hx Hin]].
  destruct (sel x) eqn:Hs; subst y.
  - now apply Hf.
  - rewrite Forall_forall in Hall. now apply Hall.
Qed.

Lemma Forall_kept {A} (P : A -> Prop) (keep : A -> bool) (l : list A) :
  Forall P l -> Forall P (filter keep l).
Proof.
  intros Hall. apply Forall_forall. intros x Hx.
  apply filter_In in Hx. rewrite Forall_forall in Hall. now apply Hall.
Qed.

(** ** Structured failures and thrown failures *)

Section Failures.
Context `{Externals}.
Variables (st : Store) (ctx : Context) (groupId : Id).

Lemma addGroupMembers_returns memberIds :
  exists r st', addGroupMembers groupId memberIds ctx st = (Returned r, st')
    /\ (success r = false -> group r = None /\ st' = st).
Proof.
  unfold addGroupMembers. run.
  destruct (user ctx) as [u|]; [|eexists _, _; split; [reflexivity | now split]].
  destruct (find _ (groups st)) as [g|];
    [|eexists _, _; split; [reflexivity | now split]].
  destruct (includes (Group.admins g) (User.id u)); cbn;
    [|eexists _, _; split; [reflexivity | now split]].
  destruct (Z.ltb _ _); cbn;
    eexists _, _; (split; [reflexivity | cbn; try discriminate; now split]).
Qed.

Lemma removeGroupMember_returns memberId :
  exists r st', removeGroupMember groupId memberId ctx st = (Returned r, st')
    /\ (success r = false -> group r = None /\ st' = st).
Proof.
  unfold removeGroupMember. run.
  destruct (user ctx) as [u|]; [|eexists _, _; split; [reflexivity | now split]].
  destruct (find _ (groups st)) as [g|];
    [|eexists _, _; split; [reflexivity | now split]].
  destruct (negb _ && negb _); cbn;
    [eexists _, _; split; [reflexivity | now split]|].
  destruct (String.eqb (Group.createdBy g) memberId); cbn;
    eexists _, _; (split; [reflexivity | cbn; try discriminate; now split]).
Qed.

Lemma leaveGroup_returns :
  exists r st', leaveGroup groupId ctx st = (Returned r, st')
    /\ (success r = false -> group r = None /\ st' = st).
Proof.
  unfold leaveGroup. run.
  destruct (user ctx) as [u|]; [|eexists _, _; split; [reflexivity | now split]].
  destruct (find _ (groups st)) as [g|];
    [|eexists _, _; split; [reflexivity | now split]].
  destruct (String.eqb (Group.createdBy g) (User.id u)); cbn;
    eexists _, _; (split; [reflexivity | cbn; try discriminate; now split]).
Qed.

Lemma deleteGroup_returns :
  exists r st', deleteGroup groupId ctx st = (Returned r, st')
    /\ (success r = false -> group r = None /\ st' = st).
Proof.
  unfold deleteGroup. run.
  destruct (user ctx) as [u|]; [|eexists _, _; split; [reflexivity | now split]].
  destruct (find _ (groups st)) as [g|];
    [|eexists _, _; split; [reflexivity | now split]].
  destruct (String.eqb (Group.createdBy g) (User.id u)); cbn;
    eexists _, _; (split; [reflexivity | cbn; try discriminate; now split]).
Qed.

Lemma makeGroupAdmin_returns memberId :
  exists r st', makeGroupAdmin groupId memberId ctx st = (Returned r, st')
    /\ (success r = false -> group r = None /\ st' = st).
Proof.
  unfold makeGroupAdmin. run.
  destruct (user ctx) as [u|]; [|eexists _, _; split; [reflexivity | now split]].
  destruct (find _ (groups st)) as [g|];
    [|eexists _, _; split; [reflexivity | now split]].
  destruct (includes (Group.admins g) (User.id u)); cbn;
    [|eexists _, _; split; [reflexivity | now split]].
  destruct (includes (Group.members g) memberId); cbn;
    [|eexists _, _; split; [reflexivity | now split]].
  destruct (includes (Group.admins g) memberId); cbn;
    eexists _, _; (split; [reflexivity | cbn; try discriminate; now split]).
Qed.
End Failures.

Ltac settle_refusal :=
  run;
  repeat match goal with
         | H : _ = _ |- _ => rewrite H
         end;
  cbn [negb andb orb]; cbv beta match zeta;
  try reflexivity.

(** C1, as the code has it.  The five membership mutations (addGroupMembers,
    removeGroupMember, leaveGroup, deleteGroup, makeGroupAdmin) never throw:
    a call without an authenticated user, on a missing group, by an actor who
    lacks the required role, or against a business rule (capacity, the
    creator, a promoted user who is no member) returns the result
    [{success: false, message, group: null}] with the message of that cause
    and leaves the store as it was; every other call returns a result with
    [success: true].  updateGroup, sendGroupMessage and
    markGroupMessageAsRead instead throw each of their failures (no
    authenticated user, missing group or message, missing role or
    membership, a message the schema refuses), prefixed by the operation, as
    the creation and query paths do, and return a value otherwise. *)
Theorem failures_structured_or_thrown `{Externals}
    (st : Store) (ctx : Context) (groupId : Id) :
  (* nothing is thrown by the membership mutations *)
  (forall memberIds, exists r st',
      addGroupMembers groupId memberIds ctx st = (Returned r, st')
      /\ (success r = false -> group r = None /\ st' = st))
  /\ (forall memberId, exists r st',
      removeGroupMember groupId memberId ctx st = (Returned r, st')
      /\ (success r = false -> group r = None /\ st' = st))
  /\ (exists r st',
      leaveGroup groupId ctx st = (Returned r, st')
      /\ (success r = false -> group r = None /\ st' = st))
  /\ (exists r st',
      deleteGroup groupId ctx st = (Returned r, st')
      /\ (success r = false -> group r = None /\ st' = st))
  /\ (forall memberId, exists r st',
      makeGroupAdmin groupId memberId ctx st = (Returned r, st')
      /\ (success r = false -> group r = None /\ st' = st))
  (* no authenticated user *)
  /\ (user ctx = None ->
      let refusal := {| success := false; message := "Authentication required";
                        group := None |} in
      (forall memberIds,
          addGroupMembers groupId memberIds ctx st = (Returned refusal, st))
      /\ (forall memberId,
          removeGroupMember groupId memberId ctx st = (Returned refusal, st))
      /\ leaveGroup groupId ctx st = (Returned refusal, st)
      /\ deleteGroup groupId ctx st = (Returned refusal, st)
      /\ (forall memberId,
          makeGroupAdmin groupId memberId ctx st = (Returned refusal, st))
      /\ (forall n d i,
          updateGroup groupId n d i ctx st
          = (Thrown "Error updating group: Authentication required", st))
      /\ (forall content ty media replyTo newId now,
          sendGroupMessage groupId content ty media replyTo ctx newId now st
          = (Thrown "Error sending group message: Authentication required", st))
      /\ (forall messageId now,
          markGroupMessageAsRead messageId ctx now st
          = (Thrown "Error marking message as read: Authentication required", st)))
  (* no such group *)
  /\ (forall u,
      user ctx = Some u ->
      find (fun x => String.eqb (Group._id x) groupId) (groups st) = None ->
      let refusal := {| success := false; message := "Group not found";
                        group := None |} in
      (forall memberIds,
          addGroupMembers groupId memberIds ctx st = (Returned refusal, st))
      /\ (forall memberId,
          removeGroupMember groupId memberId ctx st = (Returned refusal, st))
      /\ leaveGroup groupId ctx st = (Returned refusal, st)
      /\ deleteGroup groupId ctx st = (Returned refusal, st)
      /\ (forall memberId,
          makeGroupAdmin groupId memberId ctx st = (Returned refusal, st))
      /\ (forall n d i,
          updateGroup groupId n d i ctx st
          = (Thrown "Error updating group: Group not found", st))
      /\ (forall content ty media replyTo newId now,
          sendGroupMessage groupId content ty media replyTo ctx newId now st
          = (Thrown "Error sending group message: You are not a member of this group",
             st)))
  (* an authenticated user and a stored group *)
  /\ (forall u g,
      user ctx = Some u ->
      find (fun x => String.eqb (Group._id x) groupId) (groups st) = Some g ->
      (* addGroupMembers *)
      (forall memberIds,
          (includes (Group.admins g) (User.id u) = false ->
           addGroupMembers groupId memberIds ctx st
           = (Returned {| success := false; message := "Only admins can add members";
                          group := None |}, st))
          /\ (includes (Group.admins g) (User.id u) = true ->
              (Group.maxMembers g
               < Z.of_nat (List.length (Group.members g) + List.length memberIds))%Z ->
              addGroupMembers groupId memberIds ctx st
              = (Returned {| success := false;
                             message := "Cannot exceed maximum members limit of "
                                          ++ string_of_Z (Group.maxMembers g);
                             group := None |}, st))
          /\ (includes (Group.admins g) (User.id u) = true ->
              (Z.of_nat (List.length (Group.members g) + List.length memberIds)
               <= Group.maxMembers g)%Z ->
              exists r st',
                addGroupMembers groupId memberIds ctx st = (Returned r, st')
                /\ success r = true))
      (* removeGroupMember *)
      /\ (forall memberId,
          (includes (Group.admins g) (User.id u) = false ->
           User.id u <> memberId ->
           removeGroupMember groupId memberId ctx st
           = (Returned {| success := false; message := "Only admins can remove members";
                          group := None |}, st))
          /\ (includes (Group.admins g) (User.id u) = true \/ User.id u = memberId ->
              Group.createdBy g = memberId ->
              removeGroupMember groupId memberId ctx st
              = (Returned {| success := false; message := "Cannot remove group creator";
                             group := None |}, st))
          /\ (includes (Group.admins g) (User.id u) = true \/ User.id u = memberId ->
              Group.createdBy g <> memberId ->
              exists r st',
                removeGroupMember groupId memberId ctx st = (Returned r, st')
                /\ success r = true))
      (* leaveGroup *)
      /\ (Group.createdBy g = User.id u ->
          leaveGroup groupId ctx st
          = (Returned {| success := false;
                         message := "Group creator cannot leave. Transfer ownership first or delete the group.";
                         group := None |}, st))
      /\ (Group.createdBy g <> User.id u ->
          exists r st',
            leaveGroup groupId ctx st = (Returned r, st') /\ success r = true)
      (* deleteGroup *)
      /\ (Group.createdBy g <> User.id u ->
          deleteGroup groupId ctx st
          = (Returned {| success := false;
                         message := "Only group creator can delete the group";
                         group := None |}, st))
      /\ (Group.createdBy g = User.id u ->
          exists r st',
            deleteGroup groupId ctx st = (Returned r, st') /\ success r = true)
      (* makeGroupAdmin *)
      /\ (forall memberId,
          (includes (Group.admins g) (User.id u) = false ->
           makeGroupAdmin groupId memberId ctx st
           = (Returned {| success := false; message := "Only admins can promote members";
                          group := None |}, st))
          /\ (includes (Group.admins g) (User.id u) = true ->
              includes (Group.members g) memberId = false ->
              makeGroupAdmin groupId memberId ctx st
              = (Returned {| success := false;
                             message := "User is not a member of this group";
                             group := None |}, st))
          /\ (includes (Group.admins g) (User.id u) = true ->
              includes (Group.members g) memberId = true ->
              exists r st',
                makeGroupAdmin groupId memberId ctx st = (Returned r, st')
                /\ success r = true))
      (* updateGroup *)
      /\ (forall n d i,
          (includes (Group.admins g) (User.id u) = false ->
           updateGroup groupId n d i ctx st
           = (Thrown "Error updating group: Only admins can update group", st))
          /\ (includes (Group.admins g) (User.id u) = true ->
              exists v st', updateGroup groupId n d i ctx st = (Returned v, st')))
      (* sendGroupMessage *)
      /\ (forall content ty media replyTo newId now,
          (includes (Group.members g) (User.id u) = false ->
           sendGroupMessage groupId content ty media replyTo ctx newId now st
           = (Thrown "Error sending group message: You are not a member of this group",
              st))
          /\ (includes (Group.members g) (User.id u) = true ->
              ObjectId_isValid groupId = false
              \/ ObjectId_isValid (User.id u) = false
              \/ media <> None
              \/ (exists r, replyTo = Some r /\ ObjectId_isValid r = false)
              \/ ~ In (default "text" ty) messageType_enum ->
              exists msg,
                sendGroupMessage groupId content ty media replyTo ctx newId now st
                = (Thrown ("Error sending group message: GroupMessage validation failed: "
                             ++ msg), st))
          /\ (includes (Group.members g) (User.id u) = true ->
              ObjectId_isValid groupId = true ->
              ObjectId_isValid (User.id u) = true ->
              media = None ->
              (forall r, replyTo = Some r -> ObjectId_isValid r = true) ->
              In (default "text" ty) messageType_enum ->
              existsb (fun m => String.eqb (GroupMessage._id m) newId) (groupMessages st)
              = false ->
              exists v st',
                sendGroupMessage groupId content ty media replyTo ctx newId now st
                = (Returned v, st'))))
  (* markGroupMessageAsRead *)
  /\ (forall messageId now u,
      user ctx = Some u ->
      (find (fun m => String.eqb (GroupMessage._id m) messageId) (groupMessages st) = None ->
       markGroupMessageAsRead messageId ctx now st
       = (Thrown "Error marking message as read: Message not found", st))
      /\ (forall m,
          find (fun m => String.eqb (GroupMessage._id m) messageId) (groupMessages st)
          = Some m ->
          exists v st', markGroupMessageAsRead messageId ctx now st = (Returned v, st'))).
Proof.
  split; [intros; apply addGroupMembers_returns|].
  split; [intros; apply removeGroupMember_returns|].
  split; [apply leaveGroup_returns|].
  split; [apply deleteGroup_returns|].
  split; [intros; apply makeGroupAdmin_returns|].
  split; [|split; [|split]].
  - intros Hu refusal. subst refusal.
    repeat split; intros;
      unfold addGroupMembers, removeGroupMember, leaveGroup, deleteGroup, makeGroupAdmin,
        updateGroup, sendGroupMessage, markGroupMessageAsRead;
      settle_refusal.
  - intros u Hu Hg refusal. subst refusal.
    repeat split; intros;
      unfold addGroupMembers, removeGroupMember, leaveGroup, deleteGroup, makeGroupAdmin,
        updateGroup, sendGroupMessage;
      settle_refusal.
  - intros u g Hu Hg.
    split; [|split; [|split; [|split; [|split; [|split; [|split; [|split]]]]]]].
    + intros memberIds. split; [|split].
      * intros Hadm. unfold addGroupMembers. settle_refusal.
      * intros Hadm Hover. apply Z.ltb_lt in Hover.
        unfold addGroupMembers. settle_refusal.
      * intros Hadm Hfits. apply Z.ltb_ge in Hfits.
        unfold addGroupMembers. settle_refusal.
        eexists _, _. split; reflexivity.
    + intros memberId. split; [|split].
      * intros Hadm Hother. apply String.eqb_neq in Hother.
        unfold removeGroupMember. settle_refusal.
      * intros Hauth Hcreator. apply String.eqb_eq in Hcreator.
        assert (Hgate : negb (includes (Group.admins g) (User.id u))
                        && negb (String.eqb (User.id u) memberId) = false).
        { destruct Hauth as [-> | ->]; [reflexivity|].
          rewrite String.eqb_refl. apply andb_false_r. }
        clear Hauth. unfold removeGroupMember. settle_refusal.
      * intros Hauth Hcreator. apply String.eqb_neq in Hcreator.
        assert (Hgate : negb (includes (Group.admins g) (User.id u))
                        && negb (String.eqb (User.id u) memberId) = false).
        { destruct Hauth as [-> | ->]; [reflexivity|].
          rewrite String.eqb_refl. apply andb_false_r. }
        clear Hauth. unfold removeGroupMember. settle_refusal.
        eexists _, _. split; reflexivity.
    + intros Hcreator. apply String.eqb_eq in Hcreator.
      unfold leaveGroup. settle_refusal.
    + intros Hcreator. apply String.eqb_neq in Hcreator.
      unfold leaveGroup. settle_refusal. eexists _, _. split; reflexivity.
    + intros Hcreator. apply String.eqb_neq in Hcreator.
      unfold deleteGroup. settle_refusal.
    + intros Hcreator. apply String.eqb_eq in Hcreator.
      unfold deleteGroup. settle_refusal. eexists _, _. split; reflexivity.
    + intros memberId. split; [|split].
      * intros Hadm. unfold makeGroupAdmin. settle_refusal.
      * intros Hadm Hmem. unfold makeGroupAdmin. settle_refusal.
      * intros Hadm Hmem. unfold makeGroupAdmin. settle_refusal.
        destruct (includes (Group.admins g) memberId); cbn [negb];
          eexists _, _; split; reflexivity.
    + intros n d i. split.
      * intros Hadm. unfold updateGroup. settle_refusal.
      * intros Hadm. unfold updateGroup. settle_refusal. eexists _, _. reflexivity.
    + intros content ty media replyTo newId now.
      destruct ctx as [cu]. cbn [user] in Hu. subst cu. split; [|split].
      * intros Hout. unfold sendGroupMessage. run. cbn [user].
        now rewrite Hg, Hout.
      * intros Hin Hbad.
        unfold sendGroupMessage. run. cbn [user]. rewrite Hg, Hin. cbn [negb].
        cbv beta match zeta.
        destruct (schema_refuses
                    {| new_group := groupId; new_sender := User.id u;
                       new_content := content; new_messageType := default "text" ty;
                       new_media := media; new_replyTo := replyTo |} newId now Hbad)
          as [msg Hmsg].
        rewrite Hmsg. exists msg. reflexivity.
      * intros Hin Hgid Huid Hmedia Hreply Htype Hfresh.
        unfold sendGroupMessage. run. cbn [user]. rewrite Hg, Hin. cbn [negb].
        cbv beta match zeta.
        assert (Hcast : groupMessageSchema_cast
                          {| new_group := groupId; new_sender := User.id u;
                             new_content := content;
                             new_messageType := default "text" ty;
                             new_media := media; new_replyTo := replyTo |} newId now
                        = Returned
                            (groupMessageSchema_document
                               {| new_group := groupId; new_sender := User.id u;
                                  new_content := content;
                                  new_messageType := default "text" ty;
                                  new_media := media; new_replyTo := replyTo |} newId now)).
        { apply schema_accepts. repeat split; assumption. }
        rewrite Hcast. cbn [GroupMessage._id groupMessageSchema_document].
        rewrite Hfresh. cbv beta match zeta. eexists _, _. reflexivity.
  - intros messageId now u Hu. split.
    + intros Hm. unfold markGroupMessageAsRead. settle_refusal.
    + intros m Hm. unfold markGroupMessageAsRead. settle_refusal.
      destruct (negb _); cbv beta match zeta; eexists _, _; reflexivity.
Qed.

Lemma failures_structured_or_thrown_witness :
  removeGroupMember gid1 u1 (as_user u2) (team_store 256)
  = (Returned {| success := false; message := "Only admins can remove members";
                 group := None |}, team_store 256)
  /\ leaveGroup gid1 (as_user u1) (team_store 256)
     = (Returned {| success := false;
                    message := "Group creator cannot leave. Transfer ownership first or delete the group.";
                    group := None |}, team_store 256)
  /\ updateGroup gid1 (Some "Crew") None None (as_user u2) (team_store 256)
     = (Thrown "Error updating group: Only admins can update group", team_store 256)
  /\ sendGroupMessage gid1 (Some "hi") None None None (as_user u3) "m1" 7%Z (team_store 256)
     = (Thrown "Error sending group message: You are not a member of this group",
        team_store 256)
  /\ markGroupMessageAsRead "m1" (as_user u2) 7%Z (team_store 256)
     = (Thrown "Error marking message as read: Message not found", team_store 256).
Proof.
  assert (Hother : u2 <> u1) by discriminate.
  destruct (@failures_structured_or_thrown sample_externals (team_store 256) (as_user u2)
              gid1)
    as (_ & _ & _ & _ & _ & _ & _ & Hgroup & Hmark).
  destruct (Hgroup {| User.id := u2; User.name := "" |} (team 256) eq_refl eq_refl)
    as (_ & Hremove & _ & _ & _ & _ & _ & Hupdate & _).
  destruct (@failures_structured_or_thrown sample_externals (team_store 256) (as_user u1)
              gid1)
    as (_ & _ & _ & _ & _ & _ & _ & Hcreator & _).
  destruct (Hcreator {| User.id := u1; User.name := "" |} (team 256) eq_refl eq_refl)
    as (_ & _ & Hleave & _).
  destruct (@failures_structured_or_thrown sample_externals (team_store 256) (as_user u3)
              gid1)
    as (_ & _ & _ & _ & _ & _ & _ & Houtsider & _).
  destruct (Houtsider {| User.id := u3; User.name := "" |} (team 256) eq_refl eq_refl)
    as (_ & _ & _ & _ & _ & _ & _ & _ & Hsend).
  split; [|split; [|split; [|split]]].
  - apply (proj1 (Hremove u1)); [reflexivity | exact Hother].
  - apply Hleave. reflexivity.
  - apply (proj1 (Hupdate (Some "Crew") None None)). reflexivity.
  - apply (proj1 (Hsend (Some "hi") None None None "m1" 7%Z)). reflexivity.
  - apply (proj1 (Hmark "m1" 7%Z {| User.id := u2; User.name := "" |} eq_refl)).
    reflexivity.
Defined.

(** C1 as stated fails: a non-admin's updateGroup is not answered with a
    structured result, the authorization failure is thrown. *)
Lemma updateGroup_failure_is_thrown :
  fst (updateGroup gid1 (Some "Crew") None None (as_user u2) (team_store 256))
  = Thrown "Error updating group: Only admins can update group"
  /\ ~ (exists v, fst (updateGroup gid1 (Some "Crew") None None (as_user u2) (team_store 256))
                  = Returned v).
Proof.
  split; [reflexivity|]. intros [v Hv]. vm_compute in Hv. discriminate.
Qed.

(** ** admins is a subset of members *)

Lemma set_of_In (l : list Id) (x : Id) : In x (set_of l) <-> In x l.
Proof.
  induction l as [|a l IH]; cbn; [tauto|].
  rewrite filter_In, IH. split.
  - intros [Ha | [Hx _]]; auto.
  - intros [Ha | Hx]; [now left|].
    destruct (String.eqb_spec x a) as [Heq | Hne]; [left; congruence|].
    right. split; [assumption | reflexivity].
Qed.

Lemma set_of_NoDup (l : list Id) : NoDup (set_of l).
Proof.
  induction l as [|a l IH]; cbn; constructor.
  - rewrite filter_In. intros [_ Hne]. rewrite String.eqb_refl in Hne. discriminate.
  - now apply NoDup_filter.
Qed.

Lemma admins_subset_filter (g : Group.t) (keep : Id -> bool) :
  admins_subset g ->
  admins_subset (Group.with_admins (Group.with_members g (filter keep (Group.members g)))
                                   (filter keep (Group.admins g))).
Proof.
  intros Hsub x Hx. cbn in *. apply filter_In in Hx. destruct Hx as [Hx Hk].
  apply filter_In. split; [now apply Hsub | assumption].
Qed.

Section AdminsSubset.
Context `{Externals}.
Variable st : Store.
Hypothesis Hinv : Forall admins_subset (groups st).

Lemma found_admins_subset gid g :
  find (fun x => String.eqb (Group._id x) gid) (groups st) = Some g -> admins_subset g.
Proof.
  intros Hf. apply find_In_groups in Hf. destruct Hf as [Hin _].
  rewrite Forall_forall in Hinv. now apply Hinv.
Qed.

Lemma save_admins_subset g :
  admins_subset g -> Forall admins_subset (groups (snd (Group_save g st))).
Proof.
  intros Hg. cbn.
  apply (Forall_map_replace admins_subset
           (fun x => String.eqb (Group._id x) (Group._id g)) (fun _ => g));
    auto.
Qed.

Lemma createGroup_admins_subset input ctx newId now :
  Forall admins_subset (groups (snd (createGroup input ctx newId now st))).
Proof.
  unfold createGroup. run.
  destruct (user ctx) as [u|]; [|exact Hinv].
  destruct (negb (truthy (Some (User.id u)))); [exact Hinv|].
  destruct (negb (truthy (in_name input)) || _); [exact Hinv|].
  destruct (in_members input) as [[|m ms]|]; [exact Hinv| |exact Hinv].
  destruct (0 <? _)%nat; [exact Hinv|].
  destruct (in_groupImage input) as [[url|]|]; cbn;
    try exact Hinv;
    (destruct (existsb _ (groups st)); cbn; [exact Hinv|];
     apply Forall_app; split; [exact Hinv|];
     constructor; [|constructor];
     intros x Hx; cbn in *; destruct Hx as [Hx|[]]; now left).
Qed.

Lemma sendGroupMessage_admins_subset gid content ty media replyTo ctx newId now :
  Forall admins_subset
    (groups (snd (sendGroupMessage gid content ty media replyTo ctx newId now st))).
Proof.
  destruct (sendGroupMessage_store gid content ty media replyTo ctx newId now st)
    as [Hsame | (u & m & _ & _ & _ & Hst)]; [now rewrite Hsame|].
  rewrite Hst. cbn [groups].
  apply (Forall_map_replace admins_subset
           (fun x => String.eqb (Group._id x) gid)
           (fun x => Group.with_lastMessage x _ now)); [exact Hinv|].
  intros x Hx _. rewrite Forall_forall in Hinv. exact (Hinv x Hx).
Qed.

Lemma addGroupMembers_admins_subset gid memberIds ctx :
  Forall admins_subset (groups (snd (addGroupMembers gid memberIds ctx st))).
Proof.
  unfold addGroupMembers. run.
  destruct (user ctx) as [u|]; [|exact Hinv].
  destruct (find _ (groups st)) as [g|] eqn:Hg; [|exact Hinv].
  destruct (negb (includes (Group.admins g) (User.id u))); [exact Hinv|].
  destruct (Z.ltb _ _); [exact Hinv|]. cbn.
  apply (Forall_map_replace admins_subset
           (fun x => String.eqb (Group._id x) (Group._id g)) (fun _ => _));
    [exact Hinv|].
  intros _ _ _ x Hx. cbn in *. apply in_or_app. left.
  now apply (found_admins_subset _ _ Hg).
Qed.

Lemma removeGroupMember_admins_subset gid memberId ctx :
  Forall admins_subset (groups (snd (removeGroupMember gid memberId ctx st))).
Proof.
  unfold removeGroupMember. run.
  destruct (user ctx) as [u|]; [|exact Hinv].
  destruct (find _ (groups st)) as [g|] eqn:Hg; [|exact Hinv].
  destruct (negb _ && negb _); [exact Hinv|].
  destruct (String.eqb (Group.createdBy g) memberId); [exact Hinv|]. cbn.
  apply (Forall_map_replace admins_subset
           (fun x => String.eqb (Group._id x) (Group._id g)) (fun _ => _));
    [exact Hinv|].
  intros _ _ _.
  apply (admins_subset_filter g (fun id => negb (String.eqb id memberId))).
  now apply (found_admins_subset _ _ Hg).
Qed.

Lemma leaveGroup_admins_subset gid ctx :
  Forall admins_subset (groups (snd (leaveGroup gid ctx st))).
Proof.
  unfold leaveGroup. run.
  destruct (user ctx) as [u|]; [|exact Hinv].
  destruct (find _ (groups st)) as [g|] eqn:Hg; [|exact Hinv].
  destruct (String.eqb (Group.createdBy g) (User.id u)); [exact Hinv|]. cbn.
  apply (Forall_map_replace admins_subset
           (fun x => String.eqb (Group._id x) (Group._id g)) (fun _ => _));
    [exact Hinv|].
  intros _ _ _.
  apply (admins_subset_filter g (fun id => negb (String.eqb id (User.id u)))).
  now apply (found_admins_subset _ _ Hg).
Qed.

Lemma updateGroup_admins_subset gid n d i ctx :
  Forall admins_subset (groups (snd (updateGroup gid n d i ctx st))).
Proof.
  unfold updateGroup. run.
  destruct (user ctx) as [u|]; [|exact Hinv].
  destruct (find _ (groups st)) as [g|]; [|exact Hinv].
  destruct (negb (includes (Group.admins g) (User.id u))); [exact Hinv|]. cbn.
  apply (Forall_map_replace admins_subset
           (fun x => String.eqb (Group._id x) gid)
           (fun x => Group.with_fields x n d i)); [exact Hinv|].
  intros x Hx _. rewrite Forall_forall in Hinv. exact (Hinv x Hx).
Qed.

Lemma deleteGroup_admins_subset gid ctx :
  Forall admins_subset (groups (snd (deleteGroup gid ctx st))).
Proof.
  unfold deleteGroup. run.
  destruct (user ctx) as [u|]; [|exact Hinv].
  destruct (find _ (groups st)) as [g|]; [|exact Hinv].
  destruct (negb (String.eqb (Group.createdBy g) (User.id u))); [exact Hinv|]. cbn.
  now apply Forall_kept.
Qed.

Lemma makeGroupAdmin_admins_subset gid memberId ctx :
  Forall admins_subset (groups (snd (makeGroupAdmin gid memberId ctx st))).
Proof.
  unfold makeGroupAdmin. run.
  destruct (user ctx) as [u|]; [|exact Hinv].
  destruct (find _ (groups st)) as [g|] eqn:Hg; [|exact Hinv].
  destruct (negb (includes (Group.admins g) (User.id u))); [exact Hinv|].
  destruct (includes (Group.members g) memberId) eqn:Hmem; [|exact Hinv].
  destruct (negb (includes (Group.admins g) memberId)); [|exact Hinv]. cbn.
  apply (Forall_map_replace admins_subset
           (fun x => String.eqb (Group._id x) (Group._id g)) (fun _ => _));
    [exact Hinv|].
  intros _ _ _ x Hx. cbn in *. apply in_app_or in Hx. destruct Hx as [Hx | [Hx | []]].
  - now apply (found_admins_subset _ _ Hg).
  - subst x. now apply includes_In.
Qed.

Lemma markGroupMessageAsRead_groups mid ctx now :
  groups (snd (markGroupMessageAsRead mid ctx now st)) = groups st.
Proof.
  unfold markGroupMessageAsRead. run.
  destruct (user ctx) as [u|]; [|reflexivity].
  destruct (find _ (groupMessages st)) as [m|]; [|reflexivity].
  destruct (negb _); reflexivity.
Qed.
End AdminsSubset.

(** C4: when every group of the store has its admins among its members, the
    store left by any mutation (createGroup, sendGroupMessage,
    addGroupMembers, removeGroupMember, leaveGroup, updateGroup, deleteGroup,
    makeGroupAdmin, markGroupMessageAsRead) has the same property for every
    group it still holds, the created one included. *)
Theorem admins_subset_preserved `{Externals} (st st' : Store) :
  step st st' ->
  Forall admins_subset (groups st) ->
  Forall admins_subset (groups st').
Proof.
  intros Hstep Hinv. destruct Hstep.
  - now apply createGroup_admins_subset.
  - now apply sendGroupMessage_admins_subset.
  - now apply addGroupMembers_admins_subset.
  - now apply removeGroupMember_admins_subset.
  - now apply leaveGroup_admins_subset.
  - now apply updateGroup_admins_subset.
  - now apply deleteGroup_admins_subset.
  - now apply makeGroupAdmin_admins_subset.
  - now rewrite markGroupMessageAsRead_groups.
Qed.

Lemma admins_subset_preserved_witness :
  Forall admins_subset (groups (team_store 256))
  /\ Forall admins_subset
       (groups (snd (makeGroupAdmin gid1 u2 (as_user u1) (team_store 256)))).
Proof.
  assert (Hteam : Forall admins_subset (groups (team_store 256))).
  { constructor; [|constructor]. intros x Hx. cbn in *. destruct Hx as [Hx | []]. now left. }
  split; [exact Hteam|].
  apply (admins_subset_preserved (team_store 256)); [apply step_makeGroupAdmin | exact Hteam].
Defined.

(** ** Removing members and leaving *)

Lemma find_after_save (gid k : Id) (l : list Group.t) (g g' : Group.t) :
  find (fun x => String.eqb (Group._id x) gid) l = Some g ->
  k = gid ->
  Group._id g' = gid ->
  find (fun x => String.eqb (Group._id x) gid)
       (map (fun x => if String.eqb (Group._id x) k then g' else x) l)
  = Some g'.
Proof.
  intros Hf Hk Hid. subst k.
  induction l as [|a l IH]; cbn in *; [discriminate|].
  destruct (String.eqb (Group._id a) gid) eqn:Ha; cbn.
  - now rewrite Hid, String.eqb_refl.
  - rewrite Ha. now apply IH.
Qed.

Ltac rewrite_find_after_save Hfound Hid :=
  match goal with
  | |- context [map (fun x => if String.eqb (Group._id x) ?k then ?g' else x) (groups ?st)] =>
      rewrite (find_after_save _ k (groups st) _ g' Hfound Hid Hid)
  end.

Section Removal.
Context `{Externals}.
Variables (st : Store) (groupId : Id) (u : User.t) (g : Group.t).
Let ctx : Context := {| user := Some u |}.
Hypothesis Hfound :
  find (fun x => String.eqb (Group._id x) groupId) (groups st) = Some g.

Lemma removeGroupMember_creator :
  removeGroupMember groupId (Group.createdBy g) ctx st
  = (Returned
       (failure (if includes (Group.admins g) (User.id u)
                    || String.eqb (User.id u) (Group.createdBy g)
                 then "Cannot remove group creator"
                 else "Only admins can remove members")),
     st).
Proof.
  unfold removeGroupMember. run. cbn. rewrite Hfound.
  destruct (includes (Group.admins g) (User.id u)); cbn.
  - now rewrite String.eqb_refl.
  - destruct (String.eqb (User.id u) (Group.createdBy g)); cbn; [|reflexivity].
    now rewrite String.eqb_refl.
Qed.

Lemma leaveGroup_creator :
  Group.createdBy g = User.id u ->
  leaveGroup groupId ctx st
  = (Returned
       (failure "Group creator cannot leave. Transfer ownership first or delete the group."),
     st).
Proof.
  intros Hc. unfold leaveGroup. run. cbn. rewrite Hfound, Hc, String.eqb_refl.
  reflexivity.
Qed.

Lemma removeGroupMember_success memberId r st' :
  removeGroupMember groupId memberId ctx st = (Returned r, st') ->
  success r = true ->
  (includes (Group.admins g) (User.id u) = true \/ User.id u = memberId)
  /\ Group.createdBy g <> memberId
  /\ exists g',
      group r = Some g'
      /\ find (fun x => String.eqb (Group._id x) groupId) (groups st') = Some g'
      /\ Group.members g' = filter (fun id => negb (String.eqb id memberId)) (Group.members g)
      /\ Group.admins g' = filter (fun id => negb (String.eqb id memberId)) (Group.admins g)
      /\ ~ In memberId (Group.members g')
      /\ ~ In memberId (Group.admins g').
Proof.
  unfold removeGroupMember. run. cbn. rewrite Hfound.
  pose proof (find_In_groups _ _ _ Hfound) as [_ Hid].
  destruct (includes (Group.admins g) (User.id u)) eqn:Hadm;
    destruct (String.eqb_spec (User.id u) memberId) as [Hself | Hself]; cbn;
    try (intros Heq; inversion Heq; subst; cbn; discriminate);
    (destruct (String.eqb_spec (Group.createdBy g) memberId) as [Hc | Hc]; cbn;
     [intros Heq; inversion Heq; subst; cbn; discriminate|]);
    (rewrite_find_after_save Hfound Hid;
     intros Heq _; inversion Heq; subst r st'; clear Heq; cbn;
     (split; [auto|]); (split; [assumption|]);
     eexists; split; [reflexivity|];
     (split; [rewrite_find_after_save Hfound Hid; reflexivity|]);
     cbn; (split; [reflexivity|]); (split; [reflexivity|]);
     split; rewrite filter_In; intros [_ Hne];
     rewrite String.eqb_refl in Hne; discriminate).
Qed.
End Removal.

(** C5, as the code has it: on an existing group, removeGroupMember aimed
    at the creator fails and leaves the store unchanged, with the invariant
    error "Cannot remove group creator" when the actor is an admin or the
    creator, and with the authorization error "Only admins can remove
    members" otherwise (the authorization check comes first); leaveGroup by
    the creator fails and leaves the store unchanged.  removeGroupMember
    succeeds only when the actor is an admin or is [memberId], never for the
    creator, and on success the stored group has [memberId] filtered out of
    both members and admins. *)
Theorem creator_removal_refused `{Externals}
    (st : Store) (groupId : Id) (u : User.t) (g : Group.t) :
  find (fun x => String.eqb (Group._id x) groupId) (groups st) = Some g ->
  removeGroupMember groupId (Group.createdBy g) {| user := Some u |} st
  = (Returned
       (failure (if includes (Group.admins g) (User.id u)
                    || String.eqb (User.id u) (Group.createdBy g)
                 then "Cannot remove group creator"
                 else "Only admins can remove members")),
     st)
  /\ (Group.createdBy g = User.id u ->
      leaveGroup groupId {| user := Some u |} st
      = (Returned
           (failure "Group creator cannot leave. Transfer ownership first or delete the group."),
         st))
  /\ (forall memberId r st',
      removeGroupMember groupId memberId {| user := Some u |} st = (Returned r, st') ->
      success r = true ->
      (includes (Group.admins g) (User.id u) = true \/ User.id u = memberId)
      /\ Group.createdBy g <> memberId
      /\ exists g',
          group r = Some g'
          /\ find (fun x => String.eqb (Group._id x) groupId) (groups st') = Some g'
          /\ Group.members g'
             = filter (fun id => negb (String.eqb id memberId)) (Group.members g)
          /\ Group.admins g'
             = filter (fun id => negb (String.eqb id memberId)) (Group.admins g)
          /\ ~ In memberId (Group.members g')
          /\ ~ In memberId (Group.admins g')).
Proof.
  intros Hfound. split; [|split].
  - now apply removeGroupMember_creator.
  - now apply leaveGroup_creator.
  - intros memberId r st'. now apply removeGroupMember_success.
Qed.

Lemma creator_removal_refused_witness :
  removeGroupMember gid1 u1 (as_user u1) (team_store 256)
  = (Returned (failure "Cannot remove group creator"), team_store 256)
  /\ leaveGroup gid1 (as_user u1) (team_store 256)
     = (Returned
          (failure "Group creator cannot leave. Transfer ownership first or delete the group."),
        team_store 256).
Proof.
  destruct (creator_removal_refused (team_store 256) gid1
              {| User.id := u1; User.name := "" |} (team 256) eq_refl)
    as (Hremove & Hleave & _).
  split; [exact Hremove | exact (Hleave eq_refl)].
Defined.

(** C5 as stated fails: [u2], a member who is not an admin, asks to remove
    the creator [u1]; the request fails, but with the authorization error,
    not with the invariant error. *)
Lemma creator_removal_by_member_is_authorization_error :
  Group.createdBy (team 256) = u1
  /\ removeGroupMember gid1 u1 (as_user u2) (team_store 256)
     = (Returned (failure "Only admins can remove members"), team_store 256)
  /\ fst (removeGroupMember gid1 u1 (as_user u2) (team_store 256))
     <> Returned (failure "Cannot remove group creator").
Proof.
  split; [reflexivity|]. split; [reflexivity|]. vm_compute. discriminate.
Qed.

(** ** Adding members *)

Section Adding.
Context `{Externals}.
Variables (st : Store) (groupId : Id) (u : User.t) (g : Group.t).
Variable memberIds : list Id.
Let ctx : Context := {| user := Some u |}.
Hypothesis Hfound :
  find (fun x => String.eqb (Group._id x) groupId) (groups st) = Some g.
Hypothesis Hadmin : includes (Group.admins g) (User.id u) = true.

Let requested : Z :=
  Z.of_nat (List.length (Group.members g) + List.length memberIds).
Let uniqueNewMembers : list Id :=
  filter (fun id => negb (includes (Group.members g) id)) memberIds.

Lemma addGroupMembers_over_capacity :
  (Group.maxMembers g < requested)%Z ->
  addGroupMembers groupId memberIds ctx st
  = (Returned (failure ("Cannot exceed maximum members limit of "
                          ++ string_of_Z (Group.maxMembers g))),
     st).
Proof.
  intros Hover. unfold addGroupMembers. run. cbn. rewrite Hfound, Hadmin. cbn.
  apply Z.ltb_lt in Hover. unfold requested in Hover. rewrite Hover. reflexivity.
Qed.

Lemma addGroupMembers_within_capacity :
  (requested <= Group.maxMembers g)%Z ->
  let g' := Group.with_members g (Group.members g ++ uniqueNewMembers) in
  exists st',
    addGroupMembers groupId memberIds ctx st
    = (Returned {| success := true;
                   message := string_of_nat (List.length uniqueNewMembers)
                                ++ " members added successfully";
                   group := Some g' |},
       st')
    /\ find (fun x => String.eqb (Group._id x) groupId) (groups st') = Some g'
    /\ (Z.of_nat (List.length (Group.members g')) <= Group.maxMembers g')%Z.
Proof.
  intros Hfit g'. unfold addGroupMembers. run. cbn. rewrite Hfound, Hadmin. cbn.
  apply Z.ltb_ge in Hfit. unfold requested in Hfit. rewrite Hfit. cbn.
  pose proof (find_In_groups _ _ _ Hfound) as [_ Hid].
  rewrite_find_after_save Hfound Hid.
  eexists. split; [reflexivity|]. cbn. split.
  - rewrite_find_after_save Hfound Hid. reflexivity.
  - apply Z.ltb_ge in Hfit. rewrite length_app.
    pose proof (filter_length_le (fun id => negb (includes (Group.members g) id)) memberIds).
    unfold uniqueNewMembers. lia.
Qed.
End Adding.

(** The capacity rule of addGroupMembers as implemented: for an admin actor
    on an existing group, the request fails with the capacity error exactly when
    [|members| + |memberIds|] (the requested identifiers counted before the
    ones already present are dropped) exceeds [maxMembers], leaving the store
    unchanged; otherwise it succeeds, appends to the members exactly the
    identifiers of [memberIds] that were not members, in order, and the
    stored group has [|members| <= maxMembers]. *)
Theorem addGroupMembers_capacity `{Externals}
    (st : Store) (groupId : Id) (u : User.t) (g : Group.t) (memberIds : list Id) :
  find (fun x => String.eqb (Group._id x) groupId) (groups st) = Some g ->
  includes (Group.admins g) (User.id u) = true ->
  let requested := Z.of_nat (List.length (Group.members g) + List.length memberIds) in
  let uniqueNewMembers :=
    filter (fun id => negb (includes (Group.members g) id)) memberIds in
  let g' := Group.with_members g (Group.members g ++ uniqueNewMembers) in
  ((Group.maxMembers g < requested)%Z ->
   addGroupMembers groupId memberIds {| user := Some u |} st
   = (Returned (failure ("Cannot exceed maximum members limit of "
                           ++ string_of_Z (Group.maxMembers g))),
      st))
  /\ ((requested <= Group.maxMembers g)%Z ->
      exists st',
        addGroupMembers groupId memberIds {| user := Some u |} st
        = (Returned {| success := true;
                       message := string_of_nat (List.length uniqueNewMembers)
                                    ++ " members added successfully";
                       group := Some g' |},
           st')
        /\ find (fun x => String.eqb (Group._id x) groupId) (groups st') = Some g'
        /\ (Z.of_nat (List.length (Group.members g')) <= Group.maxMembers g')%Z).
Proof.
  intros Hfound Hadmin requested uniqueNewMembers g'. split.
  - now apply addGroupMembers_over_capacity.
  - now apply addGroupMembers_within_capacity.
Qed.

Lemma addGroupMembers_capacity_witness :
  addGroupMembers gid1 [u3] (as_user u1) (team_store 2)
  = (Returned (failure "Cannot exceed maximum members limit of 2"), team_store 2)
  /\ exists st',
      addGroupMembers gid1 [u2; u3] (as_user u1) (team_store 256)
      = (Returned {| success := true;
                     message := "1 members added successfully";
                     group := Some (Group.with_members (team 256) [u1; u2; u3]) |},
         st')
      /\ find (fun x => String.eqb (Group._id x) gid1) (groups st')
         = Some (Group.with_members (team 256) [u1; u2; u3])
      /\ (3 <= 256)%Z.
Proof.
  split.
  - apply (proj1 (addGroupMembers_capacity (team_store 2) gid1
                    {| User.id := u1; User.name := "" |} (team 2) [u3]
                    eq_refl eq_refl)).
    reflexivity.
  - apply (proj2 (addGroupMembers_capacity (team_store 256) gid1
                    {| User.id := u1; User.name := "" |} (team 256) [u2; u3]
                    eq_refl eq_refl)).
    discriminate.
Defined.

(** C2 at a full group: the team has 2 members of at most 2 and its admin
    asks to add [u2], who is a member already.  The resulting member count
    would be 2, within the limit, yet addGroupMembers refuses the request
    with the capacity error: the limit is checked on the requested
    identifiers before the ones already present are dropped. *)
Lemma addGroupMembers_refuses_duplicates_at_capacity :
  let g := team 2 in
  let resulting :=
    (Group.members g ++ filter (fun id => negb (includes (Group.members g) id)) [u2])%list in
  (Z.of_nat (List.length resulting) <= Group.maxMembers g)%Z
  /\ addGroupMembers gid1 [u2] (as_user u1) (team_store 2)
     = (Returned (failure "Cannot exceed maximum members limit of 2"), team_store 2).
Proof.
  split; [vm_compute; discriminate | reflexivity].
Qed.

(** ** Listing messages *)

Lemma insert_desc_perm (m : GroupMessage.t) (l : list GroupMessage.t) :
  Permutation (insert_desc m l) (m :: l).
Proof.
  induction l as [|x r IH]; cbn; [reflexivity|].
  destruct (Z.leb _ _); [reflexivity|].
  rewrite IH. apply perm_swap.
Qed.

Lemma sort_createdAt_desc_perm (l : list GroupMessage.t) :
  Permutation (sort_createdAt_desc l) l.
Proof.
  induction l as [|m r IH]; cbn; [reflexivity|].
  rewrite insert_desc_perm. now constructor.
Qed.

Lemma insert_desc_sorted (m : GroupMessage.t) (l : list GroupMessage.t) :
  StronglySorted not_older l -> StronglySorted not_older (insert_desc m l).
Proof.
  induction 1 as [|x r Hr IH Hx]; cbn.
  - constructor; constructor.
  - destruct (Z.leb_spec (GroupMessage.createdAt x) (GroupMessage.createdAt m)) as [Hle | Hlt].
    + constructor; [now constructor|].
      constructor; [exact Hle|].
      eapply Forall_impl; [|exact Hx]. unfold not_older. intros y Hy. lia.
    + constructor; [exact IH|].
      rewrite Forall_forall in *. intros y Hy.
      apply (Permutation_in _ (insert_desc_perm m r)) in Hy.
      destruct Hy as [<- | Hy]; [unfold not_older; lia | now apply Hx].
Qed.

Lemma sort_createdAt_desc_sorted (l : list GroupMessage.t) :
  StronglySorted not_older (sort_createdAt_desc l).
Proof.
  induction l as [|m r IH]; cbn; [constructor | now apply insert_desc_sorted].
Qed.

Lemma StronglySorted_app_inv {A} (R : A -> A -> Prop) (l1 l2 : list A) :
  StronglySorted R (l1 ++ l2) ->
  StronglySorted R l1 /\ StronglySorted R l2
  /\ (forall x y, In x l1 -> In y l2 -> R x y).
Proof.
  induction l1 as [|a l1 IH]; cbn; intros Hs.
  - repeat split; [constructor | assumption | intros x y []].
  - apply StronglySorted_inv in Hs. destruct Hs as [Hs Ha].
    destruct (IH Hs) as (H1 & H2 & H12).
    rewrite Forall_app in Ha. destruct Ha as [Ha1 Ha2].
    repeat split; [now constructor | assumption|].
    intros x y [<- | Hx] Hy; [|now apply H12].
    rewrite Forall_forall in Ha2. now apply Ha2.
Qed.

Lemma StronglySorted_rev (l : list GroupMessage.t) :
  StronglySorted not_older l -> StronglySorted not_newer (rev l).
Proof.
  induction 1 as [|x r Hr IH Hx]; cbn; [constructor|].
  assert (Hgen : forall l', StronglySorted not_newer l' ->
                            Forall (fun y => not_newer y x) l' ->
                            StronglySorted not_newer (l' ++ [x])).
  { induction 1 as [|y l' Hl' IHl' Hy]; cbn; intros Hall.
    - constructor; constructor.
    - apply Forall_cons_iff in Hall. destruct Hall as [Hyx Hall].
      constructor; [now apply IHl'|].
      apply Forall_app. split; [assumption | now constructor]. }
  apply Hgen; [assumption|].
  apply Forall_rev. eapply Forall_impl; [|exact Hx]. now unfold not_older, not_newer.
Qed.

Lemma cursor_limit_split {A} (n : nat) (l : list A) :
  exists rest, l = (cursor_limit n l ++ rest)%list
               /\ (n <> 0 -> List.length (cursor_limit n l) = Nat.min n (List.length l)).
Proof.
  destruct n as [|n].
  - exists []. cbn. split; [now rewrite app_nil_r | congruence].
  - exists (skipn (S n) l). unfold cursor_limit. split.
    + symmetry. apply firstn_skipn.
    + intros _. apply length_firstn.
Qed.

(** C3: getGroupMessages returns (it does not throw, and the store is left
    as it was) only stored messages of the group whose soft-delete flag is
    false, oldest to newest; the page is cut from the newest-first listing of
    those messages: the [offset] most recent ones are skipped, everything
    left out is either at least as recent as the whole page (skipped) or at
    least as old (beyond the limit), and a non-zero [limit] bounds the page.
    On the group with messages M1 (oldest) to M5 (newest), with limit 2 and
    offset 0, the answer is [M4, M5]. *)
Theorem getGroupMessages_page
    (st : Store) (groupId : Id) (limit offset : option nat) (ctx : Context) :
  (exists page,
      getGroupMessages groupId limit offset ctx st = (Returned page, st)
      /\ Forall (fun m => In m (groupMessages st)
                          /\ GroupMessage.group m = groupId
                          /\ GroupMessage.isDeleted m = false) page
      /\ StronglySorted not_newer page
      /\ exists newer older,
          Permutation (filter (group_query groupId) (groupMessages st))
                      (newer ++ rev page ++ older)
          /\ List.length newer
             = Nat.min (default 0 offset)
                       (List.length (filter (group_query groupId) (groupMessages st)))
          /\ (forall n m, In n newer -> In m page -> not_newer m n)
          /\ (forall o m, In o older -> In m page -> not_newer o m)
          /\ (default 50 limit <> 0 ->
              List.length page
              = Nat.min (default 50 limit)
                  (List.length (filter (group_query groupId) (groupMessages st))
                   - default 0 offset)))
  /\ getGroupMessages gid1 (Some 2) (Some 0) anonymous five_messages
     = (Returned [M4; M5], five_messages).
Proof.
  split; [|reflexivity].
  set (lim := default 50 limit). set (off := default 0 offset).
  set (matching := filter (group_query groupId) (groupMessages st)).
  set (listing := sort_createdAt_desc matching).
  pose proof (sort_createdAt_desc_perm matching) as Hperm. fold listing in Hperm.
  pose proof (sort_createdAt_desc_sorted matching) as Hsorted. fold listing in Hsorted.
  destruct (cursor_limit_split lim (skipn off listing)) as [older [Hsplit Hlen]].
  set (page_desc := cursor_limit lim (skipn off listing)) in *.
  assert (Hlisting : listing = (firstn off listing ++ page_desc ++ older)%list).
  { rewrite <- Hsplit. symmetry. apply firstn_skipn. }
  exists (rev page_desc). split; [reflexivity|].
  rewrite Hlisting in Hsorted.
  apply StronglySorted_app_inv in Hsorted. destruct Hsorted as (_ & Htail & Hnewer).
  apply StronglySorted_app_inv in Htail. destruct Htail as (Hpage & _ & Holder).
  split; [|split].
  - apply Forall_forall. intros m Hm. apply in_rev in Hm.
    assert (Hin : In m matching).
    { apply (Permutation_in _ Hperm). rewrite Hlisting.
      apply in_or_app. right. apply in_or_app. now left. }
    apply filter_In in Hin. destruct Hin as [Hin Hq].
    unfold group_query in Hq. apply andb_true_iff in Hq. destruct Hq as [Hg Hd].
    apply String.eqb_eq in Hg. apply negb_true_iff in Hd. now repeat split.
  - now apply StronglySorted_rev.
  - exists (firstn off listing), older. rewrite rev_involutive.
    split; [|split; [|split; [|split]]].
    + rewrite <- Hlisting. now symmetry.
    + rewrite length_firstn. now rewrite (Permutation_length Hperm).
    + intros n m Hn Hm. apply in_rev in Hm.
      apply (Hnewer n m Hn). apply in_or_app. now left.
    + intros o m Ho Hm. apply in_rev in Hm. exact (Holder m o Hm Ho).
    + intros Hlim. rewrite length_rev, (Hlen Hlim), length_skipn.
      now rewrite (Permutation_length Hperm).
Qed.

(** C10: getGroupMessages never consults the caller or the groups: the
    answer is the same for every request context, an absent user included,
    and for every groups collection (whatever the group's privacy flag and
    member list); it is always a returned page, never an authorization
    failure.  A caller without identity reads both messages of a private
    group of which only [u3] is a member. *)
Theorem getGroupMessages_ignores_caller
    (messages : list GroupMessage.t) (gs gs' : list Group.t)
    (groupId : Id) (limit offset : option nat) (ctx ctx' : Context) :
  fst (getGroupMessages groupId limit offset ctx
         {| groups := gs; groupMessages := messages |})
  = fst (getGroupMessages groupId limit offset ctx'
           {| groups := gs'; groupMessages := messages |})
  /\ fst (getGroupMessages groupId limit offset {| user := None |}
            {| groups := gs; groupMessages := messages |})
     = Returned
         (rev (cursor_limit (default 50 limit)
                 (cursor_skip (default 0 offset)
                    (sort_createdAt_desc (filter (group_query groupId) messages)))))
  /\ getGroupMessages gid1 None None anonymous private_store
     = (Returned [M1; M2], private_store).
Proof.
  repeat split.
Qed.

(** ** Searching groups *)

(** C9, as the code has it: for a query that is a valid pattern,
    searchGroups returns (it does not throw) only stored groups whose privacy
    flag is false and whose name or description passes the case-insensitive
    pattern test, so no private group is ever returned; the answer has at
    most [limit] groups (default 10) when [limit] is not 0, and is then the
    first [limit] public matching groups in stored order; with [limit] 0 the
    store applies no limit and the answer is every public matching group. *)
Theorem searchGroups_public_matching `{Externals}
    (st : Store) (query : string) (limit : option nat) (ctx : Context)
    (test : string -> bool) :
  regex_compile_i query = Some test ->
  exists found,
    searchGroups query limit ctx st = (Returned found, st)
    /\ Forall (fun g => In g (groups st)
                        /\ Group.isPrivate g = false
                        /\ (test (Group.name g) = true
                            \/ test (Group.description g) = true)) found
    /\ (forall g, Group.isPrivate g = true -> ~ In g found)
    /\ (default 10 limit <> 0 -> List.length found <= default 10 limit)
    /\ (default 10 limit <> 0 ->
        found = firstn (default 10 limit)
                  (filter (fun g => negb (Group.isPrivate g)
                                    && (test (Group.name g) || test (Group.description g)))
                          (groups st)))
    /\ (default 10 limit = 0 ->
        found = filter (fun g => negb (Group.isPrivate g)
                                 && (test (Group.name g) || test (Group.description g)))
                       (groups st))
    /\ (default 10 limit = 0 ->
        forall g, In g (groups st) ->
                  Group.isPrivate g = false ->
                  test (Group.name g) = true \/ test (Group.description g) = true ->
                  In g found).
Proof.
  intros Hpattern. unfold searchGroups. run. rewrite Hpattern.
  set (matching := filter _ (groups st)).
  exists (cursor_limit (default 10 limit) matching).
  destruct (cursor_limit_split (default 10 limit) matching) as [rest [Hsplit Hlen]].
  assert (Hall : forall g, In g (cursor_limit (default 10 limit) matching) ->
                           In g (groups st)
                           /\ Group.isPrivate g = false
                           /\ (test (Group.name g) = true
                               \/ test (Group.description g) = true)).
  { intros g Hg.
    assert (Hin : In g matching) by (rewrite Hsplit; apply in_or_app; now left).
    apply filter_In in Hin. destruct Hin as [Hin Hq].
    apply andb_true_iff in Hq. destruct Hq as [Hpub Hmatch].
    apply negb_true_iff in Hpub. apply orb_true_iff in Hmatch. now repeat split. }
  split; [reflexivity|]. split; [|split; [|split; [|split; [|split]]]].
  - apply Forall_forall. exact Hall.
  - intros g Hpriv Hg. destruct (Hall g Hg) as (_ & Hpub & _). congruence.
  - intros Hlim. rewrite (Hlen Hlim). apply Nat.le_min_l.
  - intros Hlim. unfold cursor_limit.
    destruct (default 10 limit); [congruence | reflexivity].
  - intros Hzero. now rewrite Hzero.
  - intros Hzero g Hin Hpub Hmatch. rewrite Hzero. cbn [cursor_limit].
    apply filter_In. split; [exact Hin|].
    rewrite Hpub. cbn [negb andb]. now apply orb_true_iff.
Qed.

Lemma searchGroups_public_matching_witness :
  exists found,
    searchGroups "TEAM" (Some 1) anonymous
      {| groups := [team 256; crew]; groupMessages := [] |}
    = (Returned found, {| groups := [team 256; crew]; groupMessages := [] |})
    /\ List.length found <= 1.
Proof.
  destruct (@searchGroups_public_matching sample_externals
              {| groups := [team 256; crew]; groupMessages := [] |}
              "TEAM" (Some 1) anonymous (contains_i "TEAM") eq_refl)
    as (found & Heq & _ & _ & Hlen & _).
  exists found. split; [exact Heq|]. apply Hlen. discriminate.
Defined.

(** C9 as stated fails on the bound: with [limit = 0] the store applies no
    limit, and both matching public groups are returned. *)
Lemma searchGroups_limit_zero_is_unbounded :
  searchGroups "TEAM" (Some 0) anonymous
    {| groups := [team 256; crew]; groupMessages := [] |}
  = (Returned [team 256; crew], {| groups := [team 256; crew]; groupMessages := [] |})
  /\ ~ (List.length [team 256; crew] <= 0).
Proof.
  split; [reflexivity | cbn; lia].
Qed.

(** ** Creating a group *)

Lemma trim_blank_length (s : string) :
  (String.length s =? 0)%nat = true <-> s = "".
Proof.
  destruct s; cbn; split; congruence.
Qed.

Lemma find_appended {A} (sel : A -> bool) (l : list A) (a : A) :
  existsb sel l = false ->
  sel a = true ->
  find sel (l ++ [a]) = Some a.
Proof.
  intros Hfresh Ha. induction l as [|b l IH]; cbn in *.
  - now rewrite Ha.
  - apply orb_false_iff in Hfresh. destruct Hfresh as [Hb Hl].
    rewrite Hb. now apply IH.
Qed.

Lemma no_invalid_members `{Externals} (ms : list Id) :
  (0 <? List.length (filter (fun id => negb (ObjectId_isValid id)) ms))%nat = false
  <-> forall x, In x ms -> ObjectId_isValid x = true.
Proof.
  induction ms as [|a ms IH]; cbn.
  - split; [intros _ x [] | reflexivity].
  - destruct (ObjectId_isValid a) eqn:Ha; cbn.
    + rewrite IH. split.
      * intros Hall x [<- | Hx]; auto.
      * intros Hall x Hx. apply Hall. now right.
    + split; [discriminate|]. intros Hall.
      specialize (Hall a (or_introl eq_refl)). congruence.
Qed.

Section Creation.
Context `{Externals}.
Variables (st : Store) (input : CreateGroupInput) (u : User.t) (newId : Id) (now : Z).
Let ctx : Context := {| user := Some u |}.
Hypothesis Hauthenticated : User.id u <> "".

Lemma createGroup_valid n ms :
  in_name input = Some n ->
  n <> "" ->
  js_trim n <> "" ->
  in_members input = Some ms ->
  ms <> [] ->
  (forall x, In x ms -> ObjectId_isValid x = true) ->
  in_groupImage input <> Some UploadFailed ->
  existsb (fun x => String.eqb (Group._id x) newId) (groups st) = false ->
  exists g,
    createGroup input ctx newId now st
    = (Returned (Some g),
       {| groups := groups st ++ [g]; groupMessages := groupMessages st |})
    /\ Group.members g = set_of (User.id u :: ms)
    /\ Group.admins g = [User.id u]
    /\ Group.createdBy g = User.id u.
Proof.
  intros Hname Hnamed Htrim Hmembers Hnonempty Hvalid Himage Hfresh.
  assert (Hid : negb (truthy (Some (User.id u))) = false)
    by (destruct (User.id u); [congruence | reflexivity]).
  assert (Hblank : negb (truthy (in_name input))
                   || (String.length (js_trim (default "" (in_name input))) =? 0)%nat
                   = false).
  { rewrite Hname. cbn [default]. apply orb_false_iff. split.
    - destruct n; [congruence | reflexivity].
    - destruct (String.length (js_trim n) =? 0)%nat eqn:Hlen; [|reflexivity].
      apply trim_blank_length in Hlen. congruence. }
  apply no_invalid_members in Hvalid.
  unfold createGroup. run. unfold ctx. cbn [user].
  rewrite Hid. cbv beta match zeta.
  rewrite Hblank. cbv beta match zeta.
  rewrite Hmembers. destruct ms as [|m ms']; [congruence|].
  rewrite Hvalid. cbv beta match zeta.
  destruct (in_groupImage input) as [[url|]|]; try congruence;
    cbn [Group._id]; rewrite Hfresh; cbv beta match zeta; cbn [groups Group._id];
    (rewrite find_appended; [|exact Hfresh|apply String.eqb_refl]);
    eexists; (split; [reflexivity|]); cbn; now repeat split.
Qed.

Lemma createGroup_invalid :
  (match in_name input with None => True | Some n => n = "" \/ js_trim n = "" end)
  \/ (in_members input = None \/ in_members input = Some [])
  \/ (exists ms x, in_members input = Some ms /\ In x ms /\ ObjectId_isValid x = false) ->
  exists msg,
    In msg validation_messages
    /\ createGroup input ctx newId now st = (Thrown ("Error creating group: " ++ msg), st).
Proof.
  intros Hbad.
  assert (Hid : negb (truthy (Some (User.id u))) = false)
    by (destruct (User.id u); [congruence | reflexivity]).
  unfold createGroup, validation_messages. run. unfold ctx. cbn [user].
  rewrite Hid. cbv beta match zeta.
  destruct (negb (truthy (in_name input))
            || (String.length (js_trim (default "" (in_name input))) =? 0)%nat) eqn:Hblank;
    cbv beta match zeta.
  { eexists. split; [|reflexivity]. now left. }
  destruct (in_members input) as [[|m ms']|] eqn:Hmembers; cbv beta match zeta;
    try (eexists; split; [|reflexivity]; right; now left).
  destruct (0 <? List.length (filter (fun id => negb (ObjectId_isValid id)) (m :: ms')))%nat
    eqn:Hinvalid; cbv beta match zeta.
  { eexists. split; [|reflexivity]. right; right; now left. }
  exfalso. apply orb_false_iff in Hblank. destruct Hblank as [Htruthy Hlen].
  destruct Hbad as [Hbad | [[Hbad | Hbad] | (ms & x & Hms & Hx & Hbad)]];
    try discriminate.
  - destruct (in_name input) as [n|]; [|discriminate]. cbn [default] in Hlen.
    destruct Hbad as [-> | Hbad]; [discriminate|].
    apply trim_blank_length in Hbad. congruence.
  - inversion Hms; subst ms. clear Hms.
    rewrite (proj1 (no_invalid_members (m :: ms')) Hinvalid x Hx) in Hbad.
    discriminate.
Qed.
End Creation.

(** C6: for an authenticated creator, a request with a name that is not
    blank after trimming, a non-empty list of well-formed member identifiers,
    no failed image upload and a fresh identifier creates and returns a group
    whose members are the creator followed by the supplied members, each
    once (the deduplicated union), whose admins are exactly the creator and
    whose [createdBy] is the creator.  A blank or missing name, a missing or
    empty member list, or a malformed member identifier makes createGroup
    throw one of the validation errors and leaves the store unchanged. *)
Theorem createGroup_members `{Externals}
    (st : Store) (input : CreateGroupInput) (u : User.t) (newId : Id) (now : Z) :
  User.id u <> "" ->
  (forall n ms,
      in_name input = Some n ->
      n <> "" ->
      js_trim n <> "" ->
      in_members input = Some ms ->
      ms <> [] ->
      (forall x, In x ms -> ObjectId_isValid x = true) ->
      in_groupImage input <> Some UploadFailed ->
      existsb (fun x => String.eqb (Group._id x) newId) (groups st) = false ->
      exists g,
        createGroup input {| user := Some u |} newId now st
        = (Returned (Some g),
           {| groups := groups st ++ [g]; groupMessages := groupMessages st |})
        /\ Group.members g = set_of (User.id u :: ms)
        /\ NoDup (Group.members g)
        /\ (forall x, In x (Group.members g) <-> x = User.id u \/ In x ms)
        /\ Group.admins g = [User.id u]
        /\ Group.createdBy g = User.id u)
  /\ ((match in_name input with None => True | Some n => n = "" \/ js_trim n = "" end)
      \/ (in_members input = None \/ in_members input = Some [])
      \/ (exists ms x, in_members input = Some ms /\ In x ms /\ ObjectId_isValid x = false) ->
      exists msg,
        In msg validation_messages
        /\ createGroup input {| user := Some u |} newId now st
           = (Thrown ("Error creating group: " ++ msg), st)).
Proof.
  intros Hauth. split.
  - intros n ms Hname Hnamed Htrim Hmembers Hnonempty Hvalid Himage Hfresh.
    destruct (createGroup_valid st input u newId now Hauth n ms
                Hname Hnamed Htrim Hmembers Hnonempty Hvalid Himage Hfresh)
      as (g & Hrun & Hms & Hadmins & Hcreator).
    exists g. split; [exact Hrun|]. split; [exact Hms|].
    rewrite Hms. split; [apply set_of_NoDup|]. split; [|now split].
    intros x. rewrite set_of_In. cbn. split; intros [Hx | Hx]; auto.
  - now apply createGroup_invalid.
Qed.

Lemma createGroup_members_witness :
  (exists g,
      createGroup team_input (as_user u1) gid1 0%Z empty_store
      = (Returned (Some g), {| groups := [g]; groupMessages := [] |})
      /\ Group.members g = [u1; u2]
      /\ Group.admins g = [u1]
      /\ Group.createdBy g = u1)
  /\ exists msg,
      In msg validation_messages
      /\ createGroup {| in_name := Some (" " ++ nbsp); in_description := None;
                        in_groupImage := None; in_members := Some [u2];
                        in_isPrivate := None; in_maxMembers := None |}
           (as_user u1) gid1 0%Z empty_store
         = (Thrown ("Error creating group: " ++ msg), empty_store).
Proof.
  assert (Hu1 : u1 <> "") by discriminate.
  split.
  - destruct (proj1 (createGroup_members empty_store team_input
                       {| User.id := u1; User.name := "" |} gid1 0%Z Hu1)
                "Team" [u1; u2] eq_refl)
      as (g & Hrun & Hms & _ & _ & Hadmins & Hcreator).
    + discriminate.
    + vm_compute. discriminate.
    + reflexivity.
    + discriminate.
    + intros x [<- | [<- | []]]; reflexivity.
    + discriminate.
    + reflexivity.
    + exists g. repeat split; assumption.
  - apply (proj2 (createGroup_members empty_store _
                    {| User.id := u1; User.name := "" |} gid1 0%Z Hu1)).
    left. right. reflexivity.
Defined.

(** ** Sending a message *)

Lemma find_after_update (gid : Id) (l : list Group.t) (g : Group.t)
    (update : Group.t -> Group.t) :
  find (fun x => String.eqb (Group._id x) gid) l = Some g ->
  Group._id (update g) = Group._id g ->
  find (fun x => String.eqb (Group._id x) gid)
       (map (fun x => if String.eqb (Group._id x) gid then update x else x) l)
  = Some (update g).
Proof.
  intros Hf Hid. induction l as [|a l IH]; cbn in *; [discriminate|].
  destruct (String.eqb (Group._id a) gid) eqn:Ha; cbn.
  - inversion Hf; subst a. now rewrite Hid, Ha.
  - rewrite Ha. now apply IH.
Qed.

Section Sending.
Context `{Externals}.
Variables (st : Store) (groupId : Id) (content : option string)
          (messageType : option string) (media : option Media) (replyTo : option Id)
          (u : User.t) (newId : Id) (now : Z) (g : Group.t).
Let ctx : Context := {| user := Some u |}.
Hypothesis Hfound :
  find (fun x => String.eqb (Group._id x) groupId) (groups st) = Some g.

Lemma sendGroupMessage_non_member :
  includes (Group.members g) (User.id u) = false ->
  sendGroupMessage groupId content messageType media replyTo ctx newId now st
  = (Thrown "Error sending group message: You are not a member of this group", st).
Proof.
  intros Hout. unfold sendGroupMessage. run. unfold ctx. cbn [user].
  now rewrite Hfound, Hout.
Qed.

Lemma sendGroupMessage_refused :
  includes (Group.members g) (User.id u) = true ->
  media <> None
  \/ (exists r, replyTo = Some r /\ ObjectId_isValid r = false)
  \/ ~ In (default "text" messageType) messageType_enum ->
  exists msg,
    sendGroupMessage groupId content messageType media replyTo ctx newId now st
    = (Thrown ("Error sending group message: GroupMessage validation failed: " ++ msg), st).
Proof.
  intros Hin Hbad. unfold sendGroupMessage. run. unfold ctx. cbn [user].
  rewrite Hfound, Hin. cbn [negb]. cbv beta match zeta. unfold GroupMessage_create.
  destruct (schema_refuses
              {| new_group := groupId; new_sender := User.id u; new_content := content;
                 new_messageType := default "text" messageType; new_media := media;
                 new_replyTo := replyTo |} newId now (or_intror (or_intror Hbad)))
    as [msg Hmsg].
  rewrite Hmsg. exists msg. reflexivity.
Qed.

Lemma sendGroupMessage_member :
  includes (Group.members g) (User.id u) = true ->
  ObjectId_isValid groupId = true ->
  ObjectId_isValid (User.id u) = true ->
  media = None ->
  (forall r, replyTo = Some r -> ObjectId_isValid r = true) ->
  In (default "text" messageType) messageType_enum ->
  existsb (fun m => String.eqb (GroupMessage._id m) newId) (groupMessages st) = false ->
  let message :=
    groupMessageSchema_document
      {| new_group := groupId; new_sender := User.id u; new_content := content;
         new_messageType := default "text" messageType; new_media := media;
         new_replyTo := replyTo |} newId now in
  let summary :=
    {| lm_content := or_else content ("Sent a " ++ default "text" messageType);
       lm_sender := User.id u;
       lm_timestamp := now |} in
  exists st',
    sendGroupMessage groupId content messageType media replyTo ctx newId now st
    = (Returned (Some message), st')
    /\ groupMessages st' = (groupMessages st ++ [message])%list
    /\ find (fun x => String.eqb (Group._id x) groupId) (groups st')
       = Some (Group.with_lastMessage g summary now)
    /\ groups st'
       = map (fun x => if String.eqb (Group._id x) groupId
                       then Group.with_lastMessage x summary now else x) (groups st).
Proof.
  intros Hin Hgid Huid Hmedia Hreply Htype Hfresh message summary.
  unfold sendGroupMessage. run.
  unfold ctx. cbn [user]. rewrite Hfound, Hin. cbn [negb]. cbv beta match zeta.
  unfold GroupMessage_create.
  assert (Hcast : groupMessageSchema_cast
                    {| new_group := groupId; new_sender := User.id u;
                       new_content := content;
                       new_messageType := default "text" messageType;
                       new_media := media; new_replyTo := replyTo |} newId now
                  = Returned message).
  { apply schema_accepts. repeat split; assumption. }
  rewrite Hcast. subst message summary.
  cbn [GroupMessage._id groupMessageSchema_document]. rewrite Hfresh.
  cbv beta match zeta. cbn [groupMessages groups GroupMessage._id].
  (rewrite find_appended; [|exact Hfresh|apply String.eqb_refl]).
  eexists. split; [reflexivity|]. cbn [groupMessages groups]. split; [reflexivity|].
  split; [|reflexivity].
  apply (find_after_update groupId (groups st) g
           (fun x => Group.with_lastMessage x _ now) Hfound).
  reflexivity.
Qed.
End Sending.

(** C7, as the code has it: on an existing group, sendGroupMessage by a
    sender who is not among the members throws the authorization error and
    leaves the store, hence the message collection, unchanged.  By a member,
    a message whose type is not one of text, image, video, audio, file and
    system is refused by the schema: the validation error is thrown and
    nothing is stored.  By a member, with well-formed identifiers of the
    group and of the sender, a type of the enumeration, no media, a reply
    target that is absent or a well-formed identifier, and a fresh
    identifier, the message is appended with the content trimmed and
    returned, and the group's last-message summary becomes the content as
    given (or "Sent a <type>" when the content is missing or empty), the
    sender and the current time; the update time of the group becomes the
    current time, its other fields stay as they were, and every other group
    stays in the store. *)
Theorem sendGroupMessage_membership `{Externals}
    (st : Store) (groupId : Id) (content : option string)
    (messageType : option string) (media : option Media) (replyTo : option Id)
    (u : User.t) (newId : Id) (now : Z) (g : Group.t) :
  find (fun x => String.eqb (Group._id x) groupId) (groups st) = Some g ->
  (includes (Group.members g) (User.id u) = false ->
   sendGroupMessage groupId content messageType media replyTo
     {| user := Some u |} newId now st
   = (Thrown "Error sending group message: You are not a member of this group", st))
  /\ (includes (Group.members g) (User.id u) = true ->
      ~ In (default "text" messageType) messageType_enum ->
      exists msg,
        sendGroupMessage groupId content messageType media replyTo
          {| user := Some u |} newId now st
        = (Thrown ("Error sending group message: GroupMessage validation failed: " ++ msg),
           st))
  /\ (includes (Group.members g) (User.id u) = true ->
      ObjectId_isValid groupId = true ->
      ObjectId_isValid (User.id u) = true ->
      media = None ->
      (forall r, replyTo = Some r -> ObjectId_isValid r = true) ->
      In (default "text" messageType) messageType_enum ->
      existsb (fun m => String.eqb (GroupMessage._id m) newId) (groupMessages st) = false ->
      exists message st' g',
        sendGroupMessage groupId content messageType media replyTo
          {| user := Some u |} newId now st
        = (Returned (Some message), st')
        /\ groupMessages st' = (groupMessages st ++ [message])%list
        /\ GroupMessage._id message = newId
        /\ GroupMessage.group message = groupId
        /\ GroupMessage.sender message = User.id u
        /\ GroupMessage.content message = option_map js_trim content
        /\ GroupMessage.messageType message = default "text" messageType
        /\ GroupMessage.replyTo message = replyTo
        /\ GroupMessage.isDeleted message = false
        /\ GroupMessage.readBy message = []
        /\ GroupMessage.createdAt message = now
        /\ find (fun x => String.eqb (Group._id x) groupId) (groups st') = Some g'
        /\ Group.lastMessage g'
           = Some {| lm_content :=
                       match content with
                       | Some (String c r) => String c r
                       | _ => "Sent a " ++ default "text" messageType
                       end;
                     lm_sender := User.id u;
                     lm_timestamp := now |}
        /\ Group.updatedAt g' = now
        /\ Group.members g' = Group.members g
        /\ Group.admins g' = Group.admins g
        /\ Group.createdBy g' = Group.createdBy g
        /\ Group.name g' = Group.name g
        /\ Group.description g' = Group.description g
        /\ Group.groupImage g' = Group.groupImage g
        /\ Group.isPrivate g' = Group.isPrivate g
        /\ Group.maxMembers g' = Group.maxMembers g
        /\ (forall x, In x (groups st) -> Group._id x <> groupId -> In x (groups st'))).
Proof.
  intros Hfound. split; [|split].
  - exact (sendGroupMessage_non_member st groupId content messageType media replyTo
             u newId now g Hfound).
  - intros Hin Htype.
    exact (sendGroupMessage_refused st groupId content messageType media replyTo
             u newId now g Hfound Hin (or_intror (or_intror Htype))).
  - intros Hin Hgid Huid Hmedia Hreply Htype Hfresh.
    destruct (sendGroupMessage_member st groupId content messageType media replyTo
                u newId now g Hfound Hin Hgid Huid Hmedia Hreply Htype Hfresh)
      as (st' & Hrun & Hmsgs & Hgroup & Hgroups).
    eexists _, st', _. split; [exact Hrun|]. split; [exact Hmsgs|].
    cbn [GroupMessage._id GroupMessage.group GroupMessage.sender GroupMessage.content
         GroupMessage.messageType GroupMessage.replyTo GroupMessage.isDeleted
         GroupMessage.readBy GroupMessage.createdAt groupMessageSchema_document
         new_group new_sender new_content new_messageType new_replyTo].
    do 9 (split; [reflexivity|]). split; [exact Hgroup|].
    cbn [Group.lastMessage Group.updatedAt Group.members Group.admins Group.createdBy
         Group.name Group.description Group.groupImage Group.isPrivate Group.maxMembers
         Group.with_lastMessage or_else].
    split; [now destruct content as [[|c r]|]|].
    do 9 (split; [reflexivity|]).
    intros x Hx Hne. rewrite Hgroups. apply in_map_iff. exists x.
    split; [|exact Hx]. apply String.eqb_neq in Hne. now rewrite Hne.
Qed.

Lemma sendGroupMessage_membership_witness :
  sendGroupMessage gid1 (Some "hi") None None None (as_user u3) "m1" 7%Z (team_store 256)
  = (Thrown "Error sending group message: You are not a member of this group",
     team_store 256)
  /\ exists message st' g',
      sendGroupMessage gid1 (Some " hi ") (Some "image") None None (as_user u2) "m1" 7%Z
        (team_store 256)
      = (Returned (Some message), st')
      /\ groupMessages st' = [message]
      /\ GroupMessage.content message = Some "hi"
      /\ find (fun x => String.eqb (Group._id x) gid1) (groups st') = Some g'
      /\ Group.lastMessage g'
         = Some {| lm_content := " hi "; lm_sender := u2; lm_timestamp := 7%Z |}.
Proof.
  split.
  - apply (proj1 (@sendGroupMessage_membership sample_externals (team_store 256) gid1 (Some "hi")
                    None None None {| User.id := u3; User.name := "" |} "m1" 7%Z
                    (team 256) eq_refl)).
    reflexivity.
  - assert (Htype : In (default "text" (Some "image")) messageType_enum)
      by (right; now left).
    assert (Hreply : forall r, @None Id = Some r -> ObjectId_isValid r = true)
      by discriminate.
    destruct (proj2 (proj2 (@sendGroupMessage_membership sample_externals (team_store 256) gid1 (Some " hi ")
                              (Some "image") None None {| User.id := u2; User.name := "" |}
                              "m1" 7%Z (team 256) eq_refl))
                eq_refl eq_refl eq_refl eq_refl Hreply Htype eq_refl)
      as (message & st' & g' & Hrun & Hmsgs & _ & _ & _ & Hcontent & _ & _ & _ & _ & _
          & Hgroup & Hlast & _).
    exists message, st', g'. repeat split; assumption.
Defined.

(** C7 as stated fails: [u2] is a member of the team, yet a message of type
    "sticker" is not created: the schema refuses the type, the validation
    error is thrown, and neither the message collection nor the summary of
    the group changes. *)
Lemma member_message_of_unknown_type_is_refused :
  includes (Group.members (team 256)) u2 = true
  /\ sendGroupMessage gid1 (Some "hi") (Some "sticker") None None (as_user u2) "m1" 7%Z
       (team_store 256)
     = (Thrown
          ("Error sending group message: GroupMessage validation failed: "
             ++ "messageType: `sticker` is not a valid enum value for path `messageType`."),
        team_store 256).
Proof.
  split; reflexivity.
Qed.

(** ** Read receipts *)

Lemma read_by_In (reader : Id) (l : list ReadReceipt) :
  existsb (read_by reader) l = true <-> In reader (map rr_user l).
Proof.
  rewrite existsb_exists, in_map_iff. unfold read_by.
  split; intros [x Hx]; exists x.
  - destruct Hx as [Hin Heq]. apply String.eqb_eq in Heq. now split.
  - destruct Hx as [Heq Hin]. split; [assumption | now apply String.eqb_eq].
Qed.

Lemma unread_count (reader : Id) (l : list ReadReceipt) :
  existsb (read_by reader) l = false -> List.length (filter (read_by reader) l) = 0.
Proof.
  induction l as [|a l IH]; cbn; [reflexivity|].
  intros Hno. apply orb_false_iff in Hno. destruct Hno as [Ha Hl].
  rewrite Ha. now apply IH.
Qed.

Lemma read_once_count (reader : Id) (l : list ReadReceipt) :
  NoDup (map rr_user l) ->
  existsb (read_by reader) l = true ->
  List.length (filter (read_by reader) l) = 1.
Proof.
  induction l as [|a l IH]; cbn; [discriminate|].
  intros Hnd Hex. apply NoDup_cons_iff in Hnd. destruct Hnd as [Hnotin Hnd].
  destruct (read_by reader a) eqn:Ha; cbn.
  - f_equal. apply unread_count.
    destruct (existsb (read_by reader) l) eqn:Hl; [|reflexivity].
    apply read_by_In in Hl. unfold read_by in Ha. apply String.eqb_eq in Ha.
    congruence.
  - now apply IH.
Qed.

Lemma receipts_unique_push (m : GroupMessage.t) (reader : Id) (t : Z) :
  receipts_unique m ->
  existsb (read_by reader) (GroupMessage.readBy m) = false ->
  receipts_unique
    (GroupMessage.with_updatedAt
       (GroupMessage.with_readBy m
          (GroupMessage.readBy m ++ [{| rr_user := reader; readAt := t |}]))
       t).
Proof.
  unfold receipts_unique. cbn. intros Hnd Hunread.
  rewrite map_app. cbn.
  apply (Permutation_NoDup (Permutation_cons_append _ _)).
  constructor; [|assumption].
  intros Hin. apply read_by_In in Hin. congruence.
Qed.

Lemma find_message_after_save (mid : Id) (l : list GroupMessage.t) (m m' : GroupMessage.t) :
  find (fun x => String.eqb (GroupMessage._id x) mid) l = Some m ->
  GroupMessage._id m' = GroupMessage._id m ->
  find (fun x => String.eqb (GroupMessage._id x) mid)
       (map (fun x => if String.eqb (GroupMessage._id x) (GroupMessage._id m) then m' else x) l)
  = Some m'.
Proof.
  intros Hf Hid.
  assert (Hmid : GroupMessage._id m = mid).
  { apply find_some in Hf. destruct Hf as [_ Heq]. now apply String.eqb_eq in Heq. }
  rewrite Hmid. rewrite Hmid in Hid.
  induction l as [|a l IH]; cbn in *; [discriminate|].
  destruct (String.eqb (GroupMessage._id a) mid) eqn:Ha; cbn.
  - now rewrite Hid, String.eqb_refl.
  - rewrite Ha. now apply IH.
Qed.

Section Reading.
Variables (st : Store) (messageId : Id) (u : User.t) (m : GroupMessage.t).
Let ctx : Context := {| user := Some u |}.
Hypothesis Hfound :
  find (fun x => String.eqb (GroupMessage._id x) messageId) (groupMessages st) = Some m.

Lemma markGroupMessageAsRead_already now :
  existsb (read_by (User.id u)) (GroupMessage.readBy m) = true ->
  markGroupMessageAsRead messageId ctx now st = (Returned (Some m), st).
Proof.
  intros Hread. unfold markGroupMessageAsRead. run. unfold ctx. cbn [user].
  rewrite Hfound. cbv beta match zeta. fold (read_by (User.id u)).
  rewrite Hread. cbn [negb]. cbv beta match zeta. now rewrite Hfound.
Qed.

Lemma markGroupMessageAsRead_first now :
  existsb (read_by (User.id u)) (GroupMessage.readBy m) = false ->
  let m' := GroupMessage.with_updatedAt
              (GroupMessage.with_readBy m
                 (GroupMessage.readBy m ++ [{| rr_user := User.id u; readAt := now |}]))
              now in
  exists st',
    markGroupMessageAsRead messageId ctx now st = (Returned (Some m'), st')
    /\ find (fun x => String.eqb (GroupMessage._id x) messageId) (groupMessages st')
       = Some m'
    /\ groups st' = groups st
    /\ groupMessages st'
       = map (fun x => if String.eqb (GroupMessage._id x) (GroupMessage._id m)
                       then m' else x) (groupMessages st).
Proof.
  intros Hunread m'. unfold markGroupMessageAsRead. run. unfold ctx. cbn [user].
  rewrite Hfound. cbv beta match zeta. fold (read_by (User.id u)).
  rewrite Hunread. cbn [negb]. cbv beta match zeta.
  cbn [groupMessages GroupMessage._id GroupMessage.with_readBy].
  subst m'. cbn [GroupMessage.with_readBy GroupMessage.with_updatedAt].
  (erewrite find_message_after_save; [|exact Hfound|reflexivity]).
  eexists. split; [reflexivity|]. cbn [groupMessages groups].
  split; [|split; reflexivity].
  now apply (find_message_after_save messageId (groupMessages st) m).
Qed.
End Reading.

Lemma markGroupMessageAsRead_twice
    (st : Store) (messageId : Id) (u : User.t) (m : GroupMessage.t) (now1 now2 : Z) :
  find (fun x => String.eqb (GroupMessage._id x) messageId) (groupMessages st) = Some m ->
  receipts_unique m ->
  let st1 := snd (markGroupMessageAsRead messageId {| user := Some u |} now1 st) in
  exists m',
    markGroupMessageAsRead messageId {| user := Some u |} now2 st1 = (Returned (Some m'), st1)
    /\ find (fun x => String.eqb (GroupMessage._id x) messageId) (groupMessages st1) = Some m'
    /\ receipts_of (User.id u) m' = 1.
Proof.
  intros Hfound Hunique st1.
  destruct (existsb (read_by (User.id u)) (GroupMessage.readBy m)) eqn:Hread.
  - assert (Hst1 : st1 = st)
      by (unfold st1; now rewrite (markGroupMessageAsRead_already st messageId u m Hfound now1 Hread)).
    rewrite Hst1. exists m. split; [|split].
    + now apply markGroupMessageAsRead_already.
    + exact Hfound.
    + now apply read_once_count.
  - destruct (markGroupMessageAsRead_first st messageId u m Hfound now1 Hread)
      as (st' & Hrun & Hfound' & _).
    assert (Hst1 : st1 = st') by (unfold st1; now rewrite Hrun).
    rewrite Hst1. eexists. split; [|split].
    + apply (markGroupMessageAsRead_already st' messageId u _ Hfound' now2).
      cbn [GroupMessage.readBy GroupMessage.with_readBy GroupMessage.with_updatedAt].
      rewrite existsb_app.
      cbn [existsb]. unfold read_by at 2. cbn [rr_user].
      rewrite String.eqb_refl. now rewrite orb_true_r.
    + exact Hfound'.
    + unfold receipts_of.
      cbn [GroupMessage.readBy GroupMessage.with_readBy GroupMessage.with_updatedAt].
      fold (read_by (User.id u)).
      rewrite filter_app, length_app. rewrite (unread_count _ _ Hread).
      cbn [filter]. unfold read_by at 1. cbn [rr_user].
      now rewrite String.eqb_refl.
Qed.

Ltac split_conditions :=
  repeat (cbv beta match zeta;
          match goal with
          | |- context [match ?x with Some _ => _ | None => _ end] => destruct x
          | |- context [if ?b then _ else _] => destruct b
          end);
  cbv beta match zeta.

Section ReceiptsUnique.
Context `{Externals}.
Variable st : Store.
Hypothesis Hinv : Forall receipts_unique (groupMessages st).

Lemma createGroup_messages input ctx newId now :
  groupMessages (snd (createGroup input ctx newId now st)) = groupMessages st.
Proof.
  unfold createGroup. run.
  destruct (user ctx) as [u|]; [|reflexivity].
  destruct (in_members input) as [[|m ms]|];
    destruct (in_groupImage input) as [[url|]|];
    split_conditions; reflexivity.
Qed.

Lemma addGroupMembers_messages gid memberIds ctx :
  groupMessages (snd (addGroupMembers gid memberIds ctx st)) = groupMessages st.
Proof. unfold addGroupMembers. run. split_conditions; reflexivity. Qed.

Lemma removeGroupMember_messages gid memberId ctx :
  groupMessages (snd (removeGroupMember gid memberId ctx st)) = groupMessages st.
Proof. unfold removeGroupMember. run. split_conditions; reflexivity. Qed.

Lemma leaveGroup_messages gid ctx :
  groupMessages (snd (leaveGroup gid ctx st)) = groupMessages st.
Proof. unfold leaveGroup. run. split_conditions; reflexivity. Qed.

Lemma updateGroup_messages gid n d i ctx :
  groupMessages (snd (updateGroup gid n d i ctx st)) = groupMessages st.
Proof. unfold updateGroup. run. split_conditions; reflexivity. Qed.

Lemma makeGroupAdmin_messages gid memberId ctx :
  groupMessages (snd (makeGroupAdmin gid memberId ctx st)) = groupMessages st.
Proof. unfold makeGroupAdmin. run. split_conditions; reflexivity. Qed.

Lemma sendGroupMessage_receipts gid content ty media replyTo ctx newId now :
  Forall receipts_unique
    (groupMessages (snd (sendGroupMessage gid content ty media replyTo ctx newId now st))).
Proof.
  destruct (sendGroupMessage_store gid content ty media replyTo ctx newId now st)
    as [Hsame | (u & m & _ & Hcast & _ & Hst)]; [now rewrite Hsame|].
  rewrite Hst. cbn [groupMessages]. apply Forall_app. split; [exact Hinv|].
  apply schema_accepts in Hcast. destruct Hcast as (-> & _).
  constructor; [|constructor]. unfold receipts_unique. cbn. constructor.
Qed.

Lemma deleteGroup_receipts gid ctx :
  Forall receipts_unique (groupMessages (snd (deleteGroup gid ctx st))).
Proof.
  unfold deleteGroup. run. split_conditions; try exact Hinv.
  cbn [snd groupMessages]. now apply Forall_kept.
Qed.

Lemma markGroupMessageAsRead_receipts mid ctx now :
  Forall receipts_unique (groupMessages (snd (markGroupMessageAsRead mid ctx now st))).
Proof.
  unfold markGroupMessageAsRead. run.
  destruct (user ctx) as [u|]; [|exact Hinv].
  destruct (find _ (groupMessages st)) as [m|] eqn:Hm; [|exact Hinv].
  cbv beta match zeta. fold (read_by (User.id u)).
  destruct (existsb (read_by (User.id u)) (GroupMessage.readBy m)) eqn:Hread;
    cbn [negb]; cbv beta match zeta; [exact Hinv|].
  cbn [snd groupMessages].
  apply (Forall_map_replace receipts_unique
           (fun x => String.eqb (GroupMessage._id x) (GroupMessage._id _))
           (fun _ => _)); [exact Hinv|].
  intros _ _ _. apply receipts_unique_push; [|exact Hread].
  apply find_some in Hm. destruct Hm as [Hin _].
  rewrite Forall_forall in Hinv. now apply Hinv.
Qed.
End ReceiptsUnique.

Lemma step_receipts_unique `{Externals} (st st' : Store) :
  step st st' ->
  Forall receipts_unique (groupMessages st) ->
  Forall receipts_unique (groupMessages st').
Proof.
  intros Hstep Hinv. destruct Hstep.
  - now rewrite createGroup_messages.
  - now apply sendGroupMessage_receipts.
  - now rewrite addGroupMembers_messages.
  - now rewrite removeGroupMember_messages.
  - now rewrite leaveGroup_messages.
  - now rewrite updateGroup_messages.
  - now apply deleteGroup_receipts.
  - now rewrite makeGroupAdmin_messages.
  - now apply markGroupMessageAsRead_receipts.
Qed.

Lemma reachable_receipts_unique `{Externals} (st : Store) :
  reachable st -> Forall receipts_unique (groupMessages st).
Proof.
  induction 1 as [|st st' Hreach IH Hstep]; [constructor|].
  now apply (step_receipts_unique st).
Qed.

(** C8: in every store the resolvers can reach, each user appears at most
    once in the read receipts of each message.  There, markGroupMessageAsRead
    on an absent message throws the not-found error and changes nothing; on a
    stored message, a second call by the same reader returns the message and
    leaves the store exactly as the first call left it, with exactly one read
    receipt of that reader on the message. *)
Theorem markGroupMessageAsRead_idempotent `{Externals}
    (st : Store) (messageId : Id) (u : User.t) (now1 now2 : Z) :
  reachable st ->
  let ctx := {| user := Some u |} in
  let st1 := snd (markGroupMessageAsRead messageId ctx now1 st) in
  Forall receipts_unique (groupMessages st)
  /\ Forall receipts_unique (groupMessages st1)
  /\ (find (fun x => String.eqb (GroupMessage._id x) messageId) (groupMessages st) = None ->
      markGroupMessageAsRead messageId ctx now1 st
      = (Thrown "Error marking message as read: Message not found", st))
  /\ (forall m,
      find (fun x => String.eqb (GroupMessage._id x) messageId) (groupMessages st) = Some m ->
      exists m',
        markGroupMessageAsRead messageId ctx now2 st1 = (Returned (Some m'), st1)
        /\ find (fun x => String.eqb (GroupMessage._id x) messageId) (groupMessages st1)
           = Some m'
        /\ receipts_of (User.id u) m' = 1).
Proof.
  intros Hreach ctx st1.
  pose proof (reachable_receipts_unique st Hreach) as Hinv.
  split; [exact Hinv|]. split; [now apply markGroupMessageAsRead_receipts|]. split.
  - intros Hnone. unfold markGroupMessageAsRead. run. unfold ctx. cbn [user].
    now rewrite Hnone.
  - intros m Hfound. apply (markGroupMessageAsRead_twice st messageId u m now1 now2 Hfound).
    apply find_some in Hfound. destruct Hfound as [Hin _].
    rewrite Forall_forall in Hinv. now apply Hinv.
Qed.

Lemma markGroupMessageAsRead_idempotent_witness :
  reachable chat_store
  /\ exists m',
      find (fun x => String.eqb (GroupMessage._id x) "m1")
           (groupMessages (snd (markGroupMessageAsRead "m1" (as_user u2) 8%Z chat_store)))
      = Some m'
      /\ receipts_of u2 m' = 1.
Proof.
  assert (Hreach : reachable chat_store).
  { unfold chat_store.
    eapply reachable_step; [|apply step_sendGroupMessage].
    eapply reachable_step; [|apply step_createGroup].
    apply reachable_empty. }
  split; [exact Hreach|].
  destruct (markGroupMessageAsRead_idempotent chat_store "m1"
              {| User.id := u2; User.name := "" |} 8%Z 9%Z Hreach)
    as (_ & _ & _ & Hread).
  destruct (Hread _ eq_refl) as (m' & _ & Hfound & Hcount).
  exists m'. split; assumption.
Defined.

(** ** Further properties of the resolvers *)

(** X1: without a user in the request context every mutation is refused with
    "Authentication required" and the store is left as it was: thrown (with
    the operation's prefix) by createGroup, sendGroupMessage, updateGroup and
    markGroupMessageAsRead, returned as a structured failure by the five
    membership mutations.  createGroup also refuses a user whose id is
    empty. *)
Theorem mutations_require_authentication `{Externals}
    (st : Store) (groupId memberId newId : Id) (now : Z) :
  (forall input,
      createGroup input {| user := None |} newId now st
      = (Thrown "Error creating group: Authentication required", st))
  /\ (forall input name,
      createGroup input {| user := Some {| User.id := ""; User.name := name |} |} newId now st
      = (Thrown "Error creating group: Authentication required", st))
  /\ (forall content ty media replyTo,
      sendGroupMessage groupId content ty media replyTo {| user := None |} newId now st
      = (Thrown "Error sending group message: Authentication required", st))
  /\ (forall memberIds,
      addGroupMembers groupId memberIds {| user := None |} st
      = (Returned (failure "Authentication required"), st))
  /\ removeGroupMember groupId memberId {| user := None |} st
     = (Returned (failure "Authentication required"), st)
  /\ leaveGroup groupId {| user := None |} st
     = (Returned (failure "Authentication required"), st)
  /\ (forall n d i,
      updateGroup groupId n d i {| user := None |} st
      = (Thrown "Error updating group: Authentication required", st))
  /\ deleteGroup groupId {| user := None |} st
     = (Returned (failure "Authentication required"), st)
  /\ makeGroupAdmin groupId memberId {| user := None |} st
     = (Returned (failure "Authentication required"), st)
  /\ markGroupMessageAsRead memberId {| user := None |} now st
     = (Thrown "Error marking message as read: Authentication required", st).
Proof.
  repeat split.
Qed.

Section MissingGroup.
Context `{Externals}.
Variables (st : Store) (groupId : Id) (u : User.t).
Let ctx : Context := {| user := Some u |}.
Hypothesis Hmissing :
  find (fun x => String.eqb (Group._id x) groupId) (groups st) = None.

Lemma membership_mutations_missing_group memberIds memberId :
  addGroupMembers groupId memberIds ctx st = (Returned (failure "Group not found"), st)
  /\ removeGroupMember groupId memberId ctx st = (Returned (failure "Group not found"), st)
  /\ leaveGroup groupId ctx st = (Returned (failure "Group not found"), st)
  /\ deleteGroup groupId ctx st = (Returned (failure "Group not found"), st)
  /\ makeGroupAdmin groupId memberId ctx st = (Returned (failure "Group not found"), st).
Proof.
  unfold addGroupMembers, removeGroupMember, leaveGroup, deleteGroup, makeGroupAdmin.
  run. unfold ctx. cbn [user]. rewrite Hmissing. repeat split.
Qed.

Lemma throwing_paths_missing_group n d i content ty media replyTo newId now :
  updateGroup groupId n d i ctx st = (Thrown "Error updating group: Group not found", st)
  /\ sendGroupMessage groupId content ty media replyTo ctx newId now st
     = (Thrown "Error sending group message: You are not a member of this group", st)
  /\ getGroupDetails groupId ctx st
     = (Thrown "Error fetching group details: Group not found", st).
Proof.
  unfold updateGroup, sendGroupMessage, getGroupDetails.
  run. unfold ctx. cbn [user]. rewrite Hmissing. repeat split.
Qed.
End MissingGroup.

(** X2: for an authenticated caller and a group identifier that is not in
    the store, the five membership mutations return the failure "Group not
    found", updateGroup and getGroupDetails throw it with their prefix, and
    sendGroupMessage throws "You are not a member of this group"; none of
    them changes the store. *)
Theorem missing_group_is_reported `{Externals}
    (st : Store) (groupId : Id) (u : User.t)
    (memberIds : list Id) (memberId : Id) (n d i content ty : option string)
    (media : option Media) (replyTo : option Id) (newId : Id) (now : Z) :
  find (fun x => String.eqb (Group._id x) groupId) (groups st) = None ->
  let ctx := {| user := Some u |} in
  addGroupMembers groupId memberIds ctx st = (Returned (failure "Group not found"), st)
  /\ removeGroupMember groupId memberId ctx st = (Returned (failure "Group not found"), st)
  /\ leaveGroup groupId ctx st = (Returned (failure "Group not found"), st)
  /\ deleteGroup groupId ctx st = (Returned (failure "Group not found"), st)
  /\ makeGroupAdmin groupId memberId ctx st = (Returned (failure "Group not found"), st)
  /\ updateGroup groupId n d i ctx st = (Thrown "Error updating group: Group not found", st)
  /\ sendGroupMessage groupId content ty media replyTo ctx newId now st
     = (Thrown "Error sending group message: You are not a member of this group", st)
  /\ getGroupDetails groupId ctx st
     = (Thrown "Error fetching group details: Group not found", st).
Proof.
  intros Hmissing ctx.
  destruct (membership_mutations_missing_group st groupId u Hmissing memberIds memberId)
    as (Ha & Hr & Hl & Hd & Hm).
  destruct (throwing_paths_missing_group st groupId u Hmissing n d i content ty media
              replyTo newId now) as (Hu & Hs & Hg).
  repeat split; assumption.
Qed.

Lemma missing_group_is_reported_witness :
  deleteGroup gid2 (as_user u1) (team_store 256)
  = (Returned (failure "Group not found"), team_store 256)
  /\ getGroupDetails gid2 (as_user u1) (team_store 256)
     = (Thrown "Error fetching group details: Group not found", team_store 256).
Proof.
  destruct (missing_group_is_reported (team_store 256) gid2
              {| User.id := u1; User.name := "" |} [] u2 None None None None None
              None None "m1" 0%Z eq_refl)
    as (_ & _ & _ & Hd & _ & _ & _ & Hg).
  split; assumption.
Defined.

(** ** Deleting a group *)

Lemma find_none_after_delete (gid : Id) (l : list Group.t) :
  find (fun x => String.eqb (Group._id x) gid)
       (filter (fun x => negb (String.eqb (Group._id x) gid)) l) = None.
Proof.
  induction l as [|a l IH]; cbn; [reflexivity|].
  destruct (String.eqb (Group._id a) gid) eqn:Ha; cbn; [exact IH|].
  now rewrite Ha.
Qed.

Lemma group_query_after_deleteMany (gid gid' : Id) (l : list GroupMessage.t) :
  filter (group_query gid')
         (filter (fun m => negb (String.eqb (GroupMessage.group m) gid)) l)
  = if String.eqb gid' gid then [] else filter (group_query gid') l.
Proof.
  induction l as [|m l IH]; cbn; [now destruct (String.eqb gid' gid)|].
  unfold group_query at 2.
  destruct (String.eqb_spec (GroupMessage.group m) gid) as [Hm | Hm]; cbn.
  - rewrite IH. destruct (String.eqb_spec gid' gid) as [Hg | Hg]; [reflexivity|].
    destruct (String.eqb_spec (GroupMessage.group m) gid') as [Hm' | Hm'];
      [congruence | reflexivity].
  - unfold group_query at 1. rewrite IH.
    destruct (String.eqb_spec gid' gid) as [Hg | Hg]; [|reflexivity].
    subst gid'. destruct (String.eqb_spec (GroupMessage.group m) gid); [contradiction|].
    reflexivity.
Qed.

Section Deleting.
Variables (st : Store) (groupId : Id) (u : User.t) (g : Group.t).
Let ctx : Context := {| user := Some u |}.
Hypothesis Hfound :
  find (fun x => String.eqb (Group._id x) groupId) (groups st) = Some g.

Lemma deleteGroup_by_creator :
  Group.createdBy g = User.id u ->
  deleteGroup groupId ctx st
  = (Returned {| success := true; message := "Group deleted successfully"; group := None |},
     {| groups := filter (fun x => negb (String.eqb (Group._id x) groupId)) (groups st);
        groupMessages :=
          filter (fun m => negb (String.eqb (GroupMessage.group m) groupId))
                 (groupMessages st) |}).
Proof.
  intros Hc. unfold deleteGroup. run. unfold ctx. cbn [user].
  rewrite Hfound, Hc, String.eqb_refl. reflexivity.
Qed.

Lemma deleteGroup_by_other :
  Group.createdBy g <> User.id u ->
  deleteGroup groupId ctx st
  = (Returned (failure "Only group creator can delete the group"), st).
Proof.
  intros Hc. unfold deleteGroup. run. unfold ctx. cbn [user]. rewrite Hfound.
  apply String.eqb_neq in Hc. now rewrite Hc.
Qed.
End Deleting.

(** X3: deleteGroup on an existing group succeeds exactly for its creator
    (any other caller, an admin included, gets "Only group creator can delete
    the group" and nothing changes).  After the creator's call the group is
    gone, getGroupDetails throws "Group not found", getGroupMessages of the
    group is empty, every other group is still stored, and the message page
    of any other group is what it was before. *)
Theorem deleteGroup_cascades
    (st : Store) (groupId : Id) (u : User.t) (g : Group.t) :
  find (fun x => String.eqb (Group._id x) groupId) (groups st) = Some g ->
  (Group.createdBy g <> User.id u ->
   deleteGroup groupId {| user := Some u |} st
   = (Returned (failure "Only group creator can delete the group"), st))
  /\ (Group.createdBy g = User.id u ->
      exists st',
        deleteGroup groupId {| user := Some u |} st
        = (Returned {| success := true; message := "Group deleted successfully";
                       group := None |}, st')
        /\ find (fun x => String.eqb (Group._id x) groupId) (groups st') = None
        /\ (forall ctx, getGroupDetails groupId ctx st'
                        = (Thrown "Error fetching group details: Group not found", st'))
        /\ (forall limit offset ctx,
               getGroupMessages groupId limit offset ctx st' = (Returned [], st'))
        /\ (forall other, In other (groups st) -> Group._id other <> groupId ->
                          In other (groups st'))
        /\ (forall gid' limit offset ctx, gid' <> groupId ->
               fst (getGroupMessages gid' limit offset ctx st')
               = fst (getGroupMessages gid' limit offset ctx st))).
Proof.
  intros Hfound. split; [exact (deleteGroup_by_other st groupId u g Hfound)|].
  intros Hc. eexists. split; [exact (deleteGroup_by_creator st groupId u g Hfound Hc)|].
  cbn [groups groupMessages]. split; [apply find_none_after_delete|]. split; [|split; [|split]].
  - intros ctx. unfold getGroupDetails. run. cbn [groups].
    now rewrite find_none_after_delete.
  - intros limit offset ctx. unfold getGroupMessages. run. cbn [groupMessages].
    rewrite group_query_after_deleteMany, String.eqb_refl. cbn.
    now destruct (default 50 limit), (default 0 offset).
  - intros other Hin Hne. apply filter_In. split; [assumption|].
    apply negb_true_iff. now apply String.eqb_neq.
  - intros gid' limit offset ctx Hne. unfold getGroupMessages. run. cbn [groupMessages fst].
    rewrite group_query_after_deleteMany. apply String.eqb_neq in Hne. now rewrite Hne.
Qed.

Lemma deleteGroup_cascades_witness :
  deleteGroup gid1 (as_user u2) five_messages
  = (Returned (failure "Only group creator can delete the group"), five_messages)
  /\ exists st',
      deleteGroup gid1 (as_user u1) five_messages
      = (Returned {| success := true; message := "Group deleted successfully";
                     group := None |}, st')
      /\ getGroupMessages gid1 None None anonymous st' = (Returned [], st').
Proof.
  destruct (deleteGroup_cascades five_messages gid1 {| User.id := u2; User.name := "" |}
              (team 256) eq_refl) as (Hdenied & _).
  destruct (deleteGroup_cascades five_messages gid1 {| User.id := u1; User.name := "" |}
              (team 256) eq_refl) as (_ & Hdone).
  split; [apply Hdenied; discriminate|].
  destruct (Hdone eq_refl) as (st' & Hrun & _ & _ & Hempty & _).
  exists st'. split; [exact Hrun | apply Hempty].
Defined.

(** ** Promoting a member *)

Section Promoting.
Variables (st : Store) (groupId memberId : Id) (u : User.t) (g : Group.t).
Let ctx : Context := {| user := Some u |}.
Hypothesis Hfound :
  find (fun x => String.eqb (Group._id x) groupId) (groups st) = Some g.

Lemma makeGroupAdmin_denied :
  includes (Group.admins g) (User.id u) = false ->
  makeGroupAdmin groupId memberId ctx st
  = (Returned (failure "Only admins can promote members"), st).
Proof.
  intros Hadm. unfold makeGroupAdmin. run. unfold ctx. cbn [user].
  now rewrite Hfound, Hadm.
Qed.

Lemma makeGroupAdmin_stranger :
  includes (Group.admins g) (User.id u) = true ->
  includes (Group.members g) memberId = false ->
  makeGroupAdmin groupId memberId ctx st
  = (Returned (failure "User is not a member of this group"), st).
Proof.
  intros Hadm Hmem. unfold makeGroupAdmin. run. unfold ctx. cbn [user].
  now rewrite Hfound, Hadm, Hmem.
Qed.

Lemma makeGroupAdmin_already :
  includes (Group.admins g) (User.id u) = true ->
  includes (Group.members g) memberId = true ->
  includes (Group.admins g) memberId = true ->
  makeGroupAdmin groupId memberId ctx st = (Returned (promoted (Some g)), st).
Proof.
  intros Hadm Hmem Halready. unfold makeGroupAdmin, promoted. run. unfold ctx. cbn [user].
  rewrite Hfound, Hadm, Hmem, Halready. cbn [negb]. cbv beta match zeta.
  now rewrite Hfound.
Qed.

Lemma makeGroupAdmin_new :
  includes (Group.admins g) (User.id u) = true ->
  includes (Group.members g) memberId = true ->
  includes (Group.admins g) memberId = false ->
  let g' := Group.with_admins g (Group.admins g ++ [memberId]) in
  exists st',
    makeGroupAdmin groupId memberId ctx st = (Returned (promoted (Some g')), st')
    /\ find (fun x => String.eqb (Group._id x) groupId) (groups st') = Some g'
    /\ groupMessages st' = groupMessages st.
Proof.
  intros Hadm Hmem Hnew g'. unfold makeGroupAdmin, promoted. run. unfold ctx. cbn [user].
  rewrite Hfound, Hadm, Hmem, Hnew. cbn [negb]. cbv beta match zeta.
  pose proof (find_In_groups _ _ _ Hfound) as [_ Hid].
  cbn [groups Group._id Group.with_admins].
  subst g'. cbn [Group.with_admins].
  rewrite_find_after_save Hfound Hid.
  eexists. split; [reflexivity|]. cbn [groups groupMessages]. split; [|reflexivity].
  rewrite_find_after_save Hfound Hid. reflexivity.
Qed.
End Promoting.

(** X4: makeGroupAdmin on an existing group is refused, with the store
    unchanged, when the actor is not an admin ("Only admins can promote
    members") and when the target is not a member ("User is not a member of
    this group").  Otherwise it succeeds: the target is appended to the
    admins unless already there, the members are untouched, the target is an
    admin afterwards, and repeating the call returns the same answer and
    changes nothing. *)
Theorem makeGroupAdmin_promotes
    (st : Store) (groupId memberId : Id) (u : User.t) (g : Group.t) :
  find (fun x => String.eqb (Group._id x) groupId) (groups st) = Some g ->
  let ctx := {| user := Some u |} in
  (includes (Group.admins g) (User.id u) = false ->
   makeGroupAdmin groupId memberId ctx st
   = (Returned (failure "Only admins can promote members"), st))
  /\ (includes (Group.admins g) (User.id u) = true ->
      includes (Group.members g) memberId = false ->
      makeGroupAdmin groupId memberId ctx st
      = (Returned (failure "User is not a member of this group"), st))
  /\ (includes (Group.admins g) (User.id u) = true ->
      includes (Group.members g) memberId = true ->
      exists g' st',
        makeGroupAdmin groupId memberId ctx st = (Returned (promoted (Some g')), st')
        /\ find (fun x => String.eqb (Group._id x) groupId) (groups st') = Some g'
        /\ Group.admins g'
           = (if includes (Group.admins g) memberId
              then Group.admins g
              else Group.admins g ++ [memberId])%list
        /\ Group.members g' = Group.members g
        /\ In memberId (Group.admins g')
        /\ makeGroupAdmin groupId memberId ctx st' = (Returned (promoted (Some g')), st')).
Proof.
  intros Hfound ctx. split; [|split].
  - exact (makeGroupAdmin_denied st groupId memberId u g Hfound).
  - exact (makeGroupAdmin_stranger st groupId memberId u g Hfound).
  - intros Hadm Hmem. destruct (includes (Group.admins g) memberId) eqn:Halready.
    + exists g, st.
      pose proof (makeGroupAdmin_already st groupId memberId u g Hfound Hadm Hmem Halready)
        as Hrun.
      repeat split; try assumption. now apply includes_In.
    + destruct (makeGroupAdmin_new st groupId memberId u g Hfound Hadm Hmem Halready)
        as (st' & Hrun & Hfound' & _).
      eexists _, st'. split; [exact Hrun|]. split; [exact Hfound'|].
      cbn [Group.admins Group.members Group.with_admins].
      split; [reflexivity|]. split; [reflexivity|].
      split; [apply in_or_app; right; now left|].
      apply (makeGroupAdmin_already st' groupId memberId u _ Hfound');
        cbn [Group.admins Group.members Group.with_admins].
      * apply includes_In. apply in_or_app. left. now apply includes_In.
      * exact Hmem.
      * apply includes_In. apply in_or_app. right. now left.
Qed.

Lemma makeGroupAdmin_promotes_witness :
  makeGroupAdmin gid1 u2 (as_user u2) (team_store 256)
  = (Returned (failure "Only admins can promote members"), team_store 256)
  /\ makeGroupAdmin gid1 u3 (as_user u1) (team_store 256)
     = (Returned (failure "User is not a member of this group"), team_store 256)
  /\ exists g' st',
      makeGroupAdmin gid1 u2 (as_user u1) (team_store 256)
      = (Returned (promoted (Some g')), st')
      /\ Group.admins g' = [u1; u2].
Proof.
  destruct (makeGroupAdmin_promotes (team_store 256) gid1 u2
              {| User.id := u2; User.name := "" |} (team 256) eq_refl) as (Hdenied & _).
  destruct (makeGroupAdmin_promotes (team_store 256) gid1 u3
              {| User.id := u1; User.name := "" |} (team 256) eq_refl) as (_ & Hstranger & _).
  destruct (makeGroupAdmin_promotes (team_store 256) gid1 u2
              {| User.id := u1; User.name := "" |} (team 256) eq_refl) as (_ & _ & Hok).
  split; [exact (Hdenied eq_refl)|]. split; [exact (Hstranger eq_refl eq_refl)|].
  destruct (Hok eq_refl eq_refl) as (g' & st' & Hrun & _ & Hadmins & _).
  exists g', st'. split; [exact Hrun | exact Hadmins].
Defined.

(** ** Updating a group *)

Lemma updateGroup_applies
    (st : Store) (groupId : Id) (n d i : option string) (u : User.t) (g : Group.t) :
  find (fun x => String.eqb (Group._id x) groupId) (groups st) = Some g ->
  includes (Group.admins g) (User.id u) = true ->
  updateGroup groupId n d i {| user := Some u |} st
  = (Returned (Some (Group.with_fields g n d i)),
     {| groups := map (fun x => if String.eqb (Group._id x) groupId
                                then Group.with_fields x n d i else x) (groups st);
        groupMessages := groupMessages st |}).
Proof.
  intros Hfound Hadm. unfold updateGroup. run. cbn [user].
  rewrite Hfound, Hadm. cbn [negb]. cbv beta match zeta.
  now rewrite (find_after_update groupId (groups st) g
                 (fun x => Group.with_fields x n d i) Hfound eq_refl).
Qed.

(** X5: updateGroup by an admin of an existing group returns and stores the
    group with exactly the supplied fields among name, description and image
    replaced (an empty string is accepted as a value), and with members,
    admins, creator, privacy flag, capacity and last-message summary as they
    were; every other group and all messages are untouched. *)
Theorem updateGroup_partial
    (st : Store) (groupId : Id) (n d i : option string) (u : User.t) (g : Group.t) :
  find (fun x => String.eqb (Group._id x) groupId) (groups st) = Some g ->
  includes (Group.admins g) (User.id u) = true ->
  exists g' st',
    updateGroup groupId n d i {| user := Some u |} st = (Returned (Some g'), st')
    /\ find (fun x => String.eqb (Group._id x) groupId) (groups st') = Some g'
    /\ Group.name g' = default (Group.name g) n
    /\ Group.description g' = default (Group.description g) d
    /\ Group.groupImage g' = default (Group.groupImage g) i
    /\ Group.members g' = Group.members g
    /\ Group.admins g' = Group.admins g
    /\ Group.createdBy g' = Group.createdBy g
    /\ Group.isPrivate g' = Group.isPrivate g
    /\ Group.maxMembers g' = Group.maxMembers g
    /\ Group.lastMessage g' = Group.lastMessage g
    /\ groupMessages st' = groupMessages st
    /\ (forall other, In other (groups st) -> Group._id other <> groupId ->
                      In other (groups st')).
Proof.
  intros Hfound Hadm. eexists _, _.
  split; [exact (updateGroup_applies st groupId n d i u g Hfound Hadm)|].
  cbn [groups groupMessages]. split.
  { exact (find_after_update groupId (groups st) g
             (fun x => Group.with_fields x n d i) Hfound eq_refl). }
  repeat split; try (now destruct n); try (now destruct d); try (now destruct i).
  intros other Hin Hne. apply in_map_iff. exists other. split; [|assumption].
  apply String.eqb_neq in Hne. now rewrite Hne.
Qed.

Lemma updateGroup_partial_witness :
  exists g' st',
    updateGroup gid1 None (Some "") None (as_user u1) (team_store 256)
    = (Returned (Some g'), st')
    /\ Group.name g' = "Team"
    /\ Group.description g' = ""
    /\ Group.members g' = [u1; u2].
Proof.
  destruct (updateGroup_partial (team_store 256) gid1 None (Some "") None
              {| User.id := u1; User.name := "" |} (team 256) eq_refl eq_refl)
    as (g' & st' & Hrun & _ & Hname & Hdesc & _ & Hmembers & _).
  exists g', st'. repeat split; assumption.
Defined.

(** ** Listing a user's groups *)

Lemma insert_updatedAt_desc_perm (g : Group.t) (l : list Group.t) :
  Permutation (insert_updatedAt_desc g l) (g :: l).
Proof.
  induction l as [|x r IH]; cbn; [reflexivity|].
  destruct (Z.leb _ _); [reflexivity|].
  rewrite IH. apply perm_swap.
Qed.

Lemma sort_updatedAt_desc_perm (l : list Group.t) :
  Permutation (sort_updatedAt_desc l) l.
Proof.
  induction l as [|g r IH]; cbn; [reflexivity|].
  rewrite insert_updatedAt_desc_perm. now constructor.
Qed.

Lemma insert_updatedAt_desc_sorted (g : Group.t) (l : list Group.t) :
  StronglySorted updated_not_before l ->
  StronglySorted updated_not_before (insert_updatedAt_desc g l).
Proof.
  induction 1 as [|x r Hr IH Hx]; cbn.
  - constructor; constructor.
  - destruct (Z.leb_spec (Group.updatedAt x) (Group.updatedAt g)) as [Hle | Hlt].
    + constructor; [now constructor|].
      constructor; [exact Hle|].
      eapply Forall_impl; [|exact Hx]. unfold updated_not_before. intros y Hy. lia.
    + constructor; [exact IH|].
      rewrite Forall_forall in *. intros y Hy.
      apply (Permutation_in _ (insert_updatedAt_desc_perm g r)) in Hy.
      destruct Hy as [<- | Hy]; [unfold updated_not_before; lia | now apply Hx].
Qed.

Lemma sort_updatedAt_desc_sorted (l : list Group.t) :
  StronglySorted updated_not_before (sort_updatedAt_desc l).
Proof.
  induction l as [|g r IH]; cbn; [constructor | now apply insert_updatedAt_desc_sorted].
Qed.

Lemma getUserGroups_In (st : Store) (userId : Id) (ctx : Context) (listing : list Group.t) :
  getUserGroups userId ctx st = (Returned listing, st) ->
  forall g, In g listing <-> In g (groups st) /\ In userId (Group.members g).
Proof.
  unfold getUserGroups. run. intros Heq g. inversion Heq; subst listing; clear Heq.
  split.
  - intros Hin. apply (Permutation_in _ (sort_updatedAt_desc_perm _)) in Hin.
    apply filter_In in Hin. now rewrite includes_In in Hin.
  - intros [Hin Hmem].
    apply (Permutation_in _ (Permutation_sym (sort_updatedAt_desc_perm _))).
    apply filter_In. now rewrite includes_In.
Qed.

(** X6: getUserGroups returns exactly the stored groups whose member list
    contains the user (each as often as it is stored), most recently updated
    first; the store is not changed, and the request context plays no part:
    anyone, with or without identity, can list the groups of any user. *)
Theorem getUserGroups_lists_memberships (st : Store) (userId : Id) (ctx : Context) :
  exists listing,
    getUserGroups userId ctx st = (Returned listing, st)
    /\ (forall g, In g listing <-> In g (groups st) /\ In userId (Group.members g))
    /\ Permutation listing
         (filter (fun g => includes (Group.members g) userId) (groups st))
    /\ StronglySorted updated_not_before listing
    /\ (forall ctx', getUserGroups userId ctx' st = (Returned listing, st)).
Proof.
  eexists. split; [reflexivity|]. split; [|split; [|split]].
  - now apply (getUserGroups_In st userId ctx).
  - apply sort_updatedAt_desc_perm.
  - apply sort_updatedAt_desc_sorted.
  - reflexivity.
Qed.

(** ** Leaving and being removed, and what follows *)

Lemma without_members (who : Id) (g : Group.t) (x : Id) :
  In x (Group.members (without who g)) <-> In x (Group.members g) /\ x <> who.
Proof.
  cbn. rewrite filter_In, negb_true_iff, String.eqb_neq. tauto.
Qed.

Lemma without_admins (who : Id) (g : Group.t) (x : Id) :
  In x (Group.admins (without who g)) <-> In x (Group.admins g) /\ x <> who.
Proof.
  cbn. rewrite filter_In, negb_true_iff, String.eqb_neq. tauto.
Qed.

Lemma saved_group_by_id (gid : Id) (g' x : Group.t) (l : list Group.t) :
  In x (map (fun y => if String.eqb (Group._id y) gid then g' else y) l) ->
  Group._id x = gid ->
  x = g'.
Proof.
  intros Hin Hid. apply in_map_iff in Hin. destruct Hin as [y [Hy _]].
  destruct (String.eqb_spec (Group._id y) gid) as [Heq | Hne]; [now symmetry|].
  subst x. contradiction.
Qed.

Section Departing.
Context `{Externals}.
Variables (st : Store) (groupId : Id) (u : User.t) (g : Group.t).
Let ctx : Context := {| user := Some u |}.
Hypothesis Hfound :
  find (fun x => String.eqb (Group._id x) groupId) (groups st) = Some g.

Lemma leaveGroup_allowed :
  Group.createdBy g <> User.id u ->
  leaveGroup groupId ctx st
  = (Returned {| success := true; message := "Left group successfully";
                 group := Some (without (User.id u) g) |},
     {| groups := map (fun x => if String.eqb (Group._id x) groupId
                                then without (User.id u) g else x) (groups st);
        groupMessages := groupMessages st |}).
Proof.
  intros Hc. unfold leaveGroup. run. unfold ctx. cbn [user]. rewrite Hfound.
  apply String.eqb_neq in Hc. rewrite Hc. cbv beta match zeta.
  pose proof (find_In_groups _ _ _ Hfound) as [_ Hid].
  cbn [groups Group._id Group.with_admins Group.with_members].
  rewrite_find_after_save Hfound Hid. rewrite Hid. reflexivity.
Qed.

Lemma removeGroupMember_allowed memberId :
  includes (Group.admins g) (User.id u) = true \/ User.id u = memberId ->
  Group.createdBy g <> memberId ->
  removeGroupMember groupId memberId ctx st
  = (Returned {| success := true; message := "Member removed successfully";
                 group := Some (without memberId g) |},
     {| groups := map (fun x => if String.eqb (Group._id x) groupId
                                then without memberId g else x) (groups st);
        groupMessages := groupMessages st |}).
Proof.
  intros Hauth Hc. unfold removeGroupMember. run. unfold ctx. cbn [user]. rewrite Hfound.
  assert (Hgate : negb (includes (Group.admins g) (User.id u))
                  && negb (String.eqb (User.id u) memberId) = false).
  { destruct Hauth as [Hadm | Hself].
    - now rewrite Hadm.
    - rewrite Hself, String.eqb_refl. apply andb_false_r. }
  rewrite Hgate. apply String.eqb_neq in Hc. rewrite Hc. cbv beta match zeta.
  pose proof (find_In_groups _ _ _ Hfound) as [_ Hid].
  cbn [groups Group._id Group.with_admins Group.with_members].
  rewrite_find_after_save Hfound Hid. rewrite Hid. reflexivity.
Qed.

(** Once [who] is filtered out of the group stored under [groupId], [who]
    can no longer send to it and no longer sees it in the group listing. *)
Lemma departed_loses_access who :
  let st' := {| groups := map (fun x => if String.eqb (Group._id x) groupId
                                        then without who g else x) (groups st);
                groupMessages := groupMessages st |} in
  find (fun x => String.eqb (Group._id x) groupId) (groups st') = Some (without who g)
  /\ (forall name content ty media replyTo newId now,
         sendGroupMessage groupId content ty media replyTo
           {| user := Some {| User.id := who; User.name := name |} |} newId now st'
         = (Thrown "Error sending group message: You are not a member of this group", st'))
  /\ (forall ctx' listing,
         getUserGroups who ctx' st' = (Returned listing, st') ->
         forall x, In x listing -> Group._id x <> groupId).
Proof.
  intros st'.
  assert (Hfound' : find (fun x => String.eqb (Group._id x) groupId) (groups st')
                    = Some (without who g)).
  { pose proof (find_In_groups _ _ _ Hfound) as [_ Hid].
    exact (find_after_save groupId groupId (groups st) g (without who g) Hfound eq_refl Hid). }
  assert (Hgone : ~ In who (Group.members (without who g))).
  { rewrite without_members. tauto. }
  split; [exact Hfound'|]. split.
  - intros name content ty media replyTo newId now.
    apply (sendGroupMessage_non_member st' groupId content ty media replyTo
             {| User.id := who; User.name := name |} newId now _ Hfound').
    cbn [User.id].
    destruct (includes (Group.members (without who g)) who) eqn:Hinc; [|reflexivity].
    apply includes_In in Hinc. contradiction.
  - intros ctx' listing Hlist x Hx Hid.
    apply (getUserGroups_In st' who ctx' listing Hlist) in Hx. destruct Hx as [Hin Hmem].
    apply (saved_group_by_id groupId (without who g) x (groups st)) in Hin; [|exact Hid].
    subst x. contradiction.
Qed.
End Departing.

Lemma filter_absent (who : Id) (l : list Id) :
  ~ In who l -> filter (fun id => negb (String.eqb id who)) l = l.
Proof.
  induction l as [|a l IH]; cbn; [reflexivity|].
  intros Hnot. destruct (String.eqb_spec a who) as [Heq | Hne].
  - exfalso. apply Hnot. now left.
  - cbn. f_equal. apply IH. intros Hin. apply Hnot. now right.
Qed.

(** X7: leaveGroup on an existing group succeeds for every authenticated
    caller other than the creator, member or not.  The stored group then has
    the caller filtered out of members and admins and everybody else kept,
    the messages are untouched, a later sendGroupMessage by the caller to
    this group throws "You are not a member of this group" without storing
    anything, and getUserGroups of the caller no longer lists the group. *)
Theorem leaveGroup_revokes_membership `{Externals}
    (st : Store) (groupId : Id) (u : User.t) (g : Group.t) :
  find (fun x => String.eqb (Group._id x) groupId) (groups st) = Some g ->
  Group.createdBy g <> User.id u ->
  exists g' st',
    leaveGroup groupId {| user := Some u |} st
    = (Returned {| success := true; message := "Left group successfully";
                   group := Some g' |}, st')
    /\ find (fun x => String.eqb (Group._id x) groupId) (groups st') = Some g'
    /\ (forall x, In x (Group.members g') <-> In x (Group.members g) /\ x <> User.id u)
    /\ (forall x, In x (Group.admins g') <-> In x (Group.admins g) /\ x <> User.id u)
    /\ groupMessages st' = groupMessages st
    /\ (forall content ty media replyTo newId now,
           sendGroupMessage groupId content ty media replyTo {| user := Some u |}
             newId now st'
           = (Thrown "Error sending group message: You are not a member of this group", st'))
    /\ (forall ctx' listing,
           getUserGroups (User.id u) ctx' st' = (Returned listing, st') ->
           forall x, In x listing -> Group._id x <> groupId).
Proof.
  intros Hfound Hc.
  destruct (departed_loses_access st groupId g Hfound (User.id u))
    as (Hfound' & Hsend & Hlist).
  eexists _, _. split; [exact (leaveGroup_allowed st groupId u g Hfound Hc)|].
  split; [exact Hfound'|].
  split; [apply without_members|]. split; [apply without_admins|].
  split; [reflexivity|]. split; [|exact Hlist].
  intros content ty media replyTo newId now.
  destruct u as [uid uname]. apply Hsend.
Qed.

Lemma leaveGroup_revokes_membership_witness :
  exists g' st',
    leaveGroup gid1 (as_user u2) (team_store 256)
    = (Returned {| success := true; message := "Left group successfully";
                   group := Some g' |}, st')
    /\ (forall x, In x (Group.members g') <-> In x [u1; u2] /\ x <> u2)
    /\ sendGroupMessage gid1 (Some "hi") None None None (as_user u2) "m1" 7%Z st'
       = (Thrown "Error sending group message: You are not a member of this group", st').
Proof.
  assert (Hother : Group.createdBy (team 256) <> u2) by discriminate.
  destruct (@leaveGroup_revokes_membership sample_externals (team_store 256) gid1
              {| User.id := u2; User.name := "" |} (team 256) eq_refl Hother)
    as (g' & st' & Hrun & _ & Hmembers & _ & _ & Hsend & _).
  exists g', st'. split; [exact Hrun|]. split; [exact Hmembers | apply Hsend].
Defined.

(** X8: after a removeGroupMember that is allowed (the actor is an admin or
    removes themself, and the target is not the creator) the stored group has
    exactly the other members and admins; a target who was not a member
    leaves the member list as it was (the call still succeeds).  The removed
    user's next sendGroupMessage to the group throws "You are not a member of
    this group" and stores nothing, and their getUserGroups no longer lists
    the group. *)
Theorem removeGroupMember_revokes_membership `{Externals}
    (st : Store) (groupId memberId : Id) (u : User.t) (g : Group.t) :
  find (fun x => String.eqb (Group._id x) groupId) (groups st) = Some g ->
  includes (Group.admins g) (User.id u) = true \/ User.id u = memberId ->
  Group.createdBy g <> memberId ->
  exists g' st',
    removeGroupMember groupId memberId {| user := Some u |} st
    = (Returned {| success := true; message := "Member removed successfully";
                   group := Some g' |}, st')
    /\ find (fun x => String.eqb (Group._id x) groupId) (groups st') = Some g'
    /\ (forall x, In x (Group.members g') <-> In x (Group.members g) /\ x <> memberId)
    /\ (forall x, In x (Group.admins g') <-> In x (Group.admins g) /\ x <> memberId)
    /\ (~ In memberId (Group.members g) -> Group.members g' = Group.members g)
    /\ groupMessages st' = groupMessages st
    /\ (forall name content ty media replyTo newId now,
           sendGroupMessage groupId content ty media replyTo
             {| user := Some {| User.id := memberId; User.name := name |} |} newId now st'
           = (Thrown "Error sending group message: You are not a member of this group", st'))
    /\ (forall ctx' listing,
           getUserGroups memberId ctx' st' = (Returned listing, st') ->
           forall x, In x listing -> Group._id x <> groupId).
Proof.
  intros Hfound Hauth Hc.
  destruct (departed_loses_access st groupId g Hfound memberId)
    as (Hfound' & Hsend & Hlist).
  eexists _, _.
  split; [exact (removeGroupMember_allowed st groupId u g Hfound memberId Hauth Hc)|].
  split; [exact Hfound'|].
  split; [apply without_members|]. split; [apply without_admins|].
  split; [intros Habsent; cbn; now apply filter_absent|].
  split; [reflexivity|]. split; [exact Hsend | exact Hlist].
Qed.

Lemma removeGroupMember_revokes_membership_witness :
  exists g' st',
    removeGroupMember gid1 u2 (as_user u1) (team_store 256)
    = (Returned {| success := true; message := "Member removed successfully";
                   group := Some g' |}, st')
    /\ (forall x, In x (Group.members g') <-> In x [u1; u2] /\ x <> u2)
    /\ sendGroupMessage gid1 (Some "hi") None None None (as_user u2) "m1" 7%Z st'
       = (Thrown "Error sending group message: You are not a member of this group", st').
Proof.
  assert (Hother : Group.createdBy (team 256) <> u2) by discriminate.
  destruct (@removeGroupMember_revokes_membership sample_externals (team_store 256) gid1 u2
              {| User.id := u1; User.name := "" |} (team 256) eq_refl
              (or_introl eq_refl) Hother)
    as (g' & st' & Hrun & _ & Hmembers & _ & _ & _ & Hsend & _).
  exists g', st'. split; [exact Hrun|]. split; [exact Hmembers | apply Hsend].
Defined.

(** ** Sending, then listing *)

Lemma sort_newest_appended (m : GroupMessage.t) (l : list GroupMessage.t) :
  (forall x, In x l -> (GroupMessage.createdAt x < GroupMessage.createdAt m)%Z) ->
  sort_createdAt_desc (l ++ [m]) = m :: sort_createdAt_desc l.
Proof.
  induction l as [|x l IH]; cbn; [reflexivity|].
  intros Holder. rewrite IH by (intros y Hy; apply Holder; now right). cbn.
  specialize (Holder x (or_introl eq_refl)).
  destruct (Z.leb_spec (GroupMessage.createdAt m) (GroupMessage.createdAt x)); [lia|].
  reflexivity.
Qed.

Lemma page_ends_with_newest (m : GroupMessage.t) (older : list GroupMessage.t) (limit : nat) :
  exists earlier,
    rev (cursor_limit limit (cursor_skip 0 (m :: older))) = (earlier ++ [m])%list
    /\ (forall x, In x earlier -> In x older).
Proof.
  unfold cursor_skip. cbn [skipn].
  destruct limit as [|k]; cbn [cursor_limit firstn rev].
  - exists (rev older). split; [reflexivity|]. intros x Hx. now apply in_rev.
  - exists (rev (firstn k older)). split; [reflexivity|].
    intros x Hx. apply in_rev in Hx.
    rewrite <- (firstn_skipn k older). apply in_or_app. now left.
Qed.

(** X9: when a member sends a message that the schema accepts (well-formed
    identifiers of the group and of the sender, no media, a reply target that
    is absent or a well-formed identifier, a type of the enumeration), under
    a fresh identifier and at a time later
    than every stored message of the group, the message is stored under that
    identifier with its content trimmed, and the very next getGroupMessages of
    the group, from the first page and with any limit, ends with that message;
    the messages before it are messages that were stored already. *)
Theorem sent_message_is_listed_last `{Externals}
    (st : Store) (groupId : Id) (content ty : option string)
    (media : option Media) (replyTo : option Id)
    (u : User.t) (newId : Id) (now : Z) (g : Group.t) :
  find (fun x => String.eqb (Group._id x) groupId) (groups st) = Some g ->
  includes (Group.members g) (User.id u) = true ->
  ObjectId_isValid groupId = true ->
  ObjectId_isValid (User.id u) = true ->
  media = None ->
  (forall r, replyTo = Some r -> ObjectId_isValid r = true) ->
  In (default "text" ty) messageType_enum ->
  existsb (fun m => String.eqb (GroupMessage._id m) newId) (groupMessages st) = false ->
  (forall m, In m (groupMessages st) -> GroupMessage.group m = groupId ->
             (GroupMessage.createdAt m < now)%Z) ->
  exists message st',
    sendGroupMessage groupId content ty media replyTo {| user := Some u |} newId now st
    = (Returned (Some message), st')
    /\ GroupMessage._id message = newId
    /\ GroupMessage.sender message = User.id u
    /\ GroupMessage.content message = option_map js_trim content
    /\ forall limit ctx',
        exists earlier,
          getGroupMessages groupId limit None ctx' st'
          = (Returned (earlier ++ [message])%list, st')
          /\ (forall x, In x earlier -> In x (groupMessages st)).
Proof.
  intros Hfound Hmember Hgid Huid Hmedia Hreply Htype Hfresh Hclock.
  destruct (sendGroupMessage_member st groupId content ty media replyTo u newId now g
              Hfound Hmember Hgid Huid Hmedia Hreply Htype Hfresh)
    as (st' & Hrun & Hmsgs & _).
  eexists _, st'. split; [exact Hrun|]. do 3 (split; [reflexivity|]).
  intros limit ctx'. unfold getGroupMessages. run. rewrite Hmsgs.
  rewrite filter_app. cbn [filter]. unfold group_query at 2.
  cbn [GroupMessage.group GroupMessage.isDeleted groupMessageSchema_document new_group].
  rewrite String.eqb_refl. cbn [negb andb].
  rewrite sort_newest_appended.
  - cbn [default].
    destruct (page_ends_with_newest
                (groupMessageSchema_document
                   {| new_group := groupId; new_sender := User.id u;
                      new_content := content; new_messageType := default "text" ty;
                      new_media := media; new_replyTo := replyTo |} newId now)
                (sort_createdAt_desc (filter (group_query groupId) (groupMessages st)))
                (default 50 limit)) as (earlier & Hpage & Hearlier).
    exists earlier. rewrite Hpage. split; [reflexivity|].
    intros x Hx. apply Hearlier in Hx.
    apply (Permutation_in _ (sort_createdAt_desc_perm _)) in Hx.
    now apply filter_In in Hx.
  - intros x Hx. apply filter_In in Hx. destruct Hx as [Hin Hq].
    cbn [GroupMessage.createdAt groupMessageSchema_document]. apply Hclock; [assumption|].
    unfold group_query in Hq. apply andb_true_iff in Hq. destruct Hq as [Hg _].
    now apply String.eqb_eq.
Qed.

Lemma sent_message_is_listed_last_witness :
  exists message st' earlier,
    sendGroupMessage gid1 (Some " bye ") None None None (as_user u2) "m9" 10%Z five_messages
    = (Returned (Some message), st')
    /\ GroupMessage.content message = Some "bye"
    /\ getGroupMessages gid1 (Some 2) None anonymous st'
       = (Returned (earlier ++ [message])%list, st').
Proof.
  assert (Hclock : forall m, In m (groupMessages five_messages) ->
                             GroupMessage.group m = gid1 ->
                             (GroupMessage.createdAt m < 10)%Z).
  { intros m Hin _. cbn in Hin.
    repeat (destruct Hin as [<- | Hin]; [reflexivity|]). destruct Hin. }
  assert (Htype : In (default "text" None) messageType_enum) by (now left).
  assert (Hreply : forall r, @None Id = Some r -> ObjectId_isValid r = true)
    by discriminate.
  destruct (@sent_message_is_listed_last sample_externals five_messages gid1
              (Some " bye ") None None None
              {| User.id := u2; User.name := "" |} "m9" 10%Z (team 256)
              eq_refl eq_refl eq_refl eq_refl eq_refl Hreply Htype eq_refl Hclock)
    as (message & st' & Hrun & _ & _ & Hcontent & Hpage).
  destruct (Hpage (Some 2) anonymous) as (earlier & Hlist & _).
  exists message, st', earlier. repeat split; assumption.
Defined.

(** ** The creator stays in the group *)

Lemma creator_inside_without (who : Id) (g : Group.t) :
  creator_inside g -> Group.createdBy g <> who -> creator_inside (without who g).
Proof.
  intros [Hm Ha] Hne. split.
  - apply without_members. now split.
  - apply without_admins. now split.
Qed.

Section CreatorInside.
Context `{Externals}.
Variable st : Store.
Hypothesis Hinv : Forall creator_inside (groups st).

Lemma found_creator_inside gid g :
  find (fun x => String.eqb (Group._id x) gid) (groups st) = Some g -> creator_inside g.
Proof.
  intros Hf. apply find_In_groups in Hf. destruct Hf as [Hin _].
  rewrite Forall_forall in Hinv. now apply Hinv.
Qed.

Lemma createGroup_creator_inside input ctx newId now :
  Forall creator_inside (groups (snd (createGroup input ctx newId now st))).
Proof.
  unfold createGroup. run.
  destruct (user ctx) as [u|]; [|exact Hinv].
  destruct (negb (truthy (Some (User.id u)))); [exact Hinv|].
  destruct (negb (truthy (in_name input)) || _); [exact Hinv|].
  destruct (in_members input) as [[|m ms]|]; [exact Hinv| |exact Hinv].
  destruct (0 <? _)%nat; [exact Hinv|].
  destruct (in_groupImage input) as [[url|]|]; cbn;
    try exact Hinv;
    (destruct (existsb _ (groups st)); cbn; [exact Hinv|];
     apply Forall_app; split; [exact Hinv|];
     constructor; [|constructor];
     split; cbn; now left).
Qed.

Lemma sendGroupMessage_creator_inside gid content ty media replyTo ctx newId now :
  Forall creator_inside
    (groups (snd (sendGroupMessage gid content ty media replyTo ctx newId now st))).
Proof.
  destruct (sendGroupMessage_store gid content ty media replyTo ctx newId now st)
    as [Hsame | (u & m & _ & _ & _ & Hst)]; [now rewrite Hsame|].
  rewrite Hst. cbn [groups].
  apply (Forall_map_replace creator_inside
           (fun x => String.eqb (Group._id x) gid)
           (fun x => Group.with_lastMessage x _ now)); [exact Hinv|].
  intros x Hx _. rewrite Forall_forall in Hinv. exact (Hinv x Hx).
Qed.

Lemma addGroupMembers_creator_inside gid memberIds ctx :
  Forall creator_inside (groups (snd (addGroupMembers gid memberIds ctx st))).
Proof.
  unfold addGroupMembers. run.
  destruct (user ctx) as [u|]; [|exact Hinv].
  destruct (find _ (groups st)) as [g|] eqn:Hg; [|exact Hinv].
  destruct (negb (includes (Group.admins g) (User.id u))); [exact Hinv|].
  destruct (Z.ltb _ _); [exact Hinv|]. cbn.
  apply (Forall_map_replace creator_inside
           (fun x => String.eqb (Group._id x) (Group._id g)) (fun _ => _));
    [exact Hinv|].
  intros _ _ _. destruct (found_creator_inside _ _ Hg) as [Hm Ha].
  split; cbn; [apply in_or_app; now left | exact Ha].
Qed.

Lemma removeGroupMember_creator_inside gid memberId ctx :
  Forall creator_inside (groups (snd (removeGroupMember gid memberId ctx st))).
Proof.
  unfold removeGroupMember. run.
  destruct (user ctx) as [u|]; [|exact Hinv].
  destruct (find _ (groups st)) as [g|] eqn:Hg; [|exact Hinv].
  destruct (negb _ && negb _); [exact Hinv|].
  destruct (String.eqb_spec (Group.createdBy g) memberId) as [Hc | Hc]; [exact Hinv|]. cbn.
  apply (Forall_map_replace creator_inside
           (fun x => String.eqb (Group._id x) (Group._id g)) (fun _ => _));
    [exact Hinv|].
  intros _ _ _. apply (creator_inside_without memberId g); [|exact Hc].
  now apply (found_creator_inside _ _ Hg).
Qed.

Lemma leaveGroup_creator_inside gid ctx :
  Forall creator_inside (groups (snd (leaveGroup gid ctx st))).
Proof.
  unfold leaveGroup. run.
  destruct (user ctx) as [u|]; [|exact Hinv].
  destruct (find _ (groups st)) as [g|] eqn:Hg; [|exact Hinv].
  destruct (String.eqb_spec (Group.createdBy g) (User.id u)) as [Hc | Hc]; [exact Hinv|]. cbn.
  apply (Forall_map_replace creator_inside
           (fun x => String.eqb (Group._id x) (Group._id g)) (fun _ => _));
    [exact Hinv|].
  intros _ _ _. apply (creator_inside_without (User.id u) g); [|exact Hc].
  now apply (found_creator_inside _ _ Hg).
Qed.

Lemma updateGroup_creator_inside gid n d i ctx :
  Forall creator_inside (groups (snd (updateGroup gid n d i ctx st))).
Proof.
  unfold updateGroup. run.
  destruct (user ctx) as [u|]; [|exact Hinv].
  destruct (find _ (groups st)) as [g|]; [|exact Hinv].
  destruct (negb (includes (Group.admins g) (User.id u))); [exact Hinv|]. cbn.
  apply (Forall_map_replace creator_inside
           (fun x => String.eqb (Group._id x) gid)
           (fun x => Group.with_fields x n d i)); [exact Hinv|].
  intros x Hx _. rewrite Forall_forall in Hinv. exact (Hinv x Hx).
Qed.

Lemma deleteGroup_creator_inside gid ctx :
  Forall creator_inside (groups (snd (deleteGroup gid ctx st))).
Proof.
  unfold deleteGroup. run.
  destruct (user ctx) as [u|]; [|exact Hinv].
  destruct (find _ (groups st)) as [g|]; [|exact Hinv].
  destruct (negb (String.eqb (Group.createdBy g) (User.id u))); [exact Hinv|]. cbn.
  now apply Forall_kept.
Qed.

Lemma makeGroupAdmin_creator_inside gid memberId ctx :
  Forall creator_inside (groups (snd (makeGroupAdmin gid memberId ctx st))).
Proof.
  unfold makeGroupAdmin. run.
  destruct (user ctx) as [u|]; [|exact Hinv].
  destruct (find _ (groups st)) as [g|] eqn:Hg; [|exact Hinv].
  destruct (negb (includes (Group.admins g) (User.id u))); [exact Hinv|].
  destruct (includes (Group.members g) memberId) eqn:Hmem; [|exact Hinv].
  destruct (negb (includes (Group.admins g) memberId)); [|exact Hinv]. cbn.
  apply (Forall_map_replace creator_inside
           (fun x => String.eqb (Group._id x) (Group._id g)) (fun _ => _));
    [exact Hinv|].
  intros _ _ _. destruct (found_creator_inside _ _ Hg) as [Hm Ha].
  split; cbn; [exact Hm | apply in_or_app; now left].
Qed.
End CreatorInside.

(** X10: in every store the resolvers can reach from the empty collections,
    the creator of each group is one of its members and one of its admins:
    createGroup puts the creator in both lists, removeGroupMember and
    leaveGroup refuse to take the creator out, and no other mutation removes
    anyone. *)
Theorem creator_stays_member_and_admin `{Externals} (st : Store) :
  reachable st ->
  Forall creator_inside (groups st).
Proof.
  induction 1 as [|st st' Hreach IH Hstep]; [constructor|].
  destruct Hstep.
  - now apply createGroup_creator_inside.
  - now apply sendGroupMessage_creator_inside.
  - now apply addGroupMembers_creator_inside.
  - now apply removeGroupMember_creator_inside.
  - now apply leaveGroup_creator_inside.
  - now apply updateGroup_creator_inside.
  - now apply deleteGroup_creator_inside.
  - now apply makeGroupAdmin_creator_inside.
  - now rewrite markGroupMessageAsRead_groups.
Qed.

Lemma chat_store_reachable : reachable chat_store.
Proof.
  unfold chat_store.
  eapply reachable_step; [|apply step_sendGroupMessage].
  eapply reachable_step; [|apply step_createGroup].
  apply reachable_empty.
Defined.

Lemma creator_stays_member_and_admin_witness :
  reachable chat_store /\ Forall creator_inside (groups chat_store).
Proof.
  split; [exact chat_store_reachable|].
  exact (creator_stays_member_and_admin chat_store chat_store_reachable).
Defined.

(** ** One document per identifier *)

Lemma keys_after_replace {A} (key : A -> Id) (sel : A -> bool) (f : A -> A) (l : list A) :
  (forall x, sel x = true -> key (f x) = key x) ->
  map key (map (fun x => if sel x then f x else x) l) = map key l.
Proof.
  intros Hkey. induction l as [|a l IH]; cbn; [reflexivity|].
  rewrite IH. f_equal. destruct (sel a) eqn:Ha; [now apply Hkey | reflexivity].
Qed.

Lemma key_is_fresh {A} (key : A -> Id) (k : Id) (l : list A) :
  existsb (fun x => String.eqb (key x) k) l = false -> ~ In k (map key l).
Proof.
  intros Hfresh Hin. apply in_map_iff in Hin. destruct Hin as [x [Hk Hx]].
  assert (Hex : existsb (fun x => String.eqb (key x) k) l = true).
  { apply existsb_exists. exists x. split; [assumption | now apply String.eqb_eq]. }
  congruence.
Qed.

Lemma keys_unique_appended {A} (key : A -> Id) (a : A) (l : list A) :
  NoDup (map key l) ->
  existsb (fun x => String.eqb (key x) (key a)) l = false ->
  NoDup (map key (l ++ [a])).
Proof.
  intros Hnd Hfresh. rewrite map_app. cbn.
  apply (Permutation_NoDup (Permutation_cons_append _ _)).
  constructor; [now apply key_is_fresh | assumption].
Qed.

Lemma keys_unique_kept {A} (key : A -> Id) (keep : A -> bool) (l : list A) :
  NoDup (map key l) -> NoDup (map key (filter keep l)).
Proof.
  induction l as [|a l IH]; cbn; [trivial|].
  intros Hnd. apply NoDup_cons_iff in Hnd. destruct Hnd as [Ha Hnd].
  destruct (keep a); cbn; [|now apply IH].
  constructor; [|now apply IH].
  intros Hin. apply Ha. apply in_map_iff in Hin. destruct Hin as [x [Hk Hx]].
  apply filter_In in Hx. apply in_map_iff. exists x. now split.
Qed.

Section IdsUnique.
Context `{Externals}.
Variable st : Store.
Hypothesis Hgroups : NoDup (map Group._id (groups st)).
Hypothesis Hmessages : NoDup (map GroupMessage._id (groupMessages st)).

Let Hinv : ids_unique st := conj Hgroups Hmessages.

Lemma createGroup_ids_unique input ctx newId now :
  ids_unique (snd (createGroup input ctx newId now st)).
Proof.
  unfold createGroup. run.
  destruct (user ctx) as [u|]; [|exact Hinv].
  destruct (negb (truthy (Some (User.id u)))); [exact Hinv|].
  destruct (negb (truthy (in_name input)) || _); [exact Hinv|].
  destruct (in_members input) as [[|m ms]|]; [exact Hinv| |exact Hinv].
  destruct (0 <? _)%nat; [exact Hinv|].
  destruct (in_groupImage input) as [[url|]|]; cbn;
    try exact Hinv;
    (destruct (existsb _ (groups st)) eqn:Hfresh; cbn; [exact Hinv|];
     split; cbn; [|exact Hmessages];
     now apply keys_unique_appended).
Qed.

Lemma sendGroupMessage_ids_unique gid content ty media replyTo ctx newId now :
  ids_unique (snd (sendGroupMessage gid content ty media replyTo ctx newId now st)).
Proof.
  destruct (sendGroupMessage_store gid content ty media replyTo ctx newId now st)
    as [Hsame | (u & m & _ & Hcast & Hfresh & Hst)]; [now rewrite Hsame|].
  rewrite Hst. split; cbn [groups groupMessages].
  - rewrite (keys_after_replace Group._id (fun x => String.eqb (Group._id x) gid)
               (fun x => Group.with_lastMessage x _ now)); [exact Hgroups | reflexivity].
  - apply keys_unique_appended; [exact Hmessages|].
    apply schema_accepts in Hcast. destruct Hcast as (-> & _). exact Hfresh.
Qed.

Lemma addGroupMembers_ids_unique gid memberIds ctx :
  ids_unique (snd (addGroupMembers gid memberIds ctx st)).
Proof.
  unfold addGroupMembers. run.
  destruct (user ctx) as [u|]; [|exact Hinv].
  destruct (find _ (groups st)) as [g|]; [|exact Hinv].
  destruct (negb (includes (Group.admins g) (User.id u))); [exact Hinv|].
  destruct (Z.ltb _ _); [exact Hinv|]. cbn.
  split; cbn; [|exact Hmessages].
  rewrite (keys_after_replace Group._id
             (fun x => String.eqb (Group._id x) (Group._id g)) (fun _ => _));
    [exact Hgroups|].
  intros x Hx. symmetry. now apply String.eqb_eq.
Qed.

Lemma removeGroupMember_ids_unique gid memberId ctx :
  ids_unique (snd (removeGroupMember gid memberId ctx st)).
Proof.
  unfold removeGroupMember. run.
  destruct (user ctx) as [u|]; [|exact Hinv].
  destruct (find _ (groups st)) as [g|]; [|exact Hinv].
  destruct (negb _ && negb _); [exact Hinv|].
  destruct (String.eqb (Group.createdBy g) memberId); [exact Hinv|]. cbn.
  split; cbn; [|exact Hmessages].
  rewrite (keys_after_replace Group._id
             (fun x => String.eqb (Group._id x) (Group._id g)) (fun _ => _));
    [exact Hgroups|].
  intros x Hx. symmetry. now apply String.eqb_eq.
Qed.

Lemma leaveGroup_ids_unique gid ctx :
  ids_unique (snd (leaveGroup gid ctx st)).
Proof.
  unfold leaveGroup. run.
  destruct (user ctx) as [u|]; [|exact Hinv].
  destruct (find _ (groups st)) as [g|]; [|exact Hinv].
  destruct (String.eqb (Group.createdBy g) (User.id u)); [exact Hinv|]. cbn.
  split; cbn; [|exact Hmessages].
  rewrite (keys_after_replace Group._id
             (fun x => String.eqb (Group._id x) (Group._id g)) (fun _ => _));
    [exact Hgroups|].
  intros x Hx. symmetry. now apply String.eqb_eq.
Qed.

Lemma updateGroup_ids_unique gid n d i ctx :
  ids_unique (snd (updateGroup gid n d i ctx st)).
Proof.
  unfold updateGroup. run.
  destruct (user ctx) as [u|]; [|exact Hinv].
  destruct (find _ (groups st)) as [g|]; [|exact Hinv].
  destruct (negb (includes (Group.admins g) (User.id u))); [exact Hinv|]. cbn.
  split; cbn; [|exact Hmessages].
  rewrite (keys_after_replace Group._id (fun x => String.eqb (Group._id x) gid)
             (fun x => Group.with_fields x n d i)); [exact Hgroups | reflexivity].
Qed.

Lemma deleteGroup_ids_unique gid ctx :
  ids_unique (snd (deleteGroup gid ctx st)).
Proof.
  unfold deleteGroup. run.
  destruct (user ctx) as [u|]; [|exact Hinv].
  destruct (find _ (groups st)) as [g|]; [|exact Hinv].
  destruct (negb (String.eqb (Group.createdBy g) (User.id u))); [exact Hinv|]. cbn.
  split; cbn; now apply keys_unique_kept.
Qed.

Lemma makeGroupAdmin_ids_unique gid memberId ctx :
  ids_unique (snd (makeGroupAdmin gid memberId ctx st)).
Proof.
  unfold makeGroupAdmin. run.
  destruct (user ctx) as [u|]; [|exact Hinv].
  destruct (find _ (groups st)) as [g|]; [|exact Hinv].
  destruct (negb (includes (Group.admins g) (User.id u))); [exact Hinv|].
  destruct (includes (Group.members g) memberId); [|exact Hinv].
  destruct (negb (includes (Group.admins g) memberId)); [|exact Hinv]. cbn.
  split; cbn; [|exact Hmessages].
  rewrite (keys_after_replace Group._id
             (fun x => String.eqb (Group._id x) (Group._id g)) (fun _ => _));
    [exact Hgroups|].
  intros x Hx. symmetry. now apply String.eqb_eq.
Qed.

Lemma markGroupMessageAsRead_ids_unique mid ctx now :
  ids_unique (snd (markGroupMessageAsRead mid ctx now st)).
Proof.
  unfold markGroupMessageAsRead. run.
  destruct (user ctx) as [u|]; [|exact Hinv].
  destruct (find _ (groupMessages st)) as [m|]; [|exact Hinv].
  cbv beta match zeta.
  destruct (negb _); cbv beta match zeta; [|exact Hinv]. cbn.
  split; cbn; [exact Hgroups|].
  rewrite (keys_after_replace GroupMessage._id
             (fun x => String.eqb (GroupMessage._id x) (GroupMessage._id m)) (fun _ => _));
    [exact Hmessages|].
  intros x Hx. symmetry. now apply String.eqb_eq.
Qed.
End IdsUnique.

(** X11: in every store the resolvers can reach from the empty collections,
    no two groups share an identifier and no two messages do: create refuses
    an identifier that is taken, save and update keep identifiers, delete
    only removes documents.  So the group or message a resolver finds by
    identifier is the only one with that identifier. *)
Theorem identifiers_stay_unique `{Externals} (st : Store) :
  reachable st ->
  ids_unique st
  /\ (forall gid g other,
         find (fun x => String.eqb (Group._id x) gid) (groups st) = Some g ->
         In other (groups st) -> Group._id other = gid -> other = g).
Proof.
  intros Hreach.
  assert (Hids : ids_unique st).
  { induction Hreach as [|st st' Hreach [Hg Hm] Hstep]; [split; constructor|].
    destruct Hstep.
    - now apply createGroup_ids_unique.
    - now apply sendGroupMessage_ids_unique.
    - now apply addGroupMembers_ids_unique.
    - now apply removeGroupMember_ids_unique.
    - now apply leaveGroup_ids_unique.
    - now apply updateGroup_ids_unique.
    - now apply deleteGroup_ids_unique.
    - now apply makeGroupAdmin_ids_unique.
    - now apply markGroupMessageAsRead_ids_unique. }
  split; [exact Hids|].
  intros gid g other Hfind Hin Hid. destruct Hids as [Hg _].
  apply find_In_groups in Hfind. destruct Hfind as [Hgin Hgid].
  clear Hreach. induction (groups st) as [|a l IH]; [contradiction|].
  cbn in Hg. apply NoDup_cons_iff in Hg. destruct Hg as [Ha Hl].
  destruct Hin as [<- | Hin], Hgin as [<- | Hgin]; try reflexivity.
  - exfalso. apply Ha. apply in_map_iff. exists g. split; [congruence | assumption].
  - exfalso. apply Ha. apply in_map_iff. exists other. split; [congruence | assumption].
  - now apply IH.
Qed.

Lemma identifiers_stay_unique_witness :
  reachable chat_store /\ ids_unique chat_store.
Proof.
  split; [exact chat_store_reachable|].
  exact (proj1 (identifiers_stay_unique chat_store chat_store_reachable)).
Defined.

(** ** The member list after adding and after creating *)

(** X12: a successful addGroupMembers keeps the existing members in place
    and appends after them; the new list contains exactly the old members and
    the requested identifiers, and the admins are unchanged.  The new list is
    free of repetitions exactly when the old one was and no identifier that
    is new to the group is requested twice: repetitions inside the request
    are not dropped. *)
Theorem addGroupMembers_member_list `{Externals}
    (st : Store) (groupId : Id) (u : User.t) (g : Group.t) (memberIds : list Id) :
  find (fun x => String.eqb (Group._id x) groupId) (groups st) = Some g ->
  includes (Group.admins g) (User.id u) = true ->
  (Z.of_nat (List.length (Group.members g) + List.length memberIds) <= Group.maxMembers g)%Z ->
  exists g' st' added,
    fst (addGroupMembers groupId memberIds {| user := Some u |} st)
    = Returned {| success := true;
                  message := string_of_nat (List.length added) ++ " members added successfully";
                  group := Some g' |}
    /\ snd (addGroupMembers groupId memberIds {| user := Some u |} st) = st'
    /\ find (fun x => String.eqb (Group._id x) groupId) (groups st') = Some g'
    /\ Group.members g' = (Group.members g ++ added)%list
    /\ (forall x, In x (Group.members g') <-> In x (Group.members g) \/ In x memberIds)
    /\ Group.admins g' = Group.admins g
    /\ (NoDup (Group.members g') <->
        NoDup (Group.members g)
        /\ NoDup (filter (fun id => negb (includes (Group.members g) id)) memberIds)).
Proof.
  intros Hfound Hadmin Hfit.
  destruct (addGroupMembers_within_capacity st groupId u g memberIds Hfound Hadmin Hfit)
    as (st' & Hrun & Hfound' & _).
  set (added := filter (fun id => negb (includes (Group.members g) id)) memberIds) in *.
  exists (Group.with_members g (Group.members g ++ added)), st', added.
  rewrite Hrun. cbn [fst snd Group.members Group.admins Group.with_members].
  split; [reflexivity|]. split; [reflexivity|]. split; [exact Hfound'|].
  split; [reflexivity|]. split; [|split; [reflexivity|]].
  - intros x. rewrite in_app_iff. unfold added. rewrite filter_In. split.
    + intros [Hx | [Hx _]]; auto.
    + intros [Hx | Hx]; [now left|].
      destruct (includes (Group.members g) x) eqn:Hinc.
      * left. now apply includes_In.
      * right. now split.
  - split.
    + intros Hnd. split; [exact (NoDup_app_remove_r _ _ Hnd) | exact (NoDup_app_remove_l _ _ Hnd)].
    + intros [Hold Hnew]. apply NoDup_app; [assumption | assumption|].
      intros a Ha Hadded. unfold added in Hadded. apply filter_In in Hadded.
      destruct Hadded as [_ Hout]. apply negb_true_iff in Hout.
      apply includes_In in Ha. congruence.
Qed.

Lemma addGroupMembers_member_list_witness :
  exists g' st' added,
    fst (addGroupMembers gid1 [u3; u2; u3] (as_user u1) (team_store 256))
    = Returned {| success := true;
                  message := string_of_nat (List.length added) ++ " members added successfully";
                  group := Some g' |}
    /\ snd (addGroupMembers gid1 [u3; u2; u3] (as_user u1) (team_store 256)) = st'
    /\ Group.members g' = ([u1; u2] ++ added)%list
    /\ ~ NoDup (Group.members g').
Proof.
  assert (Hfit : (Z.of_nat (List.length (Group.members (team 256)) + List.length [u3; u2; u3])
                  <= Group.maxMembers (team 256))%Z) by discriminate.
  destruct (addGroupMembers_member_list (team_store 256) gid1
              {| User.id := u1; User.name := "" |} (team 256) [u3; u2; u3]
              eq_refl eq_refl Hfit)
    as (g' & st' & added & Hrun & Hst & _ & Hmembers & _ & _ & Hnodup).
  exists g', st', added. split; [exact Hrun|]. split; [exact Hst|].
  split; [exact Hmembers|].
  intros Hnd. apply Hnodup in Hnd. destruct Hnd as [_ Hnew]. cbn in Hnew.
  apply NoDup_cons_iff in Hnew. destruct Hnew as [Hhead _]. apply Hhead. now left.
Defined.

Section CreatedGroup.
Context `{Externals}.
Variables (st : Store) (input : CreateGroupInput) (u : User.t) (newId : Id) (now : Z).
Variables (n : string) (ms : list Id).
Hypothesis Hauthenticated : User.id u <> "".
Hypothesis Hname : in_name input = Some n.
Hypothesis Hnamed : n <> "".
Hypothesis Htrim : js_trim n <> "".
Hypothesis Hmembers : in_members input = Some ms.
Hypothesis Hnonempty : ms <> [].
Hypothesis Hvalid : forall x, In x ms -> ObjectId_isValid x = true.
Hypothesis Himage : in_groupImage input <> Some UploadFailed.
Hypothesis Hfresh :
  existsb (fun x => String.eqb (Group._id x) newId) (groups st) = false.

Lemma createGroup_fields :
  exists g,
    createGroup input {| user := Some u |} newId now st
    = (Returned (Some g),
       {| groups := groups st ++ [g]; groupMessages := groupMessages st |})
    /\ Group._id g = newId
    /\ Group.name g = n
    /\ Group.members g = set_of (User.id u :: ms)
    /\ Group.admins g = [User.id u]
    /\ Group.isPrivate g = default false (in_isPrivate input)
    /\ Group.maxMembers g
       = match in_maxMembers input with
         | Some k => if (k =? 0)%Z then 256%Z else k
         | None => 256%Z
         end
    /\ Group.lastMessage g = None.
Proof.
  assert (Hid : negb (truthy (Some (User.id u))) = false)
    by (destruct (User.id u); [congruence | reflexivity]).
  assert (Hblank : negb (truthy (in_name input))
                   || (String.length (js_trim (default "" (in_name input))) =? 0)%nat
                   = false).
  { rewrite Hname. cbn [default]. apply orb_false_iff. split.
    - destruct n; [congruence | reflexivity].
    - destruct (String.length (js_trim n) =? 0)%nat eqn:Hlen; [|reflexivity].
      apply trim_blank_length in Hlen. congruence. }
  pose proof (proj2 (no_invalid_members ms) Hvalid) as Hnone.
  unfold createGroup. run. cbn [user].
  rewrite Hid. cbv beta match zeta.
  rewrite Hblank. cbv beta match zeta.
  rewrite Hmembers. destruct ms as [|m ms']; [congruence|].
  rewrite Hnone. cbv beta match zeta.
  destruct (in_groupImage input) as [[url|]|]; try congruence;
    cbn [Group._id]; rewrite Hfresh; cbv beta match zeta; cbn [groups Group._id];
    (rewrite find_appended; [|exact Hfresh|apply String.eqb_refl]);
    eexists; (split; [reflexivity|]); cbn; rewrite Hname; now repeat split.
Qed.
End CreatedGroup.

Lemma set_of_length (l : list Id) : List.length (set_of l) <= List.length l.
Proof.
  induction l as [|a l IH]; cbn; [lia|].
  apply le_n_S. eapply Nat.le_trans; [|exact IH].
  apply filter_length_le.
Qed.

(** X13: createGroup stores the requested capacity, or 256 when none or 0 is
    requested, and never compares it with the members it stores: for a valid
    request the member count of the created group is the number of distinct
    identifiers among the creator and the supplied members, at least 1 and at
    most one more than the number supplied, whatever the capacity; a positive
    capacity below that count yields a group that is over capacity from the
    start. *)
Theorem createGroup_capacity_unchecked `{Externals}
    (st : Store) (input : CreateGroupInput) (u : User.t) (newId : Id) (now : Z)
    (n : string) (ms : list Id) :
  User.id u <> "" ->
  in_name input = Some n ->
  n <> "" ->
  js_trim n <> "" ->
  in_members input = Some ms ->
  ms <> [] ->
  (forall x, In x ms -> ObjectId_isValid x = true) ->
  in_groupImage input <> Some UploadFailed ->
  existsb (fun x => String.eqb (Group._id x) newId) (groups st) = false ->
  exists g st',
    createGroup input {| user := Some u |} newId now st = (Returned (Some g), st')
    /\ Group.maxMembers g
       = match in_maxMembers input with
         | Some k => if (k =? 0)%Z then 256%Z else k
         | None => 256%Z
         end
    /\ memberCount g = List.length (set_of (User.id u :: ms))
    /\ 1 <= memberCount g <= 1 + List.length ms
    /\ (forall k, in_maxMembers input = Some k -> (0 < k < Z.of_nat (memberCount g))%Z ->
                  (Group.maxMembers g < Z.of_nat (memberCount g))%Z).
Proof.
  intros Hauth Hname Hnamed Htrim Hmembers Hnonempty Hvalid Himage Hfresh.
  destruct (createGroup_fields st input u newId now n ms
              Hauth Hname Hnamed Htrim Hmembers Hnonempty Hvalid Himage Hfresh)
    as (g & Hrun & _ & _ & Hms & _ & _ & Hmax & _).
  exists g. eexists. split; [exact Hrun|]. split; [exact Hmax|].
  unfold memberCount. rewrite Hms. split; [reflexivity|]. split.
  - pose proof (set_of_length (User.id u :: ms)). cbn in *. lia.
  - intros k Hk Hsmall. rewrite Hmax, Hk.
    destruct (Z.eqb_spec k 0); lia.
Qed.

Lemma createGroup_capacity_unchecked_witness :
  exists g st',
    createGroup {| in_name := Some "Team"; in_description := None;
                   in_groupImage := None; in_members := Some [u2; u3];
                   in_isPrivate := None; in_maxMembers := Some 2%Z |}
      (as_user u1) gid1 0%Z empty_store
    = (Returned (Some g), st')
    /\ Group.maxMembers g = 2%Z
    /\ memberCount g = 3.
Proof.
  assert (Hu1 : u1 <> "") by discriminate.
  assert (Hnamed : "Team" <> "") by discriminate.
  assert (Htrim : js_trim "Team" <> "") by (vm_compute; discriminate).
  assert (Hms : [u2; u3] <> []) by discriminate.
  assert (Hvalid : forall x, In x [u2; u3] -> ObjectId_isValid x = true).
  { intros x [<- | [<- | []]]; reflexivity. }
  destruct (createGroup_capacity_unchecked empty_store
              {| in_name := Some "Team"; in_description := None;
                 in_groupImage := None; in_members := Some [u2; u3];
                 in_isPrivate := None; in_maxMembers := Some 2%Z |}
              {| User.id := u1; User.name := "" |} gid1 0%Z "Team" [u2; u3]
              Hu1 eq_refl Hnamed Htrim eq_refl Hms Hvalid)
    as (g & st' & Hrun & Hmax & Hcount & _).
  - discriminate.
  - reflexivity.
  - exists g, st'. repeat split; assumption.
Defined.

(** X14: after a successful createGroup, getGroupDetails of the new
    identifier returns the created group, and getUserGroups of a user lists
    the created group exactly when that user is the creator or one of the
    supplied members. *)
Theorem created_group_is_visible `{Externals}
    (st : Store) (input : CreateGroupInput) (u : User.t) (newId : Id) (now : Z)
    (n : string) (ms : list Id) :
  User.id u <> "" ->
  in_name input = Some n ->
  n <> "" ->
  js_trim n <> "" ->
  in_members input = Some ms ->
  ms <> [] ->
  (forall x, In x ms -> ObjectId_isValid x = true) ->
  in_groupImage input <> Some UploadFailed ->
  existsb (fun x => String.eqb (Group._id x) newId) (groups st) = false ->
  exists g st',
    createGroup input {| user := Some u |} newId now st = (Returned (Some g), st')
    /\ (forall ctx, getGroupDetails newId ctx st' = (Returned g, st'))
    /\ (forall who ctx listing,
           getUserGroups who ctx st' = (Returned listing, st') ->
           (In g listing <-> who = User.id u \/ In who ms)).
Proof.
  intros Hauth Hname Hnamed Htrim Hmembers Hnonempty Hvalid Himage Hfresh.
  destruct (createGroup_fields st input u newId now n ms
              Hauth Hname Hnamed Htrim Hmembers Hnonempty Hvalid Himage Hfresh)
    as (g & Hrun & Hid & _ & Hms & _).
  exists g. eexists. split; [exact Hrun|]. split.
  - intros ctx. unfold getGroupDetails. run. cbn [groups].
    rewrite (find_appended _ (groups st) g Hfresh); [reflexivity|].
    rewrite Hid. apply String.eqb_refl.
  - intros who ctx listing Hlist.
    rewrite (getUserGroups_In _ who ctx listing Hlist g). cbn [groups].
    rewrite Hms, set_of_In. cbn [In]. split.
    + intros [_ [Hw | Hw]]; auto.
    + intros Hw. split; [apply in_or_app; right; now left|].
      destruct Hw as [Hw | Hw]; auto.
Qed.

Lemma created_group_is_visible_witness :
  exists g st',
    createGroup team_input (as_user u1) gid1 0%Z empty_store = (Returned (Some g), st')
    /\ getGroupDetails gid1 anonymous st' = (Returned g, st')
    /\ exists listing,
        getUserGroups u2 anonymous st' = (Returned listing, st') /\ In g listing.
Proof.
  assert (Hu1 : u1 <> "") by discriminate.
  assert (Hnamed : "Team" <> "") by discriminate.
  assert (Htrim : js_trim "Team" <> "") by (vm_compute; discriminate).
  assert (Hms : [u1; u2] <> []) by discriminate.
  assert (Hvalid : forall x, In x [u1; u2] -> ObjectId_isValid x = true).
  { intros x [<- | [<- | []]]; reflexivity. }
  destruct (created_group_is_visible empty_store team_input
              {| User.id := u1; User.name := "" |} gid1 0%Z "Team" [u1; u2]
              Hu1 eq_refl Hnamed Htrim eq_refl Hms Hvalid)
    as (g & st' & Hrun & Hdetails & Hlisting).
  - discriminate.
  - reflexivity.
  - exists g, st'. split; [exact Hrun|]. split; [apply Hdetails|].
    eexists. split; [reflexivity|].
    apply (Hlisting u2 anonymous _ eq_refl). right. right. now left.
Defined.

(** ** The message schema and the chat panel *)

Lemma append_empty_r (s : string) : (s ++ "")%string = s.
Proof. induction s as [|c s IH]; cbn; [reflexivity | now rewrite IH]. Qed.

(** X15: the GroupMessage schema accepts a new document exactly when the
    identifiers of its group and sender are well formed, it carries no media
    object, its reply target is absent or a well-formed identifier, and its
    message type is one of text, image, video, audio, file and system.  The
    stored document then has the content trimmed, no media, both flags false,
    no read receipts and both timestamps at the current time, and the other
    paths as given.  With everything else in order, a type outside the
    enumeration gives the validation error of the enumeration, and a media
    object gives a validation error that starts with the failed cast of
    media. *)
Theorem groupMessageSchema_trims_and_validates `{Externals}
    (doc : NewGroupMessage) (newId : Id) (now : Z) :
  (ObjectId_isValid (new_group doc) = true ->
   ObjectId_isValid (new_sender doc) = true ->
   new_media doc = None ->
   (forall r, new_replyTo doc = Some r -> ObjectId_isValid r = true) ->
   In (new_messageType doc) messageType_enum ->
   groupMessageSchema_cast doc newId now
   = Returned {| GroupMessage._id := newId;
                 GroupMessage.group := new_group doc;
                 GroupMessage.sender := new_sender doc;
                 GroupMessage.content := option_map js_trim (new_content doc);
                 GroupMessage.messageType := new_messageType doc;
                 GroupMessage.media := None;
                 GroupMessage.replyTo := new_replyTo doc;
                 GroupMessage.isEdited := false;
                 GroupMessage.editedAt := None;
                 GroupMessage.isDeleted := false;
                 GroupMessage.deletedAt := None;
                 GroupMessage.readBy := [];
                 GroupMessage.createdAt := now;
                 GroupMessage.updatedAt := now |})
  /\ (forall m,
        groupMessageSchema_cast doc newId now = Returned m ->
        ObjectId_isValid (new_group doc) = true
        /\ ObjectId_isValid (new_sender doc) = true
        /\ new_media doc = None
        /\ (forall r, new_replyTo doc = Some r -> ObjectId_isValid r = true)
        /\ In (new_messageType doc) messageType_enum)
  /\ (ObjectId_isValid (new_group doc) = true ->
      ObjectId_isValid (new_sender doc) = true ->
      new_media doc = None ->
      (forall r, new_replyTo doc = Some r -> ObjectId_isValid r = true) ->
      ~ In (new_messageType doc) messageType_enum ->
      groupMessageSchema_cast doc newId now
      = Thrown ("GroupMessage validation failed: messageType: `" ++ new_messageType doc
                  ++ "` is not a valid enum value for path `messageType`."))
  /\ (forall v,
        ObjectId_isValid (new_group doc) = true ->
        ObjectId_isValid (new_sender doc) = true ->
        new_media doc = Some v ->
        exists rest,
          groupMessageSchema_cast doc newId now
          = Thrown ("GroupMessage validation failed: media: " ++ cast_to_string_failed v
                      ++ rest)).
Proof.
  split; [|split; [|split]].
  - intros Hgroup Hsender Hmedia Hreply Htype. apply schema_accepts.
    repeat split; assumption.
  - intros m Hcast. now apply schema_accepts in Hcast.
  - intros Hgroup Hsender Hmedia Hreply Htype.
    unfold groupMessageSchema_cast, groupMessageSchema_errors, cast_ObjectId.
    rewrite Hgroup, Hsender, Hmedia.
    assert (Henum : existsb (String.eqb (new_messageType doc)) messageType_enum = false).
    { destruct (existsb _ messageType_enum) eqn:Henum; [|reflexivity].
      exfalso. apply Htype. apply existsb_exists in Henum. destruct Henum as [x [Hx Heq]].
      apply String.eqb_eq in Heq. now subst. }
    rewrite Henum.
    destruct (new_replyTo doc) as [r|]; [rewrite (Hreply r eq_refl)|]; reflexivity.
  - intros v Hgroup Hsender Hmedia.
    unfold groupMessageSchema_cast, groupMessageSchema_errors, cast_ObjectId.
    rewrite Hgroup, Hsender, Hmedia.
    cbn [app].
    destruct (app _ _) as [|e rest]; cbn [String.concat].
    + exists "". now rewrite append_empty_r.
    + eexists. cbn. reflexivity.
Qed.

Lemma groupMessageSchema_trims_and_validates_witness :
  (exists m,
      groupMessageSchema_cast
        {| new_group := gid1; new_sender := u1; new_content := Some "  hello ";
           new_messageType := "text"; new_media := None; new_replyTo := None |}
        "m1" 1%Z
      = Returned m
      /\ GroupMessage.content m = Some "hello")
  /\ groupMessageSchema_cast
       {| new_group := gid1; new_sender := u1; new_content := None;
          new_messageType := "sticker"; new_media := None; new_replyTo := None |}
       "m1" 1%Z
     = Thrown ("GroupMessage validation failed: "
                 ++ "messageType: `sticker` is not a valid enum value for path `messageType`.").
Proof.
  assert (Hreply : forall r, @None Id = Some r -> ObjectId_isValid r = true)
    by discriminate.
  split.
  - eexists. split.
    + apply (proj1 (@groupMessageSchema_trims_and_validates sample_externals
                      {| new_group := gid1; new_sender := u1;
                         new_content := Some "  hello "; new_messageType := "text";
                         new_media := None; new_replyTo := None |} "m1" 1%Z));
        [reflexivity | reflexivity | reflexivity | exact Hreply | now left].
    + reflexivity.
  - apply (proj1 (proj2 (proj2 (@groupMessageSchema_trims_and_validates sample_externals
                                  {| new_group := gid1; new_sender := u1;
                                     new_content := None; new_messageType := "sticker";
                                     new_media := None; new_replyTo := None |}
                                  "m1" 1%Z))));
      [reflexivity | reflexivity | reflexivity | exact Hreply |].
    cbn. intros [H | [H | [H | [H | [H | [H | []]]]]]]; discriminate.
Defined.

(** X16: the chat panel sends nothing for an input that is blank after
    trimming.  Otherwise it asks for a text message whose content is the
    trimmed input; when the sender is a member, the identifiers of the group
    and of the sender are well formed and the identifier of the message is
    fresh, sendGroupMessage accepts it, the schema trims the content once more
    before it is stored (so the stored content is the panel's text whenever
    trimming a trimmed text changes nothing), and the group's last-message
    summary shows the panel's text itself, never the "Sent a text"
    fallback. *)
Theorem panel_message_is_stored_verbatim `{Externals}
    (st : Store) (groupId : Id) (message : string)
    (u : User.t) (newId : Id) (now : Z) (g : Group.t) :
  find (fun x => String.eqb (Group._id x) groupId) (groups st) = Some g ->
  includes (Group.members g) (User.id u) = true ->
  ObjectId_isValid groupId = true ->
  ObjectId_isValid (User.id u) = true ->
  existsb (fun m => String.eqb (GroupMessage._id m) newId) (groupMessages st) = false ->
  (js_trim message = "" -> handleSendMessage groupId message = None)
  /\ (js_trim message <> "" ->
      exists v stored st' g',
        handleSendMessage groupId message = Some v
        /\ var_groupId v = groupId
        /\ var_content v = js_trim message
        /\ var_messageType v = "text"
        /\ sendGroupMessage (var_groupId v) (Some (var_content v)) (Some (var_messageType v))
             None None {| user := Some u |} newId now st
           = (Returned (Some stored), st')
        /\ groupMessages st' = (groupMessages st ++ [stored])%list
        /\ GroupMessage.messageType stored = "text"
        /\ GroupMessage.content stored = Some (js_trim (js_trim message))
        /\ (js_trim (js_trim message) = js_trim message ->
            GroupMessage.content stored = Some (js_trim message))
        /\ find (fun x => String.eqb (Group._id x) groupId) (groups st') = Some g'
        /\ Group.lastMessage g'
           = Some {| lm_content := js_trim message;
                     lm_sender := User.id u;
                     lm_timestamp := now |}).
Proof.
  intros Hfound Hmember Hgid Huid Hfresh. unfold handleSendMessage. split.
  - intros Hblank. now rewrite Hblank.
  - intros Htext. destruct (js_trim message) as [|c r] eqn:Htrim; [congruence|].
    cbn [truthy negb].
    assert (Htype : In (default "text" (Some "text")) messageType_enum) by (now left).
    assert (Hreply : forall x, @None Id = Some x -> ObjectId_isValid x = true)
      by discriminate.
    destruct (sendGroupMessage_member st groupId (Some (String c r)) (Some "text") None None
                u newId now g Hfound Hmember Hgid Huid eq_refl Hreply Htype Hfresh)
      as (st' & Hrun & Hmsgs & Hgroup & _).
    eexists _, _, st', _. split; [reflexivity|].
    cbn [var_groupId var_content var_messageType].
    do 3 (split; [reflexivity|]). split; [exact Hrun|]. split; [exact Hmsgs|].
    split; [reflexivity|]. split; [reflexivity|].
    split; [intros Hidem; cbn; now rewrite Hidem|].
    split; [exact Hgroup | reflexivity].
Qed.

Lemma panel_message_is_stored_verbatim_witness :
  handleSendMessage gid1 (" " ++ nbsp) = None
  /\ exists v stored st',
      handleSendMessage gid1 " hi there  " = Some v
      /\ sendGroupMessage (var_groupId v) (Some (var_content v)) (Some (var_messageType v))
           None None (as_user u2) "m1" 7%Z (team_store 256)
         = (Returned (Some stored), st')
      /\ GroupMessage.content stored = Some "hi there".
Proof.
  destruct (@panel_message_is_stored_verbatim sample_externals (team_store 256) gid1
              (" " ++ nbsp)
              {| User.id := u2; User.name := "" |} "m1" 7%Z (team 256)
              eq_refl eq_refl eq_refl eq_refl eq_refl) as (Hblank & _).
  destruct (@panel_message_is_stored_verbatim sample_externals (team_store 256) gid1
              " hi there  "
              {| User.id := u2; User.name := "" |} "m1" 7%Z (team 256)
              eq_refl eq_refl eq_refl eq_refl eq_refl) as (_ & Htext).
  split; [exact (Hblank eq_refl)|].
  destruct Htext as (v & stored & st' & g' & Hv & _ & _ & _ & Hrun & _ & _ & Hcontent & _);
    [vm_compute; discriminate|].
  exists v, stored, st'. repeat split; assumption.
Defined.

(** ** Who is typing *)

Lemma typing_keys_kept (who : Id) (l : list TypingUser.t) :
  NoDup (map TypingUser.userId l) ->
  NoDup (map TypingUser.userId
           (filter (fun x => negb (String.eqb (TypingUser.userId x) who)) l))
  /\ ~ In who (map TypingUser.userId
                 (filter (fun x => negb (String.eqb (TypingUser.userId x) who)) l)).
Proof.
  intros Hnd. split; [now apply keys_unique_kept|].
  intros Hin. apply in_map_iff in Hin. destruct Hin as [x [Hx Hf]].
  apply filter_In in Hf. destruct Hf as [_ Hne].
  rewrite Hx, String.eqb_refl in Hne. discriminate.
Qed.

(** X17: the typing listener of the chat panel keeps the list of typing
    users free of repeated user ids.  An event about the current user changes
    nothing.  An event about anyone else keeps every other user in place;
    after a "typing" event that user is listed exactly once, at the end, and
    after a "stopped" event that user is not listed; nobody appears who was
    not listed before or named by the event. *)
Theorem typing_users_stay_unique
    (currentUserId : option Id) (who : TypingUser.t) (userIsTyping : bool)
    (prev : list TypingUser.t) :
  NoDup (map TypingUser.userId prev) ->
  let next := onGroupUserTyping currentUserId who userIsTyping prev in
  NoDup (map TypingUser.userId next)
  /\ (currentUserId = Some (TypingUser.userId who) -> next = prev)
  /\ (currentUserId <> Some (TypingUser.userId who) ->
      (forall x, In x prev -> TypingUser.userId x <> TypingUser.userId who -> In x next)
      /\ (userIsTyping = true ->
          exists others,
            next = (others ++ [who])%list
            /\ ~ In (TypingUser.userId who) (map TypingUser.userId others))
      /\ (userIsTyping = false ->
          ~ In (TypingUser.userId who) (map TypingUser.userId next)))
  /\ (forall x, In x next -> x = who \/ In x prev).
Proof.
  intros Hnd next.
  destruct (typing_keys_kept (TypingUser.userId who) prev Hnd) as [Hkept Hgone].
  assert (Hgate :
            (currentUserId = Some (TypingUser.userId who) -> next = prev)
            /\ (currentUserId <> Some (TypingUser.userId who) ->
                next = if userIsTyping
                       then (filter (fun x => negb (String.eqb (TypingUser.userId x)
                                                      (TypingUser.userId who))) prev
                             ++ [who])%list
                       else filter (fun x => negb (String.eqb (TypingUser.userId x)
                                                     (TypingUser.userId who))) prev)).
  { unfold next, onGroupUserTyping. destruct currentUserId as [me|].
    - destruct (String.eqb_spec (TypingUser.userId who) me) as [Heq | Hne]; cbn [negb].
      + split; [reflexivity | intros Hme; congruence].
      + split; [intros Hme; congruence | reflexivity].
    - split; [discriminate | reflexivity]. }
  destruct Hgate as [Hself Hother].
  assert (Hcases : currentUserId = Some (TypingUser.userId who)
                   \/ currentUserId <> Some (TypingUser.userId who)).
  { destruct currentUserId as [me|]; [|right; discriminate].
    destruct (String.eqb_spec me (TypingUser.userId who)) as [-> | Hne];
      [now left | right; congruence]. }
  split; [|split; [exact Hself|split]].
  - destruct Hcases as [Hme | Hme]; [now rewrite (Hself Hme)|].
    rewrite (Hother Hme). destruct userIsTyping; [|exact Hkept].
    rewrite map_app. cbn.
    apply (Permutation_NoDup (Permutation_cons_append _ _)).
    now constructor.
  - intros Hme. rewrite (Hother Hme). split; [|split].
    + intros x Hx Hne.
      assert (Hin : In x (filter (fun y => negb (String.eqb (TypingUser.userId y)
                                                    (TypingUser.userId who))) prev)).
      { apply filter_In. split; [assumption|].
        apply negb_true_iff. now apply String.eqb_neq. }
      destruct userIsTyping; [apply in_or_app; now left | exact Hin].
    + intros ->. eexists. split; [reflexivity | exact Hgone].
    + intros ->. exact Hgone.
  - intros x Hx. destruct Hcases as [Hme | Hme].
    + rewrite (Hself Hme) in Hx. now right.
    + rewrite (Hother Hme) in Hx. destruct userIsTyping.
      * apply in_app_or in Hx. destruct Hx as [Hx | [Hx | []]]; [|now left].
        apply filter_In in Hx. now right.
      * apply filter_In in Hx. now right.
Qed.

Lemma typing_users_stay_unique_witness :
  let ann := {| TypingUser.userId := u2; TypingUser.userName := "Ann";
                TypingUser.profileImage := "" |} in
  let bob := {| TypingUser.userId := u3; TypingUser.userName := "Bob";
                TypingUser.profileImage := "" |} in
  NoDup (map TypingUser.userId (onGroupUserTyping (Some u1) ann true [ann; bob]))
  /\ onGroupUserTyping (Some u1) ann true [ann; bob] = [bob; ann].
Proof.
  intros ann bob.
  assert (Hnd : NoDup (map TypingUser.userId [ann; bob])).
  { cbn. constructor; [|constructor; [|constructor]].
    - intros [H | []]. discriminate.
    - intros []. }
  split; [|reflexivity].
  exact (proj1 (typing_users_stay_unique (Some u1) ann true [ann; bob] Hnd)).
Defined.

(** ** Read receipts are only ever added *)

Lemma markGroupMessageAsRead_keeps_others
    (st : Store) (messageId : Id) (ctx : Context) (now : Z) (x : GroupMessage.t) :
  In x (groupMessages st) ->
  GroupMessage._id x <> messageId ->
  In x (groupMessages (snd (markGroupMessageAsRead messageId ctx now st))).
Proof.
  intros Hin Hne. unfold markGroupMessageAsRead. run.
  destruct (user ctx) as [u|]; [|exact Hin].
  destruct (find _ (groupMessages st)) as [m|] eqn:Hm; [|exact Hin].
  cbv beta match zeta.
  destruct (negb _); cbv beta match zeta; [|exact Hin]. cbn.
  apply in_map_iff. exists x. split; [|exact Hin].
  apply find_some in Hm. destruct Hm as [_ Hid]. apply String.eqb_eq in Hid.
  rewrite Hid. apply String.eqb_neq in Hne. now rewrite Hne.
Qed.

(** X18: markGroupMessageAsRead on a stored message, by any authenticated
    user (membership in the message's group is not looked at, and the groups
    are left untouched), returns and stores the message with its read
    receipts kept in order and, only when the user had none, one receipt
    (user, now) appended.  In that case the save also moves the update time
    of the message to now; when the user had a receipt already, nothing is
    saved and the store is the same.  No other path of the message changes,
    the collection keeps its length, and every message with another
    identifier stays in the store. *)
Theorem read_receipt_is_appended
    (st : Store) (messageId : Id) (u : User.t) (now : Z) (m : GroupMessage.t) :
  find (fun x => String.eqb (GroupMessage._id x) messageId) (groupMessages st) = Some m ->
  let alreadyRead :=
    existsb (fun read => String.eqb (rr_user read) (User.id u)) (GroupMessage.readBy m) in
  exists m' st',
    markGroupMessageAsRead messageId {| user := Some u |} now st = (Returned (Some m'), st')
    /\ find (fun x => String.eqb (GroupMessage._id x) messageId) (groupMessages st') = Some m'
    /\ GroupMessage.readBy m'
       = (GroupMessage.readBy m
            ++ if alreadyRead then [] else [{| rr_user := User.id u; readAt := now |}])%list
    /\ GroupMessage.updatedAt m' = (if alreadyRead then GroupMessage.updatedAt m else now)
    /\ (alreadyRead = true -> st' = st)
    /\ GroupMessage._id m' = GroupMessage._id m
    /\ GroupMessage.group m' = GroupMessage.group m
    /\ GroupMessage.sender m' = GroupMessage.sender m
    /\ GroupMessage.content m' = GroupMessage.content m
    /\ GroupMessage.messageType m' = GroupMessage.messageType m
    /\ GroupMessage.media m' = GroupMessage.media m
    /\ GroupMessage.replyTo m' = GroupMessage.replyTo m
    /\ GroupMessage.isEdited m' = GroupMessage.isEdited m
    /\ GroupMessage.editedAt m' = GroupMessage.editedAt m
    /\ GroupMessage.isDeleted m' = GroupMessage.isDeleted m
    /\ GroupMessage.deletedAt m' = GroupMessage.deletedAt m
    /\ GroupMessage.createdAt m' = GroupMessage.createdAt m
    /\ groups st' = groups st
    /\ List.length (groupMessages st') = List.length (groupMessages st)
    /\ (forall x, In x (groupMessages st) -> GroupMessage._id x <> messageId ->
                  In x (groupMessages st')).
Proof.
  intros Hfound alreadyRead.
  pose proof (fun x => markGroupMessageAsRead_keeps_others st messageId
                         {| user := Some u |} now x) as Hothers.
  subst alreadyRead. fold (read_by (User.id u)).
  destruct (existsb (read_by (User.id u)) (GroupMessage.readBy m)) eqn:Hread.
  - pose proof (markGroupMessageAsRead_already st messageId u m Hfound now Hread) as Hrun.
    rewrite Hrun in Hothers. cbn [snd] in Hothers.
    exists m, st. rewrite app_nil_r. repeat split; try assumption; reflexivity.
  - destruct (markGroupMessageAsRead_first st messageId u m Hfound now Hread)
      as (st' & Hrun & Hfound' & Hgroups & Hmsgs).
    rewrite Hrun in Hothers. cbn [snd] in Hothers.
    eexists _, st'. split; [exact Hrun|]. split; [exact Hfound'|].
    cbn [GroupMessage.readBy GroupMessage.with_readBy GroupMessage.with_updatedAt
         GroupMessage.updatedAt GroupMessage._id GroupMessage.group GroupMessage.sender
         GroupMessage.content GroupMessage.messageType GroupMessage.media
         GroupMessage.replyTo GroupMessage.isEdited GroupMessage.editedAt
         GroupMessage.isDeleted GroupMessage.deletedAt GroupMessage.createdAt].
    repeat split; try assumption; try reflexivity; try discriminate.
    rewrite Hmsgs. apply length_map.
Qed.

Lemma read_receipt_is_appended_witness :
  exists m' st',
    markGroupMessageAsRead "m3" (as_user u3) 9%Z five_messages = (Returned (Some m'), st')
    /\ GroupMessage.readBy m' = [{| rr_user := u3; readAt := 9%Z |}]
    /\ GroupMessage.updatedAt m' = 9%Z
    /\ groups st' = groups five_messages.
Proof.
  destruct (read_receipt_is_appended five_messages "m3"
              {| User.id := u3; User.name := "" |} 9%Z M3 eq_refl)
    as (m' & st' & Hrun & _ & Hreceipts & Hupdated & _ & _ & _ & _ & _ & _ & _ & _ & _ & _
        & _ & _ & _ & Hgroups & _).
  exists m', st'. repeat split; assumption.
Defined.

(** ** Pages *)

Lemma firstn_sum {A} (a b : nat) (l : list A) :
  firstn (a + b) l = (firstn a l ++ firstn b (skipn a l))%list.
Proof.
  revert l. induction a as [|a IH]; intros l; [reflexivity|].
  destruct l as [|x l]; cbn; [now rewrite firstn_nil|].
  now rewrite IH.
Qed.

(** X19: with non-zero limits, consecutive pages of getGroupMessages tile the
    listing: the page of [b] messages at offset [o + a], followed by the page
    of [a] messages at offset [o], is the page of [a + b] messages at offset
    [o].  An offset at or beyond the number of listed messages gives the
    empty page, not a failure. *)
Theorem getGroupMessages_pages_tile
    (st : Store) (groupId : Id) (a b o : nat) (ctx : Context) :
  a <> 0 -> b <> 0 ->
  exists newer older,
    getGroupMessages groupId (Some a) (Some o) ctx st = (Returned newer, st)
    /\ getGroupMessages groupId (Some b) (Some (o + a)) ctx st = (Returned older, st)
    /\ getGroupMessages groupId (Some (a + b)) (Some o) ctx st
       = (Returned (older ++ newer)%list, st)
    /\ (List.length (filter (group_query groupId) (groupMessages st)) <= o -> newer = []).
Proof.
  intros Ha Hb. unfold getGroupMessages. run. cbn [default].
  set (listing := sort_createdAt_desc (filter (group_query groupId) (groupMessages st))).
  eexists _, _. split; [reflexivity|]. split; [reflexivity|]. split.
  - f_equal. f_equal. unfold cursor_skip.
    destruct a as [|a']; [congruence|]. destruct b as [|b']; [congruence|].
    cbn [cursor_limit Nat.add].
    change (S (a' + S b')) with (S a' + S b').
    rewrite firstn_sum, rev_app_distr, skipn_skipn, (Nat.add_comm (S a') o).
    reflexivity.
  - intros Hshort. unfold cursor_skip.
    rewrite skipn_all2.
    + now destruct a.
    + unfold listing. now rewrite (Permutation_length (sort_createdAt_desc_perm _)).
Qed.

Lemma getGroupMessages_pages_tile_witness :
  getGroupMessages gid1 (Some 2) (Some 0) anonymous five_messages
  = (Returned [M4; M5], five_messages)
  /\ getGroupMessages gid1 (Some 2) (Some 2) anonymous five_messages
     = (Returned [M2; M3], five_messages)
  /\ getGroupMessages gid1 (Some 4) (Some 0) anonymous five_messages
     = (Returned [M2; M3; M4; M5], five_messages).
Proof.
  assert (H2 : 2 <> 0) by discriminate.
  destruct (getGroupMessages_pages_tile five_messages gid1 2 2 0 anonymous H2 H2)
    as (newer & older & Hnewer & Holder & Hboth & _).
  assert (En : newer = [M4; M5]) by (cbn in Hnewer; now inversion Hnewer).
  assert (Eo : older = [M2; M3]) by (cbn in Holder; now inversion Holder).
  subst newer older. repeat split; assumption.
Defined.

Lemma page_after_newest (m : GroupMessage.t) (listing : list GroupMessage.t) (k : nat) :
  let page := rev (firstn (S k) listing) in
  rev (firstn (S k) (m :: listing))
  = if (List.length page <? S k)%nat
    then (page ++ [m])%list
    else tl (page ++ [m])%list.
Proof.
  cbn zeta. rewrite firstn_cons. cbn [rev].
  assert (Hsplit : firstn (S k) listing
                   = (firstn k listing ++ firstn 1 (skipn k listing))%list).
  { rewrite <- firstn_sum. f_equal. symmetry. apply Nat.add_1_r. }
  rewrite Hsplit, rev_app_distr, length_app, !length_rev.
  destruct (skipn k listing) as [|x rest] eqn:Hskip.
  - cbn [firstn rev app List.length]. rewrite Nat.add_0_l.
    pose proof (firstn_le_length k listing) as Hle.
    destruct (Nat.ltb_spec (List.length (firstn k listing)) (S k)); [reflexivity | lia].
  - cbn [firstn rev app List.length tl].
    assert (Hlen : List.length (firstn k listing) = k).
    { apply firstn_length_le.
      assert (Hk : ~ List.length listing <= k).
      { intros Hle. apply skipn_all2 in Hle. congruence. }
      lia. }
    rewrite Hlen.
    destruct (Nat.ltb_spec (1 + k) (S k)); [lia | reflexivity].
Qed.

(** X20: the chat panel's live update agrees with a refetch.  Let a member
    send a message that the schema accepts (well-formed identifiers of the
    group and of the sender, no media, a reply target that is absent or a
    well-formed identifier, a type of the enumeration), under a fresh
    identifier and later than every stored message of the group.
    Appending the returned message, whose content is the trimmed one, to the
    first page of a non-zero limit, as the newGroupMessage listener does,
    gives the first page of the new store when the old page was not full,
    and that page preceded by the oldest message of the old page when it was
    full. *)
Theorem live_update_agrees_with_refetch `{Externals}
    (st : Store) (groupId : Id) (content ty : option string)
    (media : option Media) (replyTo : option Id)
    (u : User.t) (newId : Id) (now : Z) (g : Group.t) (k : nat) (ctx : Context) :
  find (fun x => String.eqb (Group._id x) groupId) (groups st) = Some g ->
  includes (Group.members g) (User.id u) = true ->
  ObjectId_isValid groupId = true ->
  ObjectId_isValid (User.id u) = true ->
  media = None ->
  (forall r, replyTo = Some r -> ObjectId_isValid r = true) ->
  In (default "text" ty) messageType_enum ->
  existsb (fun m => String.eqb (GroupMessage._id m) newId) (groupMessages st) = false ->
  (forall m, In m (groupMessages st) -> GroupMessage.group m = groupId ->
             (GroupMessage.createdAt m < now)%Z) ->
  exists message st' page page',
    sendGroupMessage groupId content ty media replyTo {| user := Some u |} newId now st
    = (Returned (Some message), st')
    /\ GroupMessage._id message = newId
    /\ GroupMessage.content message = option_map js_trim content
    /\ getGroupMessages groupId (Some (S k)) None ctx st = (Returned page, st)
    /\ getGroupMessages groupId (Some (S k)) None ctx st' = (Returned page', st')
    /\ page' = if (List.length page <? S k)%nat
               then onNewGroupMessage groupId message page
               else tl (onNewGroupMessage groupId message page).
Proof.
  intros Hfound Hmember Hgid Huid Hmedia Hreply Htype Hfresh Hclock.
  destruct (sendGroupMessage_member st groupId content ty media replyTo u newId now g
              Hfound Hmember Hgid Huid Hmedia Hreply Htype Hfresh)
    as (st' & Hrun & Hmsgs & _).
  eexists _, st', _, _. split; [exact Hrun|]. do 2 (split; [reflexivity|]).
  split; [reflexivity|]. unfold getGroupMessages. run. rewrite Hmsgs.
  rewrite filter_app. cbn [filter]. unfold group_query at 2.
  cbn [GroupMessage.group GroupMessage.isDeleted groupMessageSchema_document new_group].
  rewrite String.eqb_refl. cbn [negb andb].
  rewrite sort_newest_appended.
  - split; [reflexivity|].
    unfold onNewGroupMessage.
    cbn [GroupMessage.group groupMessageSchema_document new_group].
    rewrite String.eqb_refl.
    cbn [default cursor_limit cursor_skip skipn].
    apply page_after_newest.
  - intros x Hx. apply filter_In in Hx. destruct Hx as [Hin Hq].
    cbn [GroupMessage.createdAt groupMessageSchema_document]. apply Hclock; [assumption|].
    unfold group_query in Hq. apply andb_true_iff in Hq. destruct Hq as [Hg _].
    now apply String.eqb_eq.
Qed.

Lemma live_update_agrees_with_refetch_witness :
  exists message st',
    sendGroupMessage gid1 (Some "bye") None None None (as_user u2) "m9" 10%Z five_messages
    = (Returned (Some message), st')
    /\ getGroupMessages gid1 (Some 2) None anonymous five_messages
       = (Returned [M4; M5], five_messages)
    /\ getGroupMessages gid1 (Some 2) None anonymous st'
       = (Returned (tl (onNewGroupMessage gid1 message [M4; M5])), st').
Proof.
  assert (Hclock : forall m, In m (groupMessages five_messages) ->
                             GroupMessage.group m = gid1 ->
                             (GroupMessage.createdAt m < 10)%Z).
  { intros m Hin _. cbn in Hin.
    repeat (destruct Hin as [<- | Hin]; [reflexivity|]). destruct Hin. }
  assert (Htype : In (default "text" None) messageType_enum) by (now left).
  assert (Hreply : forall r, @None Id = Some r -> ObjectId_isValid r = true)
    by discriminate.
  destruct (@live_update_agrees_with_refetch sample_externals five_messages gid1
              (Some "bye") None None None
              {| User.id := u2; User.name := "" |} "m9" 10%Z (team 256) 1 anonymous
              eq_refl eq_refl eq_refl eq_refl eq_refl Hreply Htype eq_refl Hclock)
    as (message & st' & page & page' & Hrun & _ & _ & Hpage & Hpage' & Hagree).
  assert (Ep : page = [M4; M5]) by (cbn in Hpage; now inversion Hpage).
  subst page. cbn in Hagree. subst page'.
  exists message, st'. repeat split; assumption.
Defined.
